(** * Verification of the homeostatic feedback loop of craving_ai

    Shallow embedding of the Python modules
    - [craving_ai/homeostasis.py]   (HomeostaticRegulator)
    - [craving_ai/llm_wrapper.py]   (pick_model)
    - [craving_ai/analyzer.py]      (CriticalAnalyzer.novelty_score and the
                                     difflib.SequenceMatcher it calls)
    - [craving_ai/reward_engine.py] (RewardEngine)

    Python floats are modelled as exact rationals [Q] where the code only
    adds, multiplies, compares and clamps them, and as reals [R] in the
    reward engine, whose metrics use logarithms and square roots. *)

From Stdlib Require Import ZArith QArith Qabs Qminmax Lqa List String Bool Arith Lia Sorted.
From Stdlib Require Reals Lra.
Import ListNotations.

(* ------------------------------------------------------------------ *)
(** ** homeostasis.py *)

Module Homeostasis.

Open Scope Q_scope.
Open Scope string_scope.
Open Scope list_scope.

(** Python's [a < b] on floats. *)
Definition Qlt_bool (a b : Q) : bool := negb (Qle_bool b a).

(** Python's [min(a, b)] and [max(a, b)] on two floats. *)
Definition py_min (a b : Q) : Q := if Qlt_bool b a then b else a.
Definition py_max (a b : Q) : Q := if Qlt_bool a b then b else a.

(** [@dataclass HomeostaticState] *)
Record HomeostaticState := mkState {
  pain_level : Q;
  satisfaction_level : Q;
  creativity_drive : Q;
  exploration_tendency : Q;
  stability_need : Q;
  temperature : Q;
  top_p : Q;
  frequency_penalty : Q;
  presence_penalty : Q
}.

Definition default_state : HomeostaticState :=
  mkState (5#10) (5#10) (7#10) (6#10) (4#10) (9#10) (8#10) 0 0.

(** Reasons recorded in an adjustment entry (their f-strings keep the
    pain value, kept here unformatted). *)
Inductive reason :=
| HighPain (pain : Q)          (* 'douleur élevée (...)' *)
| AntiPainExploration          (* 'exploration anti-douleur' *)
| LowPain (pain : Q)           (* 'douleur faible (...)' *)
| SoftStabilisation.           (* 'stabilisation douce' *)

Record adjustment := mkAdj { adj_old : Q; adj_new : Q; adj_reason : reason }.

(** The [adjustments] dict, in insertion order. *)
Definition adjustments := list (string * adjustment).

Record reward_entry := mkReward {
  rw_timestamp : string; rw_reward : Q; rw_emotion : string; rw_novelty : Q }.
Record pain_entry := mkPain { pn_timestamp : string; pn_pain : Q }.
(** ['pain_change'] and ['trigger'] are f-strings of the kept values. *)
Record adjustment_entry := mkLog {
  lg_timestamp : string;
  lg_pain_change : Q * Q;
  lg_adjustments : adjustments;
  lg_trigger : string * Q }.

(** The JSON document written by [_save_state]. *)
Record saved_data := mkSaved {
  sv_state : HomeostaticState;
  sv_reward_history : list reward_entry;
  sv_pain_history : list pain_entry;
  sv_adjustment_log : list adjustment_entry;
  sv_last_update : string }.

(** The regulator object together with the content of its state file. *)
Record Regulator := mkReg {
  state : HomeostaticState;
  reward_history : list reward_entry;
  pain_history : list pain_entry;
  adjustment_log : list adjustment_entry;
  state_file : option saved_data }.

Definition pain_threshold_high : Q := 6#10.
Definition pain_threshold_low : Q := 3#10.

(** [lst[-n:]] *)
Definition last_n {A} (n : nat) (l : list A) : list A := skipn (List.length l - n) l.

(** [_save_state]; [now] is [datetime.now().isoformat()]. *)
Definition save_state (now : string) (r : Regulator) : Regulator :=
  mkReg r.(state) r.(reward_history) r.(pain_history) r.(adjustment_log)
    (Some (mkSaved r.(state) (last_n 100 r.(reward_history))
             (last_n 100 r.(pain_history)) (last_n 50 r.(adjustment_log)) now)).

Definition set_temperature (s : HomeostaticState) (t : Q) :=
  mkState s.(pain_level) s.(satisfaction_level) s.(creativity_drive)
    s.(exploration_tendency) s.(stability_need) t s.(top_p)
    s.(frequency_penalty) s.(presence_penalty).
Definition set_top_p (s : HomeostaticState) (p : Q) :=
  mkState s.(pain_level) s.(satisfaction_level) s.(creativity_drive)
    s.(exploration_tendency) s.(stability_need) s.(temperature) p
    s.(frequency_penalty) s.(presence_penalty).
Definition set_creativity (s : HomeostaticState) (c : Q) :=
  mkState s.(pain_level) s.(satisfaction_level) c
    s.(exploration_tendency) s.(stability_need) s.(temperature) s.(top_p)
    s.(frequency_penalty) s.(presence_penalty).

(** [if abs(new - old) > 0.05: adjustments[key] = ...; field = new] *)
Definition deadband (key : string) (old new : Q) (why : reason)
    (adj : adjustments) : adjustments * Q :=
  if Qlt_bool (1#20) (Qabs (new - old))
  then (adj ++ [(key, mkAdj old new why)], new)
  else (adj, old).

(** The threshold-triggered block of [update_from_interaction]. *)
Definition regulate (s : HomeostaticState) : HomeostaticState * adjustments :=
  if Qlt_bool pain_threshold_high s.(pain_level) then
    let new_temp := py_min (s.(temperature) + (2#10)) (13#10) in
    let new_top_p := py_min (s.(top_p) + (2#10)) 1 in
    let (adj1, t) := deadband "temperature" s.(temperature) new_temp
                       (HighPain s.(pain_level)) [] in
    let s1 := set_temperature s t in
    let (adj2, p) := deadband "top_p" s1.(top_p) new_top_p
                       AntiPainExploration adj1 in
    let s2 := set_top_p s1 p in
    (set_creativity s2 (py_min 1 (s2.(creativity_drive) + (2#10))), adj2)
  else if Qlt_bool s.(pain_level) pain_threshold_low then
    let new_temp := py_max (s.(temperature) - (1#10)) (7#10) in
    let new_top_p := py_max (s.(top_p) - (1#10)) (7#10) in
    let (adj1, t) := deadband "temperature" s.(temperature) new_temp
                       (LowPain s.(pain_level)) [] in
    let s1 := set_temperature s t in
    let (adj2, p) := deadband "top_p" s1.(top_p) new_top_p
                       SoftStabilisation adj1 in
    (set_top_p s1 p, adj2)
  else (s, []).

(** [update_from_interaction(reward, emotion, pain_score, novelty_score,
    coherence_score)]; [now i] is the value of the i-th call of
    [datetime.now().isoformat()] during the call.  Returns the new
    regulator and the [adjustments] dict. *)
Definition update_from_interaction (now : nat -> string) (r : Regulator)
    (reward : Q) (emotion : string) (pain_score novelty_score coherence_score : Q)
    : Regulator * adjustments :=
  let rh := r.(reward_history) ++ [mkReward (now 0%nat) reward emotion novelty_score] in
  let ph := r.(pain_history) ++ [mkPain (now 1%nat) pain_score] in
  let s := r.(state) in
  let old_pain := s.(pain_level) in
  let s := mkState (s.(pain_level) * (6#10) + pain_score * (4#10))
             s.(satisfaction_level) s.(creativity_drive) s.(exploration_tendency)
             s.(stability_need) s.(temperature) s.(top_p)
             s.(frequency_penalty) s.(presence_penalty) in
  let satisfaction_delta := reward * (4#10) in
  let s := mkState s.(pain_level)
             (py_max 0 (py_min 1 (s.(satisfaction_level) + satisfaction_delta)))
             s.(creativity_drive) s.(exploration_tendency)
             s.(stability_need) s.(temperature) s.(top_p)
             s.(frequency_penalty) s.(presence_penalty) in
  let (s, adj) := regulate s in
  let lg := r.(adjustment_log) ++
              [mkLog (now 2%nat) (old_pain, s.(pain_level)) adj (emotion, novelty_score)] in
  (save_state (now 3%nat) (mkReg s rh ph lg r.(state_file)), adj).

(** [_load_state] on a missing or malformed file: the default state and
    empty logs, written back. *)
Definition fresh_regulator (now : string) : Regulator :=
  save_state now (mkReg default_state [] [] [] None).

(** One call of [update_from_interaction] as made by the main loop. *)
Record call := mkCall {
  c_now : nat -> string; c_reward : Q; c_emotion : string;
  c_novelty : Q; c_coherence : Q }.

(** A sequence of calls all made with the same [pain_score]: the
    regulators after each call. *)
Fixpoint run (pain_score : Q) (r : Regulator) (cs : list call) : list Regulator :=
  match cs with
  | [] => []
  | c :: cs' =>
      let r' := fst (update_from_interaction c.(c_now) r c.(c_reward) c.(c_emotion)
                       pain_score c.(c_novelty) c.(c_coherence)) in
      r' :: run pain_score r' cs'
  end.

(** The temperatures seen along a run, the starting one first. *)
Definition temperatures (pain_score : Q) (r : Regulator) (cs : list call) : list Q :=
  map (fun r => r.(state).(temperature)) (r :: run pain_score r cs).

Definition drives_in_range (s : HomeostaticState) : Prop :=
  (0 <= s.(pain_level) <= 1) /\ (0 <= s.(satisfaction_level) <= 1) /\
  (0 <= s.(creativity_drive) <= 1) /\ (0 <= s.(exploration_tendency) <= 1) /\
  (0 <= s.(stability_need) <= 1).

Definition sampling_in_range (s : HomeostaticState) : Prop :=
  ((1#10) <= s.(temperature) <= (13#10)) /\ (0 <= s.(top_p) <= 1) /\
  (0 <= s.(frequency_penalty)) /\ (0 <= s.(presence_penalty)).

(** The temperature clause of the spec, read literally: under a run of
    [pain_score = 0.9] calls the temperature never decreases and stays at
    most 1.3; under a run of [pain_score = 0.1] calls it never increases
    and stays at least 0.7; both from any temperature in [0.1, 1.3]. *)
Definition temperature_clause : Prop :=
  (forall r cs, (1#10) <= r.(state).(temperature) <= (13#10) ->
     Sorted Qle (temperatures (9#10) r cs) /\
     Forall (fun t => t <= 13#10) (temperatures (9#10) r cs)) /\
  (forall r cs, (1#10) <= r.(state).(temperature) <= (13#10) ->
     Sorted (fun a b => b <= a) (temperatures (1#10) r cs) /\
     Forall (fun t => 7#10 <= t) (temperatures (1#10) r cs)).

(** A stored state with maximal pain and the default temperature. *)
Definition pained_regulator : Regulator :=
  mkReg (mkState 1 (5#10) (7#10) (6#10) (4#10) (9#10) (8#10) 0 0) [] [] [] None.

Definition quiet_call : call := mkCall (fun _ => "2026-01-01T00:00:00") 0 "neutre" (5#10) (5#10).

End Homeostasis.

(* ------------------------------------------------------------------ *)
(** ** llm_wrapper.py: [pick_model] *)

Module LLMWrapper.

Import Homeostasis.
Open Scope Q_scope.
Open Scope string_scope.
Open Scope list_scope.

Definition DEFAULT_MODEL : string := "gpt-4o-mini".
Definition ALT_MODEL : string := "gpt-4o".

(** A Python dict with float values, as an association list. *)
Definition dict := list (string * Q).

(** [d.get(key, default)] *)
Fixpoint dict_get (d : dict) (key : string) (default : Q) : Q :=
  match d with
  | [] => default
  | (k, v) :: d' => if String.eqb k key then v else dict_get d' key default
  end.

(** [HomeostaticState.to_dict] ([dataclasses.asdict]). *)
Definition to_dict (s : HomeostaticState) : dict :=
  [("pain_level", s.(pain_level)); ("satisfaction_level", s.(satisfaction_level));
   ("creativity_drive", s.(creativity_drive));
   ("exploration_tendency", s.(exploration_tendency));
   ("stability_need", s.(stability_need)); ("temperature", s.(temperature));
   ("top_p", s.(top_p)); ("frequency_penalty", s.(frequency_penalty));
   ("presence_penalty", s.(presence_penalty))].

(** [pick_model(state)] *)
Definition pick_model (state : dict) : string :=
  let pain_level := dict_get state "pain_level" 0 in
  if Qlt_bool (6#10) pain_level then ALT_MODEL else DEFAULT_MODEL.

End LLMWrapper.

(* ------------------------------------------------------------------ *)
(** ** Python strings *)

Module PyStr.

(** A Python [str] is a sequence of Unicode code points. *)
Definition pystr := list Z.

(** An ASCII literal as a [str]. *)
Fixpoint of_ascii (s : string) : pystr :=
  match s with
  | EmptyString => []
  | String c s' => Z.of_nat (Ascii.nat_of_ascii c) :: of_ascii s'
  end.

End PyStr.

(* ------------------------------------------------------------------ *)
(** ** difflib.SequenceMatcher (isjunk=None, autojunk=True) *)

Module Difflib.

Import PyStr.
Open Scope nat_scope.
Open Scope list_scope.

(** Number of occurrences of [c] in [b]. *)
Definition count_of (c : Z) (b : pystr) : nat :=
  List.length (filter (fun x => Z.eqb x c) b).

(** [__chain_b]: [c] is popular when [len(b) >= 200] and [c] occurs more
    than [len(b) // 100 + 1] times; popular elements are deleted from
    [b2j].  With [isjunk=None] the junk set [bjunk] is empty. *)
Definition popular (b : pystr) (c : Z) : bool :=
  (200 <=? List.length b) && (List.length b / 100 + 1 <? count_of c b).

(** [b2j.get(c, nothing)]: the ascending indices of [c] in [b]. *)
Definition b2j_get (b : pystr) (c : Z) : list nat :=
  if popular b c then []
  else filter (fun j => Z.eqb (nth j b 0%Z) c) (seq 0 (List.length b)).

(** [j2len.get(j-1, 0)]: the key [-1] is never present. *)
Definition get_prev (j2len : nat -> nat) (j : nat) : nat :=
  match j with 0 => 0 | S j' => j2len j' end.

(** The inner [for j in b2j.get(a[i], nothing)] loop, with its
    [continue] and [break]; returns [newj2len] and the best match. *)
Fixpoint inner (blo bhi i : nat) (j2len : nat -> nat) (js : list nat)
    (newj2len : nat -> nat) (best : nat * nat * nat)
    : (nat -> nat) * (nat * nat * nat) :=
  match js with
  | [] => (newj2len, best)
  | j :: js' =>
      if j <? blo then inner blo bhi i j2len js' newj2len best
      else if bhi <=? j then (newj2len, best)
      else
        let k := get_prev j2len j + 1 in
        let newj2len' := fun x => if x =? j then k else newj2len x in
        let '(besti, bestj, bestsize) := best in
        let best' := if bestsize <? k then (i + 1 - k, j + 1 - k, k) else best in
        inner blo bhi i j2len js' newj2len' best'
  end.

(** The outer [for i in range(alo, ahi)] loop. *)
Fixpoint outer (a b : pystr) (blo bhi : nat) (is : list nat) (j2len : nat -> nat)
    (best : nat * nat * nat) : nat * nat * nat :=
  match is with
  | [] => best
  | i :: is' =>
      let '(newj2len, best') :=
        inner blo bhi i j2len (b2j_get b (nth i a 0%Z)) (fun _ => 0) best in
      outer a b blo bhi is' newj2len best'
  end.

(** [while besti > alo and bestj > blo and not isbjunk(b[bestj-1]) and
    a[besti-1] == b[bestj-1]]; [fuel] bounds the iterations. *)
Fixpoint extend_back (a b : pystr) (alo blo fuel i j k : nat) : nat * nat * nat :=
  match fuel with
  | 0 => (i, j, k)
  | S f =>
      if (alo <? i) && (blo <? j) && Z.eqb (nth (i - 1) a 0%Z) (nth (j - 1) b 0%Z)
      then extend_back a b alo blo f (i - 1) (j - 1) (S k)
      else (i, j, k)
  end.

(** [while besti+bestsize < ahi and bestj+bestsize < bhi and not
    isbjunk(b[bestj+bestsize]) and a[besti+bestsize] == b[bestj+bestsize]] *)
Fixpoint extend_fwd (a b : pystr) (ahi bhi fuel i j k : nat) : nat * nat * nat :=
  match fuel with
  | 0 => (i, j, k)
  | S f =>
      if (i + k <? ahi) && (j + k <? bhi) && Z.eqb (nth (i + k) a 0%Z) (nth (j + k) b 0%Z)
      then extend_fwd a b ahi bhi f i j (S k)
      else (i, j, k)
  end.

(** [find_longest_match(alo, ahi, blo, bhi)].  The two loops that then
    absorb matching junk elements never run: [bjunk] is empty. *)
Definition find_longest_match (a b : pystr) (alo ahi blo bhi : nat) : nat * nat * nat :=
  let '(besti, bestj, bestsize) :=
    outer a b blo bhi (seq alo (ahi - alo)) (fun _ => 0) (alo, blo, 0) in
  let '(besti, bestj, bestsize) := extend_back a b alo blo besti besti bestj bestsize in
  extend_fwd a b ahi bhi ahi besti bestj bestsize.

(** The [while queue:] loop of [get_matching_blocks]; [fuel] bounds the
    iterations (each popped range that matches shrinks the ranges). *)
Fixpoint blocks_loop (a b : pystr) (fuel : nat) (queue : list (nat * nat * nat * nat))
    (acc : list (nat * nat * nat)) : list (nat * nat * nat) :=
  match fuel with
  | 0 => acc
  | S f =>
      match queue with
      | [] => acc
      | (alo, ahi, blo, bhi) :: q =>
          let '(i, j, k) := find_longest_match a b alo ahi blo bhi in
          if k =? 0 then blocks_loop a b f q acc
          else
            let q1 := if (alo <? i) && (blo <? j) then (alo, i, blo, j) :: q else q in
            let q2 := if (i + k <? ahi) && (j + k <? bhi) then (i + k, ahi, j + k, bhi) :: q1 else q1 in
            blocks_loop a b f q2 (acc ++ [(i, j, k)])
      end
  end.

Definition triple_leb (x y : nat * nat * nat) : bool :=
  let '(i1, j1, k1) := x in let '(i2, j2, k2) := y in
  (i1 <? i2) || ((i1 =? i2) && ((j1 <? j2) || ((j1 =? j2) && (k1 <=? k2)))).

Fixpoint insert_triple (x : nat * nat * nat) (l : list (nat * nat * nat)) :=
  match l with
  | [] => [x]
  | y :: l' => if triple_leb x y then x :: l else y :: insert_triple x l'
  end.

(** [matching_blocks.sort()] *)
Definition sort_triples (l : list (nat * nat * nat)) := fold_right insert_triple [] l.

(** The loop collapsing adjacent blocks; [cur] is [(i1, j1, k1)]. *)
Fixpoint collapse (cur : nat * nat * nat) (l : list (nat * nat * nat)) : list (nat * nat * nat) :=
  let '(i1, j1, k1) := cur in
  match l with
  | [] => if k1 =? 0 then [] else [cur]
  | (i2, j2, k2) :: l' =>
      if (i1 + k1 =? i2) && (j1 + k1 =? j2) then collapse (i1, j1, k1 + k2) l'
      else (if k1 =? 0 then [] else [cur]) ++ collapse (i2, j2, k2) l'
  end.

Definition get_matching_blocks (a b : pystr) : list (nat * nat * nat) :=
  let la := List.length a in let lb := List.length b in
  let mb := blocks_loop a b (2 * (la + lb) + 1) [(0, la, 0, lb)] [] in
  collapse (0, 0, 0) (sort_triples mb) ++ [(la, lb, 0)].

(** [ratio()] = [_calculate_ratio(matches, len(a) + len(b))]. *)
Definition ratio (a b : pystr) : Q :=
  let matches := fold_left (fun acc t => let '(_, _, k) := t in acc + k)
                   (get_matching_blocks a b) 0 in
  let length := List.length a + List.length b in
  if length =? 0 then 1%Q
  else (2 * inject_Z (Z.of_nat matches) / inject_Z (Z.of_nat length))%Q.

End Difflib.

(* ------------------------------------------------------------------ *)
(** ** analyzer.py: [CriticalAnalyzer.novelty_score] *)

Module Analyzer.

Import PyStr Difflib.
Open Scope Q_scope.

Definition py_max (a b : Q) : Q := if Qle_bool b a then a else b.

(** [for past_response in history[-3:]: ... max(max_similarity, similarity)] *)
Definition novelty_score (response : pystr) (history : list pystr) : Q :=
  match history with
  | [] => 1
  | _ =>
      let max_similarity :=
        fold_left (fun m past => py_max m (ratio past response))
          (skipn (List.length history - 3) history) 0 in
      1 - max_similarity
  end.

End Analyzer.

(* ------------------------------------------------------------------ *)
(** ** Runs along the diagonal of [SequenceMatcher(None, a, a)] *)

Module DifflibRuns.

Import PyStr Difflib.
Open Scope nat_scope.

(** Position [x] of [a] holds an element kept in [b2j]. *)
Definition np (a : pystr) (x : nat) : bool := negb (popular a (nth x a 0%Z)).

Fixpoint runb (a : pystr) (n x : nat) : nat :=
  match n with
  | 0 => 0
  | S n' => if np a x then S (runb a n' (x - 1)) else 0
  end.

(** Length of the run of kept elements ending at [x], not reaching below [lo]. *)
Definition R (a : pystr) (lo x : nat) : nat := runb a (x + 1 - lo) x.

End DifflibRuns.

(* ------------------------------------------------------------------ *)
(** ** reward_engine.py

    [RewardEngine] with the parts of scikit-learn it calls:
    [TfidfVectorizer(max_features=1000, stop_words='english')] (default
    [lowercase=True], [token_pattern=r"(?u)\b\w\w+\b"], [smooth_idf=True],
    [norm='l2'], [min_df=1], [max_df=1.0]) and [cosine_similarity].

    Three tables are data of Python and scikit-learn rather than code, and
    are kept abstract in [text_env]: [str.lower], the regular-expression
    class [\w], and scikit-learn's [ENGLISH_STOP_WORDS].  Everything is
    proved for every such environment; [latin1_env] is their restriction
    to Latin-1 text, used to evaluate concrete inputs. *)

Module RewardEngine.

Import PyStr.
Import Stdlib.Reals.Reals.
Open Scope R_scope.
Open Scope list_scope.

(** Python exceptions raised along the way. *)
Inductive exc := ValueError (msg : string).

Definition math_domain_error : exc := ValueError "math domain error"%string.
Definition empty_vocabulary : exc :=
  ValueError "empty vocabulary; perhaps the documents only contain stop words"%string.

Inductive result (A : Type) : Type :=
| Ok (a : A)
| Err (e : exc).
Arguments Ok {A} a.
Arguments Err {A} e.

Definition bind {A B} (m : result A) (k : A -> result B) : result B :=
  match m with
  | Ok a => k a
  | Err e => Err e
  end.

Notation "x <- m ;; k" := (bind m (fun x => k))
  (at level 61, m at next level, right associativity).

Fixpoint mapM {A B} (f : A -> result B) (l : list A) : result (list B) :=
  match l with
  | [] => Ok []
  | x :: l' => y <- f x ;; ys <- mapM f l' ;; Ok (y :: ys)
  end.

(** Python's [min(a, b)] and [max(a, b)] on floats: the first argument
    is kept unless the second is strictly smaller (larger). *)
Definition py_min (a b : R) : R := if Rlt_dec b a then b else a.
Definition py_max (a b : R) : R := if Rlt_dec a b then b else a.

Fixpoint rsum (l : list R) : R :=
  match l with
  | [] => 0
  | x :: l' => x + rsum l'
  end.

(** [math.log2]: [ValueError('math domain error')] outside the domain. *)
Definition math_log2 (x : R) : result R :=
  if Rle_dec x 0 then Err math_domain_error
  else Ok (ln x / ln 2).

(** *** Strings *)

Fixpoint pystr_eqb (s t : pystr) : bool :=
  match s, t with
  | [], [] => true
  | c :: s', d :: t' => Z.eqb c d && pystr_eqb s' t'
  | _, _ => false
  end.

(** Python's [<] on [str]: lexicographic on code points. *)
Fixpoint pystr_ltb (s t : pystr) : bool :=
  match s, t with
  | _, [] => false
  | [], _ :: _ => true
  | c :: s', d :: t' => Z.ltb c d || (Z.eqb c d && pystr_ltb s' t')
  end.

Definition mem (w : pystr) (l : list pystr) : bool :=
  existsb (pystr_eqb w) l.

Fixpoint is_prefix (p s : pystr) : bool :=
  match p, s with
  | [], _ => true
  | c :: p', d :: s' => Z.eqb c d && is_prefix p' s'
  | _ :: _, [] => false
  end.

Fixpoint count_from (fuel : nat) (s sub : pystr) : nat :=
  match fuel with
  | O => O
  | S fuel' =>
      match s with
      | [] => O
      | _ :: s' =>
          if is_prefix sub s
          then S (count_from fuel' (skipn (List.length sub) s) sub)
          else count_from fuel' s' sub
      end
  end.

(** [s.count(sub)]: non-overlapping occurrences, [len(s) + 1] for [""]. *)
Definition py_count (s sub : pystr) : nat :=
  match sub with
  | [] => S (List.length s)
  | _ => count_from (List.length s) s sub
  end.

(** Maximal runs of characters satisfying [p], in order. *)
Fixpoint runs_acc (p : Z -> bool) (s cur : pystr) : list pystr :=
  match s with
  | [] => match cur with [] => [] | _ => [rev cur] end
  | c :: s' =>
      if p c then runs_acc p s' (c :: cur)
      else match cur with
           | [] => runs_acc p s' []
           | _ => rev cur :: runs_acc p s' []
           end
  end.

Definition runs (p : Z -> bool) (s : pystr) : list pystr := runs_acc p s [].

(** [str.isspace] (CPython's [Py_UNICODE_ISSPACE]). *)
Definition is_space (c : Z) : bool :=
  ((9 <=? c) && (c <=? 13))%Z || ((28 <=? c) && (c <=? 32))%Z
  || (c =? 133)%Z || (c =? 160)%Z || (c =? 5760)%Z
  || ((8192 <=? c) && (c <=? 8202))%Z
  || (c =? 8232)%Z || (c =? 8233)%Z || (c =? 8239)%Z || (c =? 8287)%Z
  || (c =? 12288)%Z.

(** [s.split()] with no separator. *)
Definition py_split (s : pystr) : list pystr := runs (fun c => negb (is_space c)) s.

(** Characters in first-occurrence order ([set], [Counter] keys). *)
Fixpoint distinct_chars_acc (s seen : pystr) : pystr :=
  match s with
  | [] => rev seen
  | c :: s' =>
      if existsb (Z.eqb c) seen then distinct_chars_acc s' seen
      else distinct_chars_acc s' (c :: seen)
  end.

Definition distinct_chars (s : pystr) : pystr := distinct_chars_acc s [].

Definition char_count (c : Z) (s : pystr) : nat :=
  List.length (filter (Z.eqb c) s).

(** [Counter(s)] as (character, count) pairs in insertion order. *)
Definition counter (s : pystr) : list (Z * nat) :=
  map (fun c => (c, char_count c s)) (distinct_chars s).

(** *** The tables kept abstract *)

Record text_env := mk_text_env {
  py_lower : pystr -> pystr;            (* str.lower *)
  is_word_char : Z -> bool;             (* the class \w of re, Unicode *)
  english_stop_words : list pystr       (* sklearn ENGLISH_STOP_WORDS *)
}.

(** *** TfidfVectorizer and cosine_similarity *)

Section Tfidf.

Variable env : text_env.

(** [build_analyzer()]: lowercase, [re.findall(r"(?u)\b\w\w+\b", doc)],
    then drop stop words.  The matches of [\b\w\w+\b] are the maximal
    runs of word characters of length at least 2. *)
Definition analyze (doc : pystr) : list pystr :=
  filter (fun w => negb (mem w (english_stop_words env)))
    (filter (fun w => Nat.leb 2 (List.length w))
       (runs (is_word_char env) (py_lower env doc))).

Fixpoint first_occurrence_acc (l seen : list pystr) : list pystr :=
  match l with
  | [] => rev seen
  | w :: l' =>
      if mem w seen then first_occurrence_acc l' seen
      else first_occurrence_acc l' (w :: seen)
  end.

Fixpoint insert_term (w : pystr) (l : list pystr) : list pystr :=
  match l with
  | [] => [w]
  | v :: l' => if pystr_ltb v w then v :: insert_term w l' else w :: l
  end.

(** [_sort_features]: the vocabulary in alphabetical order. *)
Definition sort_terms (l : list pystr) : list pystr := fold_right insert_term [] l.

Definition term_count (t : pystr) (toks : list pystr) : nat :=
  List.length (filter (pystr_eqb t) toks).

Definition doc_freq (analyzed : list (list pystr)) (t : pystr) : nat :=
  List.length (filter (fun toks => Nat.ltb 0 (term_count t toks)) analyzed).

Definition total_freq (analyzed : list (list pystr)) (t : pystr) : nat :=
  fold_right Nat.add O (map (term_count t) analyzed).

(** Stable insertion by decreasing total frequency
    ([(-tfs).argsort(kind="mergesort")]). *)
Fixpoint insert_by_freq (analyzed : list (list pystr)) (w : pystr)
    (l : list pystr) : list pystr :=
  match l with
  | [] => [w]
  | v :: l' =>
      if Nat.ltb (total_freq analyzed v) (total_freq analyzed w)
      then w :: l else v :: insert_by_freq analyzed w l'
  end.

Definition max_features : nat := 1000.

(** [_limit_features] with [max_df=1.0], [min_df=1]: every term passes
    the document-frequency bounds; beyond [max_features] terms the most
    frequent are kept, ties going to the alphabetically first. *)
Definition limit_features (analyzed : list (list pystr)) (vocab : list pystr)
    : list pystr :=
  if Nat.ltb max_features (List.length vocab)
  then sort_terms (firstn max_features
         (fold_left (fun acc w => insert_by_freq analyzed w acc) vocab []))
  else vocab.

(** [idf = ln((1 + n) / (1 + df)) + 1] (smooth_idf). *)
Definition idf (analyzed : list (list pystr)) (t : pystr) : R :=
  ln (INR (1 + List.length analyzed) / INR (1 + doc_freq analyzed t)) + 1.

(** [normalize(X, norm='l2')]: rows of norm 0 are left as they are. *)
Definition l2_normalize (v : list R) : list R :=
  let s := rsum (map (fun x => x * x) v) in
  if Req_EM_T s 0 then v else map (fun x => x / sqrt s) v.

Fixpoint dot (u v : list R) : R :=
  match u, v with
  | x :: u', y :: v' => x * y + dot u' v'
  | _, _ => 0
  end.

(** [cosine_similarity] of two rows. *)
Definition cosine (u v : list R) : R := dot (l2_normalize u) (l2_normalize v).

(** [fit_transform(docs)]: one l2-normalised tf-idf row per document. *)
Definition fit_transform (docs : list pystr) : result (list (list R)) :=
  let analyzed := map analyze docs in
  match first_occurrence_acc (List.concat analyzed) [] with
  | [] => Err empty_vocabulary
  | terms =>
      let vocab := limit_features analyzed (sort_terms terms) in
      Ok (map (fun toks =>
                 l2_normalize (map (fun t => INR (term_count t toks) * idf analyzed t) vocab))
              analyzed)
  end.

End Tfidf.

(** *** The engine *)

Record RewardMetrics := mkRewardMetrics {
  novelty_score : R;
  relevance_score : R;
  entropy_score : R;
  coherence_score : R;
  emotional_intensity : R
}.

Record RewardEngine := mkRewardEngine {
  memory_responses : list pystr
}.

(** [RewardEngine()]. *)
Definition new_engine : RewardEngine := mkRewardEngine [].

Definition emotional_words : list (string * list pystr) :=
  [("joy"%string, [of_ascii "joie"; of_ascii "bonheur"; of_ascii "euphorie";
                   of_ascii "ravissement"; of_ascii "extase"]);
   ("pain"%string, [of_ascii "douleur"; of_ascii "souffrance"; of_ascii "angoisse";
                    of_ascii "tourment"; of_ascii "affliction"]);
   ("curiosity"%string, [of_ascii "curiosit" ++ [233%Z]; of_ascii "fascination";
                         of_ascii "intrigue"; of_ascii "myst" ++ [232%Z; 101%Z]]);
   ("frustration"%string, [of_ascii "frustration"; of_ascii "irritation";
                           of_ascii "agacement"; of_ascii "col" ++ [232%Z; 114%Z; 101%Z]]);
   ("wonder"%string, [[233%Z] ++ of_ascii "merveillement"; of_ascii "stup" ++ [233%Z] ++ of_ascii "faction";
                      of_ascii "admiration"])].

(** An artifact dict, its values being strings. *)
Definition artifact := list (string * pystr).

Fixpoint dict_get (d : artifact) (k : string) : option pystr :=
  match d with
  | [] => None
  | (k', v) :: d' => if String.eqb k k' then Some v else dict_get d' k
  end.

(** Truthiness of [artifact] and of [artifact.get(k)]. *)
Definition artifact_truthy (a : option artifact) : bool :=
  match a with Some (_ :: _) => true | _ => false end.

Definition str_truthy (v : option pystr) : bool :=
  match v with Some (_ :: _) => true | _ => false end.

Section Engine.

Variable env : text_env.

Definition _calculate_novelty_strict (self : RewardEngine) (response : pystr) : result R :=
  match memory_responses self with
  | [] => Ok 1
  | memory =>
      vectors <- fit_transform env (response :: memory) ;;
      let similarity_scores := map (cosine (hd [] vectors)) (tl vectors) in
      let max_similarity :=
        match similarity_scores with
        | [] => 0
        | s :: ss => fold_left Rmax ss s
        end in
      Ok (1 - max_similarity)
  end.

Definition _calculate_relevance (self : RewardEngine) (prompt response : pystr) : result R :=
  vectors <- fit_transform env [prompt; response] ;;
  Ok (cosine (nth 0 vectors []) (nth 1 vectors [])).

Definition _calculate_entropy (self : RewardEngine) (response : pystr) : result R :=
  let probabilities :=
    map (fun '(_, count) => INR count / INR (List.length response)) (counter response) in
  terms <- mapM (fun p => l <- math_log2 p ;; Ok (p * l)) probabilities ;;
  let entropy := - rsum terms in
  max_entropy <- math_log2 (INR (List.length (distinct_chars response))) ;;
  Ok (if Rlt_dec 0 max_entropy then entropy / max_entropy else 0).

Definition _detect_emotional_intensity (self : RewardEngine) (response : pystr) : R * string :=
  let emotion_counts :=
    map (fun '(emotion, words) =>
           (emotion, fold_left (fun acc word => (acc + py_count (py_lower env response) word)%nat)
                       words O))
        emotional_words in
  match emotion_counts with
  | [] => (0, "neutre"%string)
  | (k0, c0) :: rest =>
      let dominant_emotion :=
        fst (fold_left (fun best kc => if Nat.ltb (snd best) (snd kc) then kc else best)
               rest (k0, c0)) in
      let total_count := fold_left (fun acc kc => (acc + snd kc)%nat) emotion_counts O in
      let intensity := py_min 1 (INR total_count / 20) in
      (intensity, dominant_emotion)
  end.

Definition bonus_creation (self : RewardEngine) (a : option artifact) : R :=
  match a with
  | Some d =>
      if artifact_truthy a && str_truthy (dict_get d "type") && str_truthy (dict_get d "content")
      then
        let content_length :=
          List.length (match dict_get d "content" with Some c => c | None => [] end) in
        if Nat.ltb 100 content_length then 0.4
        else if Nat.ltb 50 content_length then 0.3
        else if Nat.ltb 20 content_length then 0.2
        else 0.1
      else 0
  | None => 0
  end.

Record reward_result := mkRewardResult {
  final_reward : R;
  emotion_tag : string;
  metrics : RewardMetrics;
  pain_level : R
}.

Definition calculate_reward (self : RewardEngine) (prompt response : pystr)
    (goal_state : string) (a : option artifact) : result (reward_result * RewardEngine) :=
  novelty <- _calculate_novelty_strict self response ;;
  relevance <- _calculate_relevance self prompt response ;;
  entropy <- _calculate_entropy self response ;;
  let '(intensity, tag) := _detect_emotional_intensity self response in
  let words := List.length (py_split response) in
  let coherence := if Nat.ltb 10 words then py_min 1 (INR words / 100) else 0.3 in
  let m := mkRewardMetrics novelty relevance entropy coherence intensity in
  let '(final, emotion) :=
    if Rlt_dec novelty 0.35 then (-1, "douleur accablante"%string)
    else
      let reward := 0.6 * novelty + 0.4 * relevance in
      let reward := if artifact_truthy a then reward + bonus_creation self a else reward in
      let reward :=
        if String.eqb tag "pain" || String.eqb tag "frustration" then reward - 0.2
        else if String.eqb tag "joy" || String.eqb tag "wonder" then reward + 0.1
        else reward in
      (py_max (-1) (py_min 1 (reward * 2 - 1)), tag) in
  let pain := 1 - ((final + 1) / 2) in
  let memory := memory_responses self ++ [response] in
  let memory :=
    if Nat.ltb 50 (List.length memory) then skipn (List.length memory - 25) memory
    else memory in
  Ok (mkRewardResult final emotion m pain, mkRewardEngine memory).

End Engine.

(** *** The Latin-1 part of the tables *)

Definition latin1_lower_char (c : Z) : Z :=
  if ((65 <=? c) && (c <=? 90))%Z
     || ((192 <=? c) && (c <=? 222) && negb (c =? 215))%Z
  then (c + 32)%Z else c.

Definition latin1_is_word_char (c : Z) : bool :=
  ((48 <=? c) && (c <=? 57))%Z || ((65 <=? c) && (c <=? 90))%Z || (c =? 95)%Z
  || ((97 <=? c) && (c <=? 122))%Z || (c =? 170)%Z || (c =? 178)%Z || (c =? 179)%Z
  || (c =? 181)%Z || (c =? 185)%Z || (c =? 186)%Z || ((188 <=? c) && (c <=? 190))%Z
  || ((192 <=? c) && (c <=? 255) && negb (c =? 215) && negb (c =? 247))%Z.

(** None of the words used below is an English stop word, so the empty
    list evaluates them as [ENGLISH_STOP_WORDS] does. *)
Definition latin1_env : text_env :=
  mk_text_env (map latin1_lower_char) latin1_is_word_char [].

End RewardEngine.

(* ------------------------------------------------------------------ *)
(** ** homeostasis.py: the remaining methods of [HomeostaticRegulator]
    and the (de)serialisation of its state *)

Module HomeostasisMore.

Import Homeostasis.
Open Scope Q_scope.
Open Scope string_scope.
Open Scope list_scope.

Definition set_frequency_penalty (s : HomeostaticState) (f : Q) :=
  mkState s.(pain_level) s.(satisfaction_level) s.(creativity_drive)
    s.(exploration_tendency) s.(stability_need) s.(temperature) s.(top_p)
    f s.(presence_penalty).
Definition set_presence_penalty (s : HomeostaticState) (p : Q) :=
  mkState s.(pain_level) s.(satisfaction_level) s.(creativity_drive)
    s.(exploration_tendency) s.(stability_need) s.(temperature) s.(top_p)
    s.(frequency_penalty) p.

(** An entry [{'old': ..., 'new': ..., 'reason': ...}] of the dict
    returned by [_adjust_llm_parameters]. *)
Record param_adjustment := mkParamAdj {
  pa_old : Q; pa_new : Q; pa_reason : string }.

Definition param_adjustments := list (string * param_adjustment).

(** [if abs(new - old) > band: adjustments[key] = {...}; field = new] *)
Definition adjust_field (band : Q) (key : string) (old new : Q) (why : string)
    (adj : param_adjustments) : param_adjustments * Q :=
  if Qlt_bool band (Qabs (new - old))
  then (adj ++ [(key, mkParamAdj old new why)], new)
  else (adj, old).

(** [_adjust_llm_parameters()]: reads and writes [self.state] only. *)
Definition _adjust_llm_parameters (s : HomeostaticState)
    : HomeostaticState * param_adjustments :=
  let new_temperature := (5#10) + s.(creativity_drive) * (4#10) in
  let new_temperature :=
    if Qlt_bool (7#10) s.(pain_level) then py_min 1 (new_temperature + (2#10))
    else if Qlt_bool (8#10) s.(satisfaction_level)
    then py_max (3#10) (new_temperature - (1#10))
    else new_temperature in
  let (adj1, t) := adjust_field (1#20) "temperature" s.(temperature) new_temperature
                     "adaptation créativité/douleur" [] in
  let s1 := set_temperature s t in
  let new_top_p := (7#10) + s1.(exploration_tendency) * (3#10) in
  let (adj2, p) := adjust_field (1#20) "top_p" s1.(top_p) new_top_p
                     "ajustement exploration" adj1 in
  let s2 := set_top_p s1 p in
  let new_freq_penalty := s2.(pain_level) * (5#10) in
  let (adj3, f) := adjust_field (1#10) "frequency_penalty" s2.(frequency_penalty)
                     new_freq_penalty "réduction répétition" adj2 in
  let s3 := set_frequency_penalty s2 f in
  let new_presence_penalty := s3.(exploration_tendency) * (3#10) in
  let (adj4, q) := adjust_field (1#10) "presence_penalty" s3.(presence_penalty)
                     new_presence_penalty "encouragement nouveauté" adj3 in
  (set_presence_penalty s3 q, adj4).

(** [get_current_llm_config()] *)
Definition get_current_llm_config (s : HomeostaticState) : list (string * Q) :=
  [("temperature", s.(temperature)); ("top_p", s.(top_p));
   ("frequency_penalty", s.(frequency_penalty));
   ("presence_penalty", s.(presence_penalty))].

(** The two parts of [get_system_prompt_addition()]; the f-string of
    the second mood keeps the pain value, here unformatted. *)
Inductive mood := IntensePain | DullWorry (pain : Q) | RelativeCalm | PrecariousBalance.
Inductive exploration_note := NoNote | DareExplore | PreferStability.

Definition get_system_prompt_addition (s : HomeostaticState) : mood * exploration_note :=
  let m :=
    if Qlt_bool (8#10) s.(pain_level) then IntensePain
    else if Qlt_bool (6#10) s.(pain_level) then DullWorry s.(pain_level)
    else if Qlt_bool (7#10) s.(satisfaction_level) then RelativeCalm
    else PrecariousBalance in
  let n :=
    if Qlt_bool (8#10) s.(creativity_drive) then DareExplore
    else if Qlt_bool (7#10) s.(stability_need) then PreferStability
    else NoNote in
  (m, n).

Definition qsum (l : list Q) : Q := fold_left Qplus l 0.

(** [sum(l) / len(l) if l else default] *)
Definition average_or (default : Q) (l : list Q) : Q :=
  match l with
  | [] => default
  | _ => qsum l / inject_Z (Z.of_nat (List.length l))
  end.

(** The dict returned by [get_diagnostic()]. *)
Record diagnostic := mkDiagnostic {
  current_state : list (string * Q);
  recent_avg_reward : Q;
  recent_avg_pain : Q;
  total_interactions : nat;
  last_adjustments : list adjustment_entry;
  system_mood : mood * exploration_note;
  llm_config : list (string * Q);
  stability_index : Q }.

Definition get_diagnostic (r : Regulator) : diagnostic :=
  let recent_rewards := map rw_reward (last_n 10 r.(reward_history)) in
  let recent_pains := map pn_pain (last_n 10 r.(pain_history)) in
  mkDiagnostic (LLMWrapper.to_dict r.(state))
    (average_or 0 recent_rewards)
    (average_or (1#2) recent_pains)
    (List.length r.(reward_history))
    (match r.(adjustment_log) with [] => [] | _ => last_n 3 r.(adjustment_log) end)
    (get_system_prompt_addition r.(state))
    (get_current_llm_config r.(state))
    (1 - Qabs (r.(state).(pain_level) - (1#2)) * 2).

(** [force_reset()]; [now] is the time stamp written by [_save_state]. *)
Definition force_reset (now : string) (r : Regulator) : Regulator :=
  save_state now (mkReg default_state [] [] [] r.(state_file)).

(** *** [HomeostaticState.from_dict] and [_load_state] *)

(** The exception that leaves [_load_state]: [from_dict] passes the keys
    of [data] as keyword arguments to [cls], which raises [TypeError] on
    a key that is not a field of the dataclass. *)
Inductive load_error := TypeError_unexpected_keyword (key : string).

Inductive outcome (A : Type) := Done (a : A) | Raised (e : load_error).
Arguments Done {A} a.
Arguments Raised {A} e.

Definition field_names : list string :=
  ["pain_level"; "satisfaction_level"; "creativity_drive"; "exploration_tendency";
   "stability_need"; "temperature"; "top_p"; "frequency_penalty"; "presence_penalty"].

(** A JSON object of numbers as a Python dict (distinct keys, insertion
    order). *)
Definition state_dict := list (string * Q).

(** [HomeostaticState.from_dict(data)]: the first key (in the dict's
    order) that names no field raises; missing fields take their
    defaults. *)
Definition from_dict (data : state_dict) : outcome HomeostaticState :=
  match find (fun kv => negb (existsb (String.eqb (fst kv)) field_names)) data with
  | Some (k, _) => Raised (TypeError_unexpected_keyword k)
  | None =>
      let d := default_state in
      let get k v := LLMWrapper.dict_get data k v in
      Done (mkState (get "pain_level" d.(pain_level))
              (get "satisfaction_level" d.(satisfaction_level))
              (get "creativity_drive" d.(creativity_drive))
              (get "exploration_tendency" d.(exploration_tendency))
              (get "stability_need" d.(stability_need))
              (get "temperature" d.(temperature)) (get "top_p" d.(top_p))
              (get "frequency_penalty" d.(frequency_penalty))
              (get "presence_penalty" d.(presence_penalty)))
  end.

(** The top-level JSON object of the state file: each key may be
    absent. *)
Record json_doc := mkDoc {
  jd_state : option state_dict;
  jd_reward_history : option (list reward_entry);
  jd_pain_history : option (list pain_entry);
  jd_adjustment_log : option (list adjustment_entry);
  jd_last_update : option string }.

(** The state file as [open] and [json.load] see it. *)
Inductive state_file_content :=
| FileMissing                  (* FileNotFoundError *)
| FileNotJson                  (* json.JSONDecodeError *)
| FileJson (d : json_doc).

(** [json.dump(data)] of the dict built by [_save_state]. *)
Definition dump (sv : saved_data) : json_doc :=
  mkDoc (Some (LLMWrapper.to_dict sv.(sv_state))) (Some sv.(sv_reward_history))
    (Some sv.(sv_pain_history)) (Some sv.(sv_adjustment_log)) (Some sv.(sv_last_update)).

(** [data.get(key, [])] *)
Definition get_list {A} (o : option (list A)) : list A :=
  match o with Some l => l | None => [] end.

(** [HomeostaticRegulator(state_file)]: [__init__] then [_load_state()],
    from the content of the file; [now] is the time stamp [_save_state]
    writes when the file cannot be used.  A file that is read is not
    written: the regulator then records no write ([state_file = None]). *)
Definition init_regulator (now : string) (f : state_file_content) : outcome Regulator :=
  match f with
  | FileJson d =>
      match d.(jd_state) with
      | Some sd =>
          match from_dict sd with
          | Done s =>
              Done (mkReg s (get_list d.(jd_reward_history)) (get_list d.(jd_pain_history))
                      (get_list d.(jd_adjustment_log)) None)
          | Raised e => Raised e
          end
      | None => Done (fresh_regulator now)      (* KeyError: 'state' *)
      end
  | FileMissing | FileNotJson => Done (fresh_regulator now)
  end.

End HomeostasisMore.

(* ------------------------------------------------------------------ *)
(** ** llm_wrapper.py: the sampling arguments of [LLMWrapper.generate] *)

Module LLMGenerate.

Import LLMWrapper.
Open Scope Q_scope.
Open Scope string_scope.
Open Scope list_scope.

(** [@dataclass LLMConfig] *)
Record LLMConfig := mkLLMConfig {
  model : string;
  temperature : Q;
  max_tokens : Z;
  top_p : Q }.

Definition default_config : LLMConfig := mkLLMConfig "gpt-4o-mini" (9#10) 1000 (8#10).

(** The sampling arguments [generate] passes to
    [client.chat.completions.create] (the messages apart). *)
Record completion_args := mkArgs {
  arg_model : string;
  arg_temperature : Q;
  arg_max_tokens : Z;
  arg_top_p : Q }.

(** Lines 147-155 and the keyword arguments of lines 164-173 of
    [generate(prompt, emotion, pain_score, memory_summary, inner_state)]. *)
Definition generate_args (config : LLMConfig) (pain_score : Q) (inner_state : option dict)
    : completion_args :=
  let model_to_use :=
    pick_model (match inner_state with
                | Some ((_ :: _) as d) => d
                | _ => [("pain_level", pain_score)]
                end) in
  let temperature := config.(temperature) in
  let top_p := config.(top_p) in
  let '(temperature, top_p) :=
    match inner_state with
    | Some ((_ :: _) as d) => (dict_get d "temperature" temperature, dict_get d "top_p" top_p)
    | _ => (temperature, top_p)
    end in
  mkArgs model_to_use temperature config.(max_tokens) top_p.

End LLMGenerate.

(* ------------------------------------------------------------------ *)
(** ** analyzer.py: the rest of [CriticalAnalyzer]

    The metrics use [str.lower], [str.split], [re.split(r'[.!?]+', ...)],
    [re.findall] with patterns of the form [\b(w1|...|wn)\b], and [in]
    on strings.  [str.lower] and the class [\w] (hence [\b]) are the
    tables of [RewardEngine.text_env]. *)

Module CriticalAnalyzer.

Import PyStr RewardEngine Homeostasis.
Open Scope Q_scope.
Open Scope list_scope.

(** The code points of a UTF-8 encoded literal of the source file. *)
Fixpoint utf8_decode (l : list Z) : list Z :=
  match l with
  | [] => []
  | b :: l' =>
      if (b <? 128)%Z then b :: utf8_decode l'
      else if (b <? 224)%Z then
        match l' with
        | b2 :: l'' => ((b - 192) * 64 + (b2 - 128))%Z :: utf8_decode l''
        | [] => []
        end
      else if (b <? 240)%Z then
        match l' with
        | b2 :: b3 :: l'' =>
            ((b - 224) * 4096 + (b2 - 128) * 64 + (b3 - 128))%Z :: utf8_decode l''
        | _ => []
        end
      else
        match l' with
        | b2 :: b3 :: b4 :: l'' =>
            ((b - 240) * 262144 + (b2 - 128) * 4096 + (b3 - 128) * 64 + (b4 - 128))%Z
              :: utf8_decode l''
        | _ => []
        end
  end.

Definition u8 (s : string) : pystr := utf8_decode (of_ascii s).

(** Python [sub in s] on strings. *)
Fixpoint is_substring (sub s : pystr) : bool :=
  is_prefix sub s ||
  match s with
  | [] => false
  | _ :: s' => is_substring sub s'
  end.

(** [str.strip()] *)
Definition strip (s : pystr) : pystr :=
  let fix drop (l : pystr) := match l with
                              | c :: l' => if is_space c then drop l' else l
                              | [] => []
                              end in
  rev (drop (rev (drop s))).

(** [re.split(r'[.!?]+', s)]: the pieces between the maximal runs of
    [.], [!] and [?], empty pieces included. *)
Definition is_stop (c : Z) : bool := (c =? 46)%Z || (c =? 33)%Z || (c =? 63)%Z.

Fixpoint split_stops_acc (s cur : pystr) (in_run : bool) : list pystr :=
  match s with
  | [] => [rev cur]
  | c :: s' =>
      if is_stop c then
        if in_run then split_stops_acc s' cur true
        else rev cur :: split_stops_acc s' [] true
      else split_stops_acc s' (c :: cur) false
  end.

Definition split_sentences (s : pystr) : list pystr := split_stops_acc s [] false.

(** [' '.join(l)] *)
Definition join (sep : pystr) (l : list pystr) : pystr :=
  match l with
  | [] => []
  | x :: l' => x ++ List.concat (map (fun y => sep ++ y) l')
  end.

(** [set(words)] (and the keys of [Counter(words)]), in first-occurrence
    order. *)
Definition distinct (words : list pystr) : list pystr := first_occurrence_acc words [].

Definition inter_size (a b : list pystr) : nat := List.length (filter (fun w => mem w b) a).
Definition union_size (a b : list pystr) : nat :=
  List.length a + List.length (filter (fun w => negb (mem w a)) b).

Definition Q_of_nat (n : nat) : Q := inject_Z (Z.of_nat n).

Section Text.

Variable env : text_env.

(** [\b] between a character of word class [prev] and the next one. *)
Definition boundary (prev : bool) (next : option Z) : bool :=
  xorb prev (match next with Some c => is_word_char env c | None => false end).

Fixpoint last_char (w : pystr) : option Z :=
  match w with
  | [] => None
  | [c] => Some c
  | _ :: w' => last_char w'
  end.

Definition word_class (c : option Z) : bool :=
  match c with Some c => is_word_char env c | None => false end.

(** The first alternative [w] of [\b(w1|...|wn)\b] matching at the head
    of [s], [prev] telling whether the character before is a word
    character. *)
Definition match_at (alts : list pystr) (prev : bool) (s : pystr) : option pystr :=
  if boundary prev (hd_error s) then
    find (fun w => is_prefix w s
                   && boundary (word_class (last_char w)) (hd_error (skipn (List.length w) s)))
      alts
  else None.

(** [len(re.findall(r'\b(w1|...|wn)\b', s))] for non-empty [wi]: the scan
    resumes after each match. *)
Fixpoint count_matches_fuel (fuel : nat) (alts : list pystr) (prev : bool) (s : pystr) : nat :=
  match fuel with
  | O => O
  | S fuel' =>
      match s with
      | [] => O
      | c :: s' =>
          match match_at alts prev s with
          | Some w => S (count_matches_fuel fuel' alts (word_class (last_char w))
                           (skipn (List.length w) s))
          | None => count_matches_fuel fuel' alts (is_word_char env c) s'
          end
      end
  end.

Definition findall_count (alts : list pystr) (s : pystr) : nat :=
  count_matches_fuel (List.length s) alts false s.

(** [s.lower().split()] *)
Definition lower_words (s : pystr) : list pystr := py_split (py_lower env s).

(** [len(set(a) & set(b)) / len(set(a) | set(b))] of two word sets. *)
Definition jaccard (a b : list pystr) : Q := Q_of_nat (inter_size a b) / Q_of_nat (union_size a b).

(** *** [_analyze_redundancy] *)

Definition redundancy_patterns : list (list pystr) :=
  [[u8 "en fait"; u8 "en réalité"; u8 "c'est-à-dire"; u8 "autrement dit"];
   [u8 "donc"; u8 "par conséquent"; u8 "ainsi"; u8 "de ce fait"];
   [u8 "cependant"; u8 "néanmoins"; u8 "toutefois"; u8 "pourtant"]].

(** The double loop over the pairs [i < j] of sentences. *)
Fixpoint pair_similarity (sentences : list pystr) (acc : Q) : Q :=
  match sentences with
  | [] => acc
  | s1 :: rest =>
      let acc :=
        fold_left (fun acc s2 =>
                     let s1_words := distinct (lower_words s1) in
                     let s2_words := distinct (lower_words s2) in
                     match s1_words, s2_words with
                     | _ :: _, _ :: _ => acc + jaccard s1_words s2_words
                     | _, _ => acc
                     end) rest acc in
      pair_similarity rest acc
  end.

Definition _analyze_redundancy (response : pystr) : Q :=
  let words := lower_words response in
  if Nat.ltb (List.length words) 10 then 0
  else
    let total_words := Q_of_nat (List.length words) in
    let unique_words := Q_of_nat (List.length (distinct words)) in
    let repetition_score := 1 - unique_words / total_words in
    let pattern_count :=
      fold_left (fun n p => (n + findall_count p (py_lower env response))%nat)
        redundancy_patterns O in
    let pattern_score := py_min 1 (Q_of_nat pattern_count / 10) in
    let sentences := split_sentences response in
    let n := List.length sentences in
    let sentence_similarity :=
      if Nat.ltb 1 n
      then pair_similarity sentences 0 / ((Q_of_nat n * (Q_of_nat n - 1)) / 2)
      else 0 in
    (4#10) * repetition_score + (3#10) * pattern_score + (3#10) * sentence_similarity.

(** *** [_analyze_coherence] *)

(** [[s.strip() for s in re.split(r'[.!?]+', response) if s.strip()]] *)
Definition stripped_sentences (response : pystr) : list pystr :=
  filter (fun s => match s with [] => false | _ => true end)
    (map strip (split_sentences response)).

(** [sum(1 for sentence in sentences for w in words if w in sentence.lower())] *)
Definition occurrences (words sentences : list pystr) : nat :=
  fold_left (fun n s =>
               fold_left (fun n w => if is_substring w (py_lower env s) then S n else n)
                 words n) sentences O.

Definition connectors : list pystr :=
  [u8 "ainsi"; u8 "donc"; u8 "par conséquent"; u8 "cependant"; u8 "néanmoins";
   u8 "en effet"; u8 "de plus"; u8 "en outre"; u8 "finalement"; u8 "en conclusion"].

Definition transition_words : list pystr :=
  [u8 "d'abord"; u8 "ensuite"; u8 "puis"; u8 "enfin"; u8 "premièrement"; u8 "deuxièmement"].

Definition _analyze_coherence (response : pystr) : Q :=
  let sentences := stripped_sentences response in
  if Nat.ltb (List.length sentences) 2 then 7#10
  else
    let n := Q_of_nat (List.length sentences) in
    let connector_score := py_min 1 (Q_of_nat (occurrences connectors sentences) / n) in
    let transition_score := Q_of_nat (occurrences transition_words sentences) / n in
    let all_words := lower_words (join (u8 " ") sentences) in
    let important_words :=
      filter (fun w => Nat.ltb 1 (term_count w all_words) && Nat.ltb 4 (List.length w))
        (distinct all_words) in
    let cohesion_score := py_min 1 (Q_of_nat (List.length important_words) / 10) in
    (4#10) * connector_score + (3#10) * transition_score + (3#10) * cohesion_score.

(** *** [_analyze_complexity] *)

Definition complex_patterns : list (list pystr) :=
  [[u8 "bien que"; u8 "quoique"; u8 "malgré que"];
   [u8 "afin que"; u8 "pour que"; u8 "de sorte que"];
   [u8 "si bien que"; u8 "de telle sorte que"]].

Definition _analyze_complexity (response : pystr) : Q :=
  let words := py_split response in
  match words with
  | [] => 0
  | _ =>
      let n := Q_of_nat (List.length words) in
      let avg_word_length :=
        Q_of_nat (fold_left (fun acc w => (acc + List.length w)%nat) words O) / n in
      let word_complexity := py_min 1 (avg_word_length / 8) in
      let sentences := stripped_sentences response in
      let sentence_complexity :=
        match sentences with
        | [] => 0
        | _ =>
            let avg_sentence_length :=
              Q_of_nat (fold_left (fun acc s => (acc + List.length (py_split s))%nat)
                          sentences O) / Q_of_nat (List.length sentences) in
            py_min 1 (avg_sentence_length / 20)
        end in
      let lexical_diversity := Q_of_nat (List.length (distinct words)) / n in
      let syntax_complexity :=
        Q_of_nat (fold_left (fun acc p => (acc + findall_count p (py_lower env response))%nat)
                    complex_patterns O) / n in
      (3#10) * word_complexity + (3#10) * sentence_complexity +
      (2#10) * lexical_diversity + (2#10) * syntax_complexity
  end.

(** *** [_analyze_emotional_depth] *)

Definition depth_high : list pystr :=
  [u8 "profond"; u8 "intime"; u8 "essentiel"; u8 "fondamental"; u8 "transcendant";
   u8 "existentiel"; u8 "viscéral"; u8 "authentique"].
Definition depth_medium : list pystr :=
  [u8 "important"; u8 "significatif"; u8 "remarquable"; u8 "personnel";
   u8 "touchant"; u8 "émouvant"].
Definition depth_low : list pystr :=
  [u8 "intéressant"; u8 "sympa"; u8 "cool"; u8 "bien"; u8 "ok"].

Definition existential_patterns : list (list pystr) :=
  [[u8 "pourquoi"]; [u8 "qu'est-ce que"]; [u8 "que signifie"]; [u8 "sens de"];
   [u8 "nature de"]; [u8 "essence de"]].

(** [sum(1 for word in words if word in s)] *)
Definition present_count (words : list pystr) (s : pystr) : nat :=
  List.length (filter (fun w => is_substring w s) words).

Definition _analyze_emotional_depth (response : pystr) : Q :=
  let response_lower := py_lower env response in
  let depth_score := 0 + Q_of_nat (present_count depth_high response_lower) * (8#10) in
  let depth_score := depth_score + Q_of_nat (present_count depth_medium response_lower) * (5#10) in
  let depth_score := depth_score - Q_of_nat (present_count depth_low response_lower) * (2#10) in
  let introspection_count :=
    findall_count [u8 "je"; u8 "mon"; u8 "ma"; u8 "mes"] response_lower in
  let introspection_score := py_min (3#10) (Q_of_nat introspection_count / 20) in
  let existential_count :=
    fold_left (fun acc p => (acc + findall_count p response_lower)%nat)
      existential_patterns O in
  let existential_score := py_min (3#10) (Q_of_nat existential_count / 5) in
  let total_score := depth_score + introspection_score + existential_score in
  py_min 1 (py_max 0 total_score).

(** *** [_detect_creative_triggers] *)

Definition creative_triggers : list pystr :=
  [u8 "invente"; u8 "crée"; u8 "create"; u8 "génère"; u8 "generate"; u8 "build";
   u8 "imagine"; u8 "fabrique"; u8 "conçois"; u8 "développe"; u8 "produire";
   u8 "composer"; u8 "concevoir"; u8 "innover"; u8 "élaborer"; u8 "forger";
   u8 "dessiner"; u8 "modéliser"].

Definition _detect_creative_triggers (prompt : pystr) (pain_level : Q) : bool :=
  let prompt_lower := py_lower env prompt in
  let keyword_trigger := existsb (fun t => is_substring t prompt_lower) creative_triggers in
  let pain_trigger := Qlt_bool (55#100) pain_level in
  keyword_trigger || pain_trigger.

End Text.

(** *** [AnalysisResult], feedback and temperature *)

Record AnalysisResult := mkAnalysisResult {
  redundancy_score : Q;
  coherence_score : Q;
  surprise_factor : Q;
  novelty_score : Q;
  complexity_score : Q;
  emotional_depth : Q;
  feedback : pystr;
  suggested_temperature : Q;
  trigger_creative : bool }.

Definition _generate_feedback (result : AnalysisResult) : pystr :=
  let parts :=
    (if Qlt_bool (7#10) result.(redundancy_score)
     then [u8 "⚠️ Réponse très redondante - simplifier et condenser"]
     else if Qlt_bool (5#10) result.(redundancy_score)
     then [u8 "📝 Quelques répétitions - affiner la formulation"] else []) ++
    (if Qlt_bool result.(coherence_score) (4#10)
     then [u8 "🔗 Manque de cohérence - renforcer les liens logiques"]
     else if Qlt_bool (8#10) result.(coherence_score)
     then [u8 "✅ Excellente structure logique"] else []) ++
    (if Qlt_bool result.(surprise_factor) (3#10)
     then [u8 "🔄 Réponse prévisible - explorer de nouvelles perspectives"]
     else if Qlt_bool (7#10) result.(surprise_factor)
     then [u8 "✨ Approche originale et surprenante"] else []) ++
    (if Qlt_bool result.(emotional_depth) (3#10)
     then [u8 "💭 Manque de profondeur émotionnelle - creuser l'aspect humain"]
     else if Qlt_bool (7#10) result.(emotional_depth)
     then [u8 "❤️ Belle profondeur émotionnelle"] else []) ++
    (if Qlt_bool result.(complexity_score) (3#10)
     then [u8 "📚 Réponse trop simple - enrichir le vocabulaire"]
     else if Qlt_bool (8#10) result.(complexity_score)
     then [u8 "🎓 Excellent niveau de sophistication"] else []) in
  let parts := match parts with
               | [] => [u8 "🎯 Réponse équilibrée dans l'ensemble"]
               | _ => parts
               end in
  join (u8 " | ") parts.

Definition _suggest_temperature (result : AnalysisResult) : Q :=
  let current_temp := 7#10 in
  let current_temp :=
    if Qlt_bool (6#10) result.(redundancy_score) then current_temp + (1#10) else current_temp in
  let current_temp :=
    if Qlt_bool result.(surprise_factor) (4#10) then current_temp + (15#100) else current_temp in
  let current_temp :=
    if Qlt_bool result.(coherence_score) (4#10) then current_temp - (1#10) else current_temp in
  let current_temp :=
    if Qlt_bool result.(complexity_score) (3#10) then current_temp + (5#100) else current_temp in
  py_max (1#10) (py_min 1 current_temp).

(** *** The analyzer object *)

Record Critic := mkCritic {
  response_history : list pystr;
  analysis_history : list AnalysisResult }.

Definition new_critic : Critic := mkCritic [] [].

(** The [context] dict: its two keys the code reads, each possibly absent. *)
Record analysis_context := mkContext {
  ctx_recent_responses : option (list pystr);
  ctx_pain_level : option Q }.

Section Analyze.

Variable env : text_env.

Definition _calculate_surprise_factor (self : Critic) (response : pystr) : Q :=
  match self.(response_history) with
  | [] => 1
  | history =>
      let current_words := distinct (lower_words env response) in
      let similarity_scores :=
        fold_left (fun scores past_response =>
                     let past_words := distinct (lower_words env past_response) in
                     match current_words, past_words with
                     | _ :: _, _ :: _ =>
                         let union := union_size current_words past_words in
                         let similarity :=
                           if Nat.ltb 0 union
                           then Q_of_nat (inter_size current_words past_words) / Q_of_nat union
                           else 0 in
                         scores ++ [similarity]
                     | _, _ => scores
                     end)
          (last_n 5 history) [] in
      match similarity_scores with
      | [] => 1
      | _ => 1 - fold_left Qplus similarity_scores 0 / Q_of_nat (List.length similarity_scores)
      end
  end.

Definition analyze_response (self : Critic) (prompt response : pystr)
    (context : option analysis_context) : AnalysisResult * Critic :=
  let recent_responses :=
    match context with
    | Some c => match c.(ctx_recent_responses) with Some l => l | None => [] end
    | None => []
    end in
  let redundancy := _analyze_redundancy env response in
  let coherence := _analyze_coherence env response in
  let surprise := _calculate_surprise_factor self response in
  let novelty := Analyzer.novelty_score response
                   (match recent_responses with [] => self.(response_history) | _ => recent_responses end) in
  let complexity := _analyze_complexity env response in
  let emotional_depth := _analyze_emotional_depth env response in
  let pain_threshold :=
    match context with
    | Some c => match c.(ctx_pain_level) with Some p => p | None => 5#10 end
    | None => 5#10
    end in
  let trigger_creative := _detect_creative_triggers env prompt pain_threshold in
  let result := mkAnalysisResult redundancy coherence surprise novelty complexity
                  emotional_depth [] (7#10) trigger_creative in
  let result := mkAnalysisResult redundancy coherence surprise novelty complexity
                  emotional_depth (_generate_feedback result) (7#10) trigger_creative in
  let result := mkAnalysisResult redundancy coherence surprise novelty complexity
                  emotional_depth result.(feedback) (_suggest_temperature result) trigger_creative in
  let rh := self.(response_history) ++ [response] in
  let ah := self.(analysis_history) ++ [result] in
  let '(rh, ah) :=
    if Nat.ltb 100 (List.length rh)
    then (last_n 50 rh, last_n 50 ah)
    else (rh, ah) in
  (result, mkCritic rh ah).

End Analyze.

(** The dict returned by [get_analysis_trends()] when it is not empty. *)
Record trends := mkTrends {
  avg_redundancy : Q;
  avg_coherence : Q;
  avg_surprise : Q;
  avg_complexity : Q;
  avg_emotional_depth : Q;
  trend_count : nat }.

Definition get_analysis_trends (self : Critic) : option trends :=
  match self.(analysis_history) with
  | [] => None
  | _ =>
      let recent_analyses := last_n 10 self.(analysis_history) in
      let n := Q_of_nat (List.length recent_analyses) in
      let avg f := fold_left Qplus (map f recent_analyses) 0 / n in
      Some (mkTrends (avg redundancy_score) (avg coherence_score) (avg surprise_factor)
              (avg complexity_score) (avg emotional_depth) (List.length recent_analyses))
  end.

End CriticalAnalyzer.

(* ================================================================== *)
(** * Properties of the homeostatic regulator *)

Module HomeostasisFacts.

Import Homeostasis.
Open Scope Q_scope.

Lemma Qlt_bool_true (a b : Q) : Qlt_bool a b = true -> a < b.
Proof.
  unfold Qlt_bool. intro H. apply negb_true_iff in H.
  apply Qnot_le_lt. intro H'. apply Qle_bool_iff in H'. congruence.
Qed.

Lemma Qlt_bool_false (a b : Q) : Qlt_bool a b = false -> b <= a.
Proof.
  unfold Qlt_bool. intro H. apply negb_false_iff in H. now apply Qle_bool_iff.
Qed.

Ltac qcases :=
  repeat match goal with
  | |- context [Qlt_bool ?a ?b] =>
      let E := fresh "E" in
      destruct (Qlt_bool a b) eqn:E;
      [apply Qlt_bool_true in E | apply Qlt_bool_false in E]; cbn
  end.

Ltac unfold_update :=
  unfold update_from_interaction, regulate, deadband, py_min, py_max,
    set_temperature, set_top_p, set_creativity, save_state,
    pain_threshold_high, pain_threshold_low; cbn.


Lemma deadband_cases key old new why adj :
  deadband key old new why adj = (adj ++ [(key, mkAdj old new why)], new) \/
  deadband key old new why adj = (adj, old).
Proof. unfold deadband. destruct (Qlt_bool _ _); auto. Qed.

(** What the threshold block does to each field. *)
Lemma regulate_spec (s : HomeostaticState) :
  let s' := fst (regulate s) in
  s'.(pain_level) = s.(pain_level) /\
  s'.(satisfaction_level) = s.(satisfaction_level) /\
  s'.(exploration_tendency) = s.(exploration_tendency) /\
  s'.(stability_need) = s.(stability_need) /\
  s'.(frequency_penalty) = s.(frequency_penalty) /\
  s'.(presence_penalty) = s.(presence_penalty) /\
  ( (6#10 < s.(pain_level) /\
     (s'.(temperature) = s.(temperature) \/
      s'.(temperature) = py_min (s.(temperature) + (2#10)) (13#10)) /\
     (s'.(top_p) = s.(top_p) \/ s'.(top_p) = py_min (s.(top_p) + (2#10)) 1) /\
     s'.(creativity_drive) = py_min 1 (s.(creativity_drive) + (2#10)))
  \/ (s.(pain_level) <= 6#10 /\ s.(pain_level) < 3#10 /\
     (s'.(temperature) = s.(temperature) \/
      s'.(temperature) = py_max (s.(temperature) - (1#10)) (7#10)) /\
     (s'.(top_p) = s.(top_p) \/ s'.(top_p) = py_max (s.(top_p) - (1#10)) (7#10)) /\
     s'.(creativity_drive) = s.(creativity_drive))
  \/ (s.(pain_level) <= 6#10 /\ 3#10 <= s.(pain_level) /\
     s'.(temperature) = s.(temperature) /\ s'.(top_p) = s.(top_p) /\
     s'.(creativity_drive) = s.(creativity_drive)) ).
Proof.
  destruct s as [p sa c e st t tp fp pp]. cbv zeta. unfold regulate, pain_threshold_high, pain_threshold_low. cbn.
  destruct (Qlt_bool (6#10) p) eqn:E1; [apply Qlt_bool_true in E1 | apply Qlt_bool_false in E1].
  - destruct (deadband_cases "temperature" t (py_min (t + (2#10)) (13#10)) (HighPain p) [])
      as [D1|D1]; rewrite D1; cbn;
    match goal with
    | |- context [deadband "top_p" ?o ?n ?w ?a] =>
        destruct (deadband_cases "top_p" o n w a) as [D2|D2]; rewrite D2; cbn
    end; repeat split; auto 6.
  - destruct (Qlt_bool p (3#10)) eqn:E2; [apply Qlt_bool_true in E2 | apply Qlt_bool_false in E2].
    + destruct (deadband_cases "temperature" t (py_max (t - (1#10)) (7#10)) (LowPain p) [])
        as [D1|D1]; rewrite D1; cbn;
      match goal with
      | |- context [deadband "top_p" ?o ?n ?w ?a] =>
          destruct (deadband_cases "top_p" o n w a) as [D2|D2]; rewrite D2; cbn
      end; repeat split; auto 8.
    + repeat split; auto 8.
Qed.

Lemma py_min_cases a b : (py_min a b = a /\ a <= b) \/ (py_min a b = b /\ b < a).
Proof.
  unfold py_min. destruct (Qlt_bool b a) eqn:E;
    [apply Qlt_bool_true in E | apply Qlt_bool_false in E]; auto.
Qed.

Lemma py_max_cases a b : (py_max a b = a /\ b <= a) \/ (py_max a b = b /\ a < b).
Proof.
  unfold py_max. destruct (Qlt_bool a b) eqn:E;
    [apply Qlt_bool_true in E | apply Qlt_bool_false in E]; auto.
Qed.

(** The state after one call, in terms of [regulate]. *)
Lemma update_state now r reward emotion ps nov coh :
  (fst (update_from_interaction now r reward emotion ps nov coh)).(state) =
  fst (regulate (mkState (r.(state).(pain_level) * (6#10) + ps * (4#10))
         (py_max 0 (py_min 1 (r.(state).(satisfaction_level) + reward * (4#10))))
         r.(state).(creativity_drive) r.(state).(exploration_tendency)
         r.(state).(stability_need) r.(state).(temperature) r.(state).(top_p)
         r.(state).(frequency_penalty) r.(state).(presence_penalty))).
Proof.
  unfold update_from_interaction. cbn.
  destruct (regulate _) as [s adj]. reflexivity.
Qed.

Ltac minmax :=
  repeat match goal with
  | H : context [py_min ?a ?b] |- _ =>
      destruct (py_min_cases a b) as [[?M ?]|[?M ?]]; rewrite M in *; clear M
  | H : context [py_max ?a ?b] |- _ =>
      destruct (py_max_cases a b) as [[?M ?]|[?M ?]]; rewrite M in *; clear M
  | |- context [py_min ?a ?b] =>
      destruct (py_min_cases a b) as [[?M ?]|[?M ?]]; rewrite M in *; clear M
  | |- context [py_max ?a ?b] =>
      destruct (py_max_cases a b) as [[?M ?]|[?M ?]]; rewrite M in *; clear M
  end.


Lemma step_high now r reward emotion nov coh :
  0 <= r.(state).(pain_level) <= 1 -> r.(state).(temperature) <= 13#10 ->
  let s' := (fst (update_from_interaction now r reward emotion (9#10) nov coh)).(state) in
  (0 <= s'.(pain_level) <= 1) /\ r.(state).(temperature) <= s'.(temperature) <= 13#10.
Proof.
  intros Hp Ht. cbv zeta. rewrite update_state.
  match goal with |- context [regulate ?s] =>
    pose proof (regulate_spec s) as R; cbv zeta in R; destruct (fst (regulate s)) end.
  cbn in *. destruct R as (-> & _ & _ & _ & _ & _ & Rcase).
  destruct Rcase as [(H & [->| ->] & _ & _) | [(H & H' & _) | (H & H' & -> & _)]];
    minmax; repeat split; lra.
Qed.

Lemma step_low now r reward emotion nov coh :
  r.(state).(pain_level) <= 14#15 -> 7#10 <= r.(state).(temperature) ->
  let s' := (fst (update_from_interaction now r reward emotion (1#10) nov coh)).(state) in
  s'.(pain_level) <= 6#10 /\ 7#10 <= s'.(temperature) <= r.(state).(temperature).
Proof.
  intros Hp Ht. cbv zeta. rewrite update_state.
  match goal with |- context [regulate ?s] =>
    pose proof (regulate_spec s) as R; cbv zeta in R; destruct (fst (regulate s)) end.
  cbn in *. destruct R as (-> & _ & _ & _ & _ & _ & Rcase).
  destruct Rcase as [(H & _) | [(H & H' & [->| ->] & _) | (H & H' & -> & _)]];
    minmax; repeat split; lra.
Qed.

Lemma run_high r cs :
  0 <= r.(state).(pain_level) <= 1 -> r.(state).(temperature) <= 13#10 ->
  Sorted Qle (temperatures (9#10) r cs) /\
  Forall (fun t => t <= 13#10) (temperatures (9#10) r cs).
Proof.
  unfold temperatures. revert r. induction cs as [|c cs IH]; intros r Hp Ht; cbn.
  - split; repeat constructor; assumption.
  - destruct (step_high (c_now c) r (c_reward c) (c_emotion c) (c_novelty c) (c_coherence c) Hp Ht)
      as [Hp' Ht']. cbv zeta in Hp', Ht'.
    destruct (IH _ Hp' (proj2 Ht')) as [S F]. cbn in S, F.
    split; constructor; auto; constructor; tauto.
Qed.

Lemma run_low r cs :
  r.(state).(pain_level) <= 14#15 -> 7#10 <= r.(state).(temperature) ->
  Sorted (fun a b => b <= a) (temperatures (1#10) r cs) /\
  Forall (fun t => 7#10 <= t) (temperatures (1#10) r cs).
Proof.
  unfold temperatures. revert r. induction cs as [|c cs IH]; intros r Hp Ht; cbn.
  - split; repeat constructor; assumption.
  - destruct (step_low (c_now c) r (c_reward c) (c_emotion c) (c_novelty c) (c_coherence c) Hp Ht)
      as [Hp' Ht']. cbv zeta in Hp', Ht'.
    assert (Hp'' : pain_level (state (fst (update_from_interaction (c_now c) r (c_reward c)
               (c_emotion c) (1#10) (c_novelty c) (c_coherence c)))) <= 14#15) by lra.
    destruct (IH _ Hp'' (proj1 Ht')) as [S F]. cbn in S, F.
    split; constructor; auto; constructor; tauto.
Qed.

End HomeostasisFacts.


Module HomeostasisClaims.

Import Homeostasis HomeostasisFacts.
Open Scope Q_scope.
Open Scope list_scope.

(** C3 (counterexample): the temperature clause fails.  From a stored pain
    of 1.0 and temperature 0.9, one call with [pain_score = 0.1] smooths the
    pain to 0.64 > 0.6, so the high-pain branch raises the temperature to
    1.1: the run is not non-increasing. *)
Lemma temperature_clause_fails : ~ temperature_clause.
Proof.
  intros [_ Hlow].
  destruct (Hlow pained_regulator [quiet_call]) as [S _].
  { vm_compute. split; discriminate. }
  vm_compute in S. inversion S as [|a l S' H]; subst.
  inversion H as [|b l' Hb]; subst. vm_compute in Hb. apply Hb. reflexivity.
Qed.

(** C3 (amended): from a state with pain in [0,1] and temperature in
    [0.1,1.3], a run of [pain_score = 0.9] calls has non-decreasing
    temperatures all at most 1.3; from a state with pain at most 14/15 and
    temperature in [0.7,1.3], a run of [pain_score = 0.1] calls has
    non-increasing temperatures all at least 0.7 (the first call smooths
    the pain to [0.6 p + 0.04 <= 0.6], so the high-pain branch is never
    taken). *)
Theorem temperature_under_constant_pain (r1 r2 : Regulator) (cs1 cs2 : list call)
  (Hp1 : 0 <= r1.(state).(pain_level) <= 1)
  (Ht1 : (1#10) <= r1.(state).(temperature) <= (13#10))
  (Hp2 : r2.(state).(pain_level) <= 14#15)
  (Ht2 : (7#10) <= r2.(state).(temperature) <= (13#10)) :
  (Sorted Qle (temperatures (9#10) r1 cs1) /\
   Forall (fun t => t <= 13#10) (temperatures (9#10) r1 cs1)) /\
  (Sorted (fun a b => b <= a) (temperatures (1#10) r2 cs2) /\
   Forall (fun t => 7#10 <= t) (temperatures (1#10) r2 cs2)).
Proof.
  split; [apply run_high | apply run_low]; tauto.
Qed.

Lemma temperature_under_constant_pain_witness :
  let r2 := mkReg (mkState (9#10) (5#10) (7#10) (6#10) (4#10) (9#10) (8#10) 0 0) [] [] [] None in
  (0 <= (fresh_regulator "t0").(state).(pain_level) <= 1) /\
  (r2.(state).(pain_level) <= 14#15 /\ 6#10 < r2.(state).(pain_level)) /\
  (Sorted Qle (temperatures (9#10) (fresh_regulator "t0") [quiet_call; quiet_call]) /\
   Forall (fun t => t <= 13#10) (temperatures (9#10) (fresh_regulator "t0") [quiet_call; quiet_call])) /\
  (Sorted (fun a b => b <= a) (temperatures (1#10) r2 [quiet_call; quiet_call; quiet_call]) /\
   Forall (fun t => 7#10 <= t) (temperatures (1#10) r2 [quiet_call; quiet_call; quiet_call])).
Proof.
  intros r2.
  split; [vm_compute; split; discriminate|].
  split; [vm_compute; split; [discriminate|reflexivity]|].
  apply (temperature_under_constant_pain (fresh_regulator "t0") r2
           [quiet_call; quiet_call] [quiet_call; quiet_call; quiet_call]);
    vm_compute; try split; discriminate.
Defined.

(** C4: if the reward lies in [-1,1], the pain, novelty and coherence
    scores in [0,1], the five drive fields in [0,1] and the sampling
    parameters in range (temperature in [0.1,1.3], top_p in [0,1],
    penalties non-negative) before [update_from_interaction], all of them
    are again in those ranges after it. *)
Theorem update_keeps_ranges now r reward emotion ps nov coh
  (Hr : -1 <= reward <= 1) (Hp : 0 <= ps <= 1)
  (Hn : 0 <= nov <= 1) (Hc : 0 <= coh <= 1)
  (Hd : drives_in_range r.(state)) (Hs : sampling_in_range r.(state)) :
  drives_in_range (fst (update_from_interaction now r reward emotion ps nov coh)).(state) /\
  sampling_in_range (fst (update_from_interaction now r reward emotion ps nov coh)).(state).
Proof.
  destruct Hd as (Hp1 & Hs1 & Hc1 & He1 & Hst1).
  destruct Hs as (Ht1 & Htp1 & Hfp & Hpp).
  rewrite update_state.
  match goal with |- context [regulate ?s] =>
    pose proof (regulate_spec s) as R; cbv zeta in R; destruct (fst (regulate s)) end.
  unfold drives_in_range, sampling_in_range; cbn in *.
  destruct R as (-> & -> & -> & -> & -> & -> & Rcase).
  destruct Rcase as [(H & [->| ->] & [->| ->] & ->)
                    | [(H & H' & [->| ->] & [->| ->] & ->) | (H & H' & -> & -> & ->)]];
  minmax; repeat split; lra.
Qed.

Lemma update_keeps_ranges_witness :
  drives_in_range (fst (update_from_interaction (fun _ => "t1") (fresh_regulator "t0")
                          (-8#10) "pain" (9#10) (3#10) (4#10))).(state) /\
  sampling_in_range (fst (update_from_interaction (fun _ => "t1") (fresh_regulator "t0")
                          (-8#10) "pain" (9#10) (3#10) (4#10))).(state).
Proof.
  apply update_keeps_ranges; vm_compute; repeat split; discriminate.
Defined.

(** C10: every call of [update_from_interaction] appends exactly one
    record to each of [reward_history], [pain_history] and
    [adjustment_log]; the appended adjustment record carries the returned
    [adjustments] dict, also when that dict is empty. *)
Theorem update_appends_one_record now r reward emotion ps nov coh :
  let (r', adj) := update_from_interaction now r reward emotion ps nov coh in
  (exists e, r'.(reward_history) = r.(reward_history) ++ [e] /\ e.(rw_timestamp) = now 0%nat) /\
  (exists e, r'.(pain_history) = r.(pain_history) ++ [e] /\ e.(pn_timestamp) = now 1%nat) /\
  (exists e, r'.(adjustment_log) = r.(adjustment_log) ++ [e] /\
             e.(lg_timestamp) = now 2%nat /\ e.(lg_adjustments) = adj) /\
  List.length r'.(reward_history) = S (List.length r.(reward_history)) /\
  List.length r'.(pain_history) = S (List.length r.(pain_history)) /\
  List.length r'.(adjustment_log) = S (List.length r.(adjustment_log)).
Proof.
  unfold update_from_interaction. cbn.
  destruct (regulate _) as [s adj]. cbn.
  rewrite !length_app; cbn.
  repeat split; try lia; eexists; split; eauto.
Qed.

End HomeostasisClaims.

Module LLMWrapperClaims.

Import Homeostasis HomeostasisFacts LLMWrapper.
Open Scope Q_scope.

(** C9: for every homeostatic state, [pick_model] on its dict returns the
    higher-capability model exactly when the pain level is strictly above
    0.6, and the default model otherwise; the two models differ. *)
Theorem pick_model_rule (s : HomeostaticState) :
  ((pick_model (to_dict s) = ALT_MODEL /\ 6#10 < s.(pain_level)) \/
   (pick_model (to_dict s) = DEFAULT_MODEL /\ s.(pain_level) <= 6#10)) /\
  ALT_MODEL <> DEFAULT_MODEL.
Proof.
  split; [|discriminate].
  unfold pick_model, to_dict. cbn.
  destruct (Qlt_bool (6#10) (pain_level s)) eqn:E;
    [apply Qlt_bool_true in E | apply Qlt_bool_false in E]; auto.
Qed.

End LLMWrapperClaims.

(* ================================================================== *)
(** * A sequence matched against itself *)

Module DifflibFacts.

Import PyStr Difflib.
Open Scope nat_scope.

Lemma inner_cons blo bhi i j2len j js newj2len best :
  inner blo bhi i j2len (j :: js) newj2len best =
  if j <? blo then inner blo bhi i j2len js newj2len best
  else if bhi <=? j then (newj2len, best)
  else
    let k := get_prev j2len j + 1 in
    let newj2len' := fun x => if x =? j then k else newj2len x in
    let '(besti, bestj, bestsize) := best in
    let best' := if bestsize <? k then (i + 1 - k, j + 1 - k, k) else best in
    inner blo bhi i j2len js newj2len' best'.
Proof. reflexivity. Qed.

Section Self.

Variable a : pystr.
Variables lo hi : nat.
Hypothesis Hlo : lo <= hi.
Hypothesis Hhi : hi <= List.length a.

Local Abbreviation np := (DifflibRuns.np a).
Local Abbreviation runb := (DifflibRuns.runb a).
Local Abbreviation R := (DifflibRuns.R a lo).

Lemma runb_le n x : runb n x <= n.
Proof. revert x; induction n; intros x; cbn; [lia|]. destruct (np x); [specialize (IHn (x-1)); lia | lia]. Qed.

Lemma R_le x : R x <= x + 1 - lo.
Proof. apply runb_le. Qed.

Lemma R_lt x : x < lo -> R x = 0.
Proof. intros H. unfold DifflibRuns.R. replace (x + 1 - lo) with 0 by lia. reflexivity. Qed.

Lemma R_step x : lo <= x ->
  R x = if np x then S (if x =? lo then 0 else R (x - 1)) else 0.
Proof.
  intros H. unfold DifflibRuns.R. replace (x + 1 - lo) with (S (x - lo)) by lia. cbn.
  destruct (np x); [|reflexivity]. f_equal.
  destruct (Nat.eqb_spec x lo); [subst; rewrite Nat.sub_diag; reflexivity|].
  f_equal. lia.
Qed.

Lemma in_b2j j c : In j (b2j_get a c) ->
  j < List.length a /\ nth j a 0%Z = c /\ popular a c = false.
Proof.
  unfold b2j_get. destruct (popular a c) eqn:E; [intros []|].
  rewrite filter_In, in_seq. intros [H1 H2]. apply Z.eqb_eq in H2. repeat split; auto; lia.
Qed.

Lemma b2j_in i : i < List.length a -> np i = true ->
  In i (b2j_get a (nth i a 0%Z)).
Proof.
  unfold DifflibRuns.np, b2j_get. intros Hi Hn. apply negb_true_iff in Hn. rewrite Hn.
  apply filter_In. split; [apply in_seq; lia | apply Z.eqb_refl].
Qed.

Lemma seq_sorted s n : StronglySorted lt (seq s n).
Proof.
  revert s; induction n; intros s; cbn; constructor; auto.
  apply Forall_forall. intros x Hx. apply in_seq in Hx. lia.
Qed.

Lemma filter_sorted (f : nat -> bool) l : StronglySorted lt l -> StronglySorted lt (filter f l).
Proof.
  induction l as [|x l IH]; intros H; cbn; [constructor|].
  inversion H as [|? ? Hs Hf]; subst.
  destruct (f x); auto. constructor; auto.
  apply Forall_forall. intros y Hy. apply filter_In in Hy.
  eapply Forall_forall in Hf; [exact Hf | tauto].
Qed.

Lemma b2j_sorted c : StronglySorted lt (b2j_get a c).
Proof.
  unfold b2j_get. destruct (popular a c); [constructor|].
  apply filter_sorted, seq_sorted.
Qed.

Lemma get_prev_pos (f : nat -> nat) m : 0 < m -> get_prev f m = f (m - 1).
Proof. destruct m; [lia|]. intros _. cbn. f_equal. lia. Qed.

Section Row.

(** Row [i] of the outer loop, and the table [T] left by row [i - 1]. *)
Variable i : nat.
Variable T : nat -> nat.
Hypothesis Hi : lo <= i < hi.
Hypothesis J0 : forall j, T j <= (if i =? lo then 0 else R (i - 1)).
Hypothesis J1 : forall j, T j <= R j.
Hypothesis Jd : lo < i -> R (i - 1) <= T (i - 1).

Lemma get_prev_lo : get_prev T lo = 0.
Proof.
  assert (H : forall m, m = lo -> get_prev T m = 0).
  { intros [|l] Hm; cbn; [reflexivity|].
    specialize (J1 l). rewrite R_lt in J1; lia. }
  now apply H.
Qed.

Lemma k_bounds j : lo <= j -> nth j a 0%Z = nth i a 0%Z -> np i = true ->
  get_prev T j + 1 <= R i /\ get_prev T j + 1 <= R j.
Proof.
  intros Hj Ha Hn.
  assert (Hnj : np j = true) by (unfold DifflibRuns.np in *; rewrite Ha; exact Hn).
  rewrite (R_step i), (R_step j), Hn, Hnj by lia. split.
  - destruct j as [|j']; cbn [get_prev].
    + lia.
    + specialize (J0 j'). destruct (i =? lo); lia.
  - destruct (Nat.eqb_spec j lo) as [->|Hne].
    + rewrite get_prev_lo. lia.
    + destruct j as [|j']; [lia|]. cbn [get_prev]. specialize (J1 j').
      replace (S j' - 1) with j' by lia. lia.
Qed.

Lemma k_diag : np i = true -> get_prev T i + 1 = R i.
Proof.
  intros Hn. rewrite (R_step i), Hn by lia.
  destruct (Nat.eqb_spec i lo) as [E|Hne].
  - rewrite E, get_prev_lo. lia.
  - rewrite get_prev_pos by lia.
    specialize (J0 (i - 1)). specialize (Jd ltac:(lia)).
    destruct (Nat.eqb_spec i lo); [contradiction|]. lia.
Qed.

Lemma inner_diag js N bi bj bk N' bi' bj' bk' :
  StronglySorted lt js ->
  (forall j, In j js -> nth j a 0%Z = nth i a 0%Z /\ np i = true) ->
  (forall j, N j <= R i /\ N j <= R j) ->
  bi = bj -> lo <= bi -> bi + bk <= hi ->
  (forall x, lo <= x < i -> R x <= bk) ->
  (In i js \/ (R i <= bk /\ N i = R i)) ->
  inner lo hi i T js N (bi, bj, bk) = (N', (bi', bj', bk')) ->
  (forall j, N' j <= R i /\ N' j <= R j) /\
  bi' = bj' /\ lo <= bi' /\ bi' + bk' <= hi /\
  (forall x, lo <= x < i -> R x <= bk') /\ R i <= bk' /\ N' i = R i.
Proof.
  revert N bi bj bk.
  induction js as [|j js IH]; intros N bi bj bk Hs Hm HN Hd1 Hd2 Hd3 H3 H4 Hrun.
  - cbn in Hrun. injection Hrun as <- <- <- <-.
    destruct H4 as [[]|[H4 H5]]. repeat split; auto; apply HN.
  - apply StronglySorted_inv in Hs as [Hs' Hf].
    assert (Hgt : forall x, In x js -> j < x)
      by (intros x Hx; eapply Forall_forall in Hf; eauto).
    assert (Hm' : forall x, In x js -> nth x a 0%Z = nth i a 0%Z /\ np i = true)
      by (intros x Hx; apply Hm; now right).
    rewrite inner_cons in Hrun.
    destruct (Nat.ltb_spec j lo) as [Hjlo|Hjlo].
    + refine (IH N bi bj bk Hs' Hm' HN Hd1 Hd2 Hd3 H3 _ Hrun).
      destruct H4 as [[->|H4]|H4]; [lia|auto|auto].
    + destruct (Nat.leb_spec hi j) as [Hjhi|Hjhi].
      * injection Hrun as <- <- <- <-.
        destruct H4 as [[->|H4]|H4]; [lia| specialize (Hgt _ H4); lia |].
        destruct H4. repeat split; auto; apply HN.
      * destruct (Hm j (or_introl eq_refl)) as [Ha Hn].
        destruct (k_bounds j Hjlo Ha Hn) as [Kb1 Kb2].
        cbv beta iota zeta in Hrun.
        set (k := get_prev T j + 1) in *.
        set (N2 := fun x => if x =? j then k else N x) in Hrun.
        assert (HN2 : forall x, N2 x <= R i /\ N2 x <= R x).
        { intros x. unfold N2. destruct (Nat.eqb_spec x j) as [->|]; [lia|apply HN]. }
        destruct (Nat.ltb_spec bk k) as [Hlt|Hge].
        -- (* a strictly longer match can only be on the diagonal *)
           assert (j = i).
           { destruct (lt_eq_lt_dec j i) as [[Hji|Hji]|Hji]; auto.
             - specialize (H3 j ltac:(lia)). lia.
             - destruct H4 as [[->|H4]|[H4 _]]; [lia| specialize (Hgt _ H4); lia | lia]. }
           subst j.
           pose proof (R_le i) as Rl.
           refine (IH N2 (i + 1 - k) (i + 1 - k) k Hs' Hm' HN2 eq_refl _ _ _ _ Hrun).
           ++ lia.
           ++ lia.
           ++ intros x Hx. specialize (H3 x Hx). lia.
           ++ right. unfold N2. rewrite Nat.eqb_refl. pose proof (k_diag Hn). unfold k. lia.
        -- refine (IH N2 bi bj bk Hs' Hm' HN2 Hd1 Hd2 Hd3 H3 _ Hrun).
           destruct (Nat.eqb_spec i j) as [<-|Hne].
           ++ right. unfold N2. rewrite Nat.eqb_refl. pose proof (k_diag Hn). unfold k in *. lia.
           ++ destruct H4 as [[->|H4]|H4]; [lia | now left | ].
              right. unfold N2. destruct (Nat.eqb_spec i j); [lia|]. exact H4.
Qed.

End Row.

Lemma outer_diag n i T bi bj bk bi' bj' bk' :
  lo <= i -> i + n = hi ->
  (forall j, T j <= (if i =? lo then 0 else R (i - 1))) ->
  (forall j, T j <= R j) ->
  (lo < i -> R (i - 1) <= T (i - 1)) ->
  bi = bj -> lo <= bi -> bi + bk <= hi ->
  (forall x, lo <= x < i -> R x <= bk) ->
  outer a a lo hi (seq i n) T (bi, bj, bk) = (bi', bj', bk') ->
  bi' = bj' /\ lo <= bi' /\ bi' + bk' <= hi.
Proof.
  revert i T bi bj bk.
  induction n as [|n IH]; intros i T bi bj bk Hi Hn J0 J1 Jd Hd1 Hd2 Hd3 H3 Hrun.
  - cbn in Hrun. injection Hrun as <- <- <-. auto.
  - cbn [seq outer] in Hrun.
    destruct (inner lo hi i T (b2j_get a (nth i a 0%Z)) (fun _ => 0) (bi, bj, bk))
      as [N' [[bi1 bj1] bk1]] eqn:E.
    assert (Hi' : lo <= i < hi) by lia.
    destruct (inner_diag i T Hi' J0 J1 Jd (b2j_get a (nth i a 0%Z)) (fun _ => 0) bi bj bk N' bi1 bj1 bk1 (b2j_sorted _) ltac:(
                intros j Hj; apply in_b2j in Hj as (_ & Hj1 & Hj2);
                split; [exact Hj1 | unfold DifflibRuns.np; rewrite Hj2; reflexivity])
                ltac:(intros; cbv beta; split; lia) Hd1 Hd2 Hd3 H3 ltac:(
                destruct (np i) eqn:Hnp;
                [left; apply b2j_in; [lia | exact Hnp]
                | right; rewrite (R_step i), Hnp by lia; lia]) E)
      as (A & B & C & D & F & G & K).
    refine (IH (S i) N' bi1 bj1 bk1 ltac:(lia) ltac:(lia) _ (fun j => proj2 (A j)) _ B C D _ Hrun).
    + intros j. destruct (Nat.eqb_spec (S i) lo); [lia|]. replace (S i - 1) with i by lia. apply A.
    + intros _. replace (S i - 1) with i by lia. lia.
    + intros x Hx. destruct (Nat.eq_dec x i) as [->|]; [exact G | apply F; lia].
Qed.

Lemma extend_back_diag fuel x k :
  lo <= x -> x - lo <= fuel -> extend_back a a lo lo fuel x x k = (lo, lo, k + (x - lo)).
Proof.
  revert x k. induction fuel as [|f IH]; intros x k H1 H2; cbn [extend_back].
  - replace x with lo by lia. rewrite Nat.sub_diag, Nat.add_0_r. reflexivity.
  - destruct (Nat.ltb_spec lo x) as [Hlt|Hge]; cbn [andb].
    + rewrite Z.eqb_refl. rewrite IH by lia. f_equal. lia.
    + replace x with lo by lia. rewrite Nat.sub_diag, Nat.add_0_r. reflexivity.
Qed.

Lemma extend_fwd_diag fuel x k :
  x + k <= hi -> hi - (x + k) <= fuel -> extend_fwd a a hi hi fuel x x k = (x, x, hi - x).
Proof.
  revert k. induction fuel as [|f IH]; intros k H1 H2; cbn [extend_fwd].
  - f_equal. lia.
  - destruct (Nat.ltb_spec (x + k) hi) as [Hlt|Hge]; cbn [andb].
    + rewrite Z.eqb_refl. apply IH; lia.
    + f_equal. lia.
Qed.

(** On a sequence matched against itself over the same range, the longest
    match is the whole range. *)
Lemma find_longest_match_self : find_longest_match a a lo hi lo hi = (lo, lo, hi - lo).
Proof.
  unfold find_longest_match.
  destruct (outer a a lo hi (seq lo (hi - lo)) (fun _ => 0) (lo, lo, 0))
    as [[bi bj] bk] eqn:E.
  destruct (outer_diag (hi - lo) lo (fun _ => 0) lo lo 0 bi bj bk ltac:(lia) ltac:(lia)
              ltac:(intros; cbv beta; rewrite Nat.eqb_refl; lia) ltac:(intros; cbv beta; lia)
              ltac:(intros; lia) eq_refl ltac:(lia) ltac:(lia)
              ltac:(intros; lia) E) as (-> & B & C).
  rewrite extend_back_diag by lia.
  rewrite extend_fwd_diag by lia. reflexivity.
Qed.

End Self.

Lemma get_matching_blocks_self (a : pystr) :
  get_matching_blocks a a =
  if List.length a =? 0 then [(0, 0, 0)]
  else [(0, 0, List.length a); (List.length a, List.length a, 0)].
Proof.
  unfold get_matching_blocks.
  set (n := List.length a).
  replace (2 * (n + n) + 1) with (S (4 * n)) by lia.
  cbn [blocks_loop].
  rewrite (find_longest_match_self a 0 n ltac:(lia) ltac:(unfold n; lia)).
  rewrite Nat.sub_0_r. cbv beta iota.
  destruct (Nat.eqb_spec n 0) as [E|E].
  - rewrite E. destruct (4 * 0); reflexivity.
  - replace (0 <? 0) with false by reflexivity. cbn [andb].
    replace (0 + n <? n) with false by (symmetry; apply Nat.ltb_ge; lia).
    cbn [andb]. destruct (4 * n); cbn;
    replace (n =? 0) with false by (symmetry; apply Nat.eqb_neq; exact E); reflexivity.
Qed.

(** [SequenceMatcher(None, a, a).ratio() == 1.0] *)
Lemma ratio_self (a : pystr) : Difflib.ratio a a == 1.
Proof.
  unfold Difflib.ratio. rewrite get_matching_blocks_self.
  destruct (Nat.eqb_spec (List.length a) 0) as [E|E].
  - rewrite E. reflexivity.
  - cbn. replace (List.length a + List.length a =? 0) with false
      by (symmetry; apply Nat.eqb_neq; lia).
    rewrite Nat.add_0_r, Nat2Z.inj_add, inject_Z_plus.
    set (q := inject_Z (Z.of_nat (List.length a))).
    assert (Hq : ~ q == 0).
    { unfold q, Qeq. cbn. lia. }
    field. intro H. apply Hq. lra.
Qed.

End DifflibFacts.

Module AnalyzerClaims.

Import PyStr Difflib DifflibFacts Analyzer.
Open Scope Q_scope.

Lemma inject_nat_nonneg (n : nat) : 0 <= inject_Z (Z.of_nat n).
Proof. unfold Qle; cbn; lia. Qed.

Lemma ratio_nonneg (a b : pystr) : 0 <= Difflib.ratio a b.
Proof.
  unfold Difflib.ratio. cbv zeta.
  destruct (Nat.eqb_spec (List.length a + List.length b) 0) as [E|E].
  - discriminate.
  - apply Qle_shift_div_l.
    + unfold Qlt; cbn. lia.
    + rewrite Qmult_0_l. apply Qmult_le_0_compat; [discriminate|apply inject_nat_nonneg].
Qed.

Lemma analyzer_py_max_cases (a b : Q) :
  (a <= Analyzer.py_max a b) /\ (b <= Analyzer.py_max a b) /\
  (Analyzer.py_max a b = a \/ Analyzer.py_max a b = b).
Proof.
  unfold Analyzer.py_max. destruct (Qle_bool b a) eqn:E.
  - apply Qle_bool_iff in E. split; [apply Qle_refl|]. split; auto.
  - assert (~ b <= a) by (intro H; apply Qle_bool_iff in H; congruence).
    split; [lra|]. split; [apply Qle_refl|auto].
Qed.

Lemma fold_max (f : pystr -> Q) (L : list pystr) (m0 : Q) :
  let m := fold_left (fun m p => Analyzer.py_max m (f p)) L m0 in
  (m0 <= m) /\ (forall p, In p L -> f p <= m) /\
  (m = m0 \/ exists p, In p L /\ m = f p).
Proof.
  revert m0; induction L as [|x L IH]; intros m0; cbn.
  - split; [apply Qle_refl|]. split; [tauto|auto].
  - destruct (analyzer_py_max_cases m0 (f x)) as (H1 & H2 & H3).
    destruct (IH (Analyzer.py_max m0 (f x))) as (J1 & J2 & J3).
    split; [lra|]. split.
    + intros p [<-|Hp]; [lra|auto].
    + destruct J3 as [J3|(p & Hp & J3)].
      * destruct H3 as [H3|H3]; [left; congruence|right; exists x; split; [auto|congruence]].
      * right; exists p; auto.
Qed.

Lemma skipn_nonempty {A} (n : nat) (l : list A) :
  (n < List.length l)%nat -> skipn n l <> [].
Proof.
  intros Hn E. pose proof (length_skipn n l) as L. rewrite E in L. cbn in L. lia.
Qed.

(** C8. [novelty_score] returns 1.0 on an empty history and 0.0 when the
    history holds the response itself; otherwise it is [1 - m] where [m]
    is the largest [SequenceMatcher] ratio between the response and the
    last three history entries. *)
Theorem novelty_score_spec (response : pystr) (history : list pystr)
    (Hh : history <> []) :
  novelty_score response [] == 1 /\
  novelty_score response [response] == 0 /\
  exists past,
    In past (skipn (List.length history - 3) history) /\
    novelty_score response history == 1 - Difflib.ratio past response /\
    (forall p, In p (skipn (List.length history - 3) history) ->
       Difflib.ratio p response <= Difflib.ratio past response).
Proof.
  split; [reflexivity|]. split.
  - cbn [novelty_score List.length skipn fold_left Nat.sub].
    destruct (analyzer_py_max_cases 0 (Difflib.ratio response response)) as (_ & B & [E|E]);
      rewrite E in *; pose proof (ratio_self response); lra.
  - set (L := skipn (List.length history - 3) history).
    assert (HL : L <> []).
    { apply skipn_nonempty. destruct history; [congruence|cbn; lia]. }
    destruct (fold_max (fun p => Difflib.ratio p response) L 0) as (H1 & H2 & H3).
    cbv zeta in H1, H2, H3.
    assert (Hn : novelty_score response history =
                 1 - fold_left (fun m p => Analyzer.py_max m (Difflib.ratio p response)) L 0).
    { destruct history; [congruence|reflexivity]. }
    rewrite Hn. destruct H3 as [H3|(past & Hp & H3)].
    + destruct L as [|p0 L']; [congruence|].
      exists p0. pose proof (H2 p0 (or_introl eq_refl)). pose proof (ratio_nonneg p0 response).
      split; [left; reflexivity|]. split.
      * rewrite H3 in *. lra.
      * intros p Hp. specialize (H2 p Hp). rewrite H3 in *. lra.
    + exists past. split; [exact Hp|]. split.
      * rewrite H3. reflexivity.
      * intros p Hp'. rewrite <- H3. auto.
Qed.

Lemma novelty_score_spec_witness :
  let t := of_ascii "chat" in
  [t] <> [] /\
  novelty_score t [] == 1 /\ novelty_score t [t] == 0 /\
  exists past,
    In past (skipn (List.length [t] - 3) [t]) /\
    novelty_score t [t] == 1 - Difflib.ratio past t /\
    (forall p, In p (skipn (List.length [t] - 3) [t]) ->
       Difflib.ratio p t <= Difflib.ratio past t).
Proof.
  intros t. split; [discriminate|]. apply novelty_score_spec. discriminate.
Defined.

End AnalyzerClaims.

(* ================================================================== *)
(** * Properties of the reward engine *)

Module RewardEngineFacts.

Import PyStr RewardEngine.
Import Stdlib.Reals.Reals Stdlib.micromega.Lra.
Open Scope R_scope.
Open Scope list_scope.

(** *** Sums of squares, dot products, l2 normalisation *)

Lemma rsum_sq_nonneg (v : list R) : 0 <= rsum (map (fun x => x * x) v).
Proof.
  induction v as [|x v IH]; cbn; [lra|].
  pose proof (Rle_0_sqr x) as H; unfold Rsqr in H; lra.
Qed.

Lemma rsum_sq_div (v : list R) (c : R) : c <> 0 ->
  rsum (map (fun x => x * x) (map (fun x => x / c) v)) =
  rsum (map (fun x => x * x) v) / (c * c).
Proof.
  intros Hc; induction v as [|x v IH]; cbn.
  - symmetry; apply Rdiv_0_l.
  - rewrite IH. field. exact Hc.
Qed.

Lemma l2_normalize_sq (v : list R) :
  rsum (map (fun x => x * x) v) <> 0 ->
  rsum (map (fun x => x * x) (l2_normalize v)) = 1.
Proof.
  intros Hs. unfold l2_normalize. cbv zeta.
  destruct (Req_EM_T _ 0) as [E|_]; [contradiction|].
  pose proof (rsum_sq_nonneg v) as H0.
  set (s := rsum (map (fun x => x * x) v)) in *.
  destruct (Rle_lt_or_eq_dec 0 s H0) as [Hpos|E]; [|congruence].
  rewrite rsum_sq_div by (apply Rgt_not_eq, sqrt_lt_R0, Hpos).
  rewrite sqrt_sqrt by lra. apply Rdiv_diag. exact Hs.
Qed.

Lemma l2_normalize_sq_le (v : list R) :
  rsum (map (fun x => x * x) (l2_normalize v)) <= 1.
Proof.
  destruct (Req_EM_T (rsum (map (fun x => x * x) v)) 0) as [E|E].
  - unfold l2_normalize. cbv zeta. destruct (Req_EM_T _ 0); [|contradiction]. lra.
  - rewrite l2_normalize_sq by exact E. lra.
Qed.

Lemma dot_self (v : list R) : dot v v = rsum (map (fun x => x * x) v).
Proof. induction v as [|x v IH]; cbn; [reflexivity|]. rewrite IH. reflexivity. Qed.

Lemma dot_le (v w : list R) :
  2 * dot v w <= rsum (map (fun x => x * x) v) + rsum (map (fun x => x * x) w).
Proof.
  revert w; induction v as [|x v IH]; intros [|y w]; cbn.
  - lra.
  - pose proof (rsum_sq_nonneg (y :: w)) as H. cbn in H. lra.
  - pose proof (rsum_sq_nonneg (x :: v)) as H. cbn in H. lra.
  - specialize (IH w).
    assert (Hxy : x * x + y * y - 2 * (x * y) = (x - y) * (x - y)) by ring.
    pose proof (Rle_0_sqr (x - y)) as H. unfold Rsqr in H. lra.
Qed.

Lemma dot_nonneg (v w : list R) :
  Forall (Rle 0) v -> Forall (Rle 0) w -> 0 <= dot v w.
Proof.
  revert w; induction v as [|x v IH]; intros [|y w] Hv Hw; cbn; try lra.
  inversion Hv; inversion Hw; subst.
  pose proof (Rmult_le_pos x y ltac:(assumption) ltac:(assumption)).
  pose proof (IH w ltac:(assumption) ltac:(assumption)). lra.
Qed.

Lemma l2_normalize_nonneg (v : list R) :
  Forall (Rle 0) v -> Forall (Rle 0) (l2_normalize v).
Proof.
  intros Hv. unfold l2_normalize. cbv zeta.
  destruct (Req_EM_T _ 0) as [E|E]; [exact Hv|].
  pose proof (rsum_sq_nonneg v) as H0.
  set (s := rsum (map (fun x => x * x) v)) in *.
  destruct (Rle_lt_or_eq_dec 0 s H0) as [Hpos|E']; [|congruence].
  apply Forall_map. refine (Forall_impl _ _ Hv). intros x Hx.
  unfold Rdiv. apply Rmult_le_pos; [exact Hx|].
  left. apply Rinv_0_lt_compat, sqrt_lt_R0, Hpos.
Qed.

Lemma cosine_self (v : list R) :
  rsum (map (fun x => x * x) v) <> 0 -> cosine v v = 1.
Proof. intros H. unfold cosine. rewrite dot_self. apply l2_normalize_sq, H. Qed.

Lemma cosine_bounds (v w : list R) :
  Forall (Rle 0) v -> Forall (Rle 0) w -> 0 <= cosine v w <= 1.
Proof.
  intros Hv Hw. unfold cosine. split.
  - apply dot_nonneg; apply l2_normalize_nonneg; assumption.
  - pose proof (dot_le (l2_normalize v) (l2_normalize w)).
    pose proof (l2_normalize_sq_le v). pose proof (l2_normalize_sq_le w). lra.
Qed.

(** *** tf-idf rows *)

Lemma idf_ge_1 (analyzed : list (list pystr)) (t : pystr) : 1 <= idf analyzed t.
Proof.
  unfold idf.
  assert (Hdf : (doc_freq analyzed t <= List.length analyzed)%nat)
    by apply filter_length_le.
  set (a := INR (1 + List.length analyzed)).
  set (b := INR (1 + doc_freq analyzed t)).
  assert (Hb : 0 < b) by (apply lt_0_INR; lia).
  assert (Hab : b <= a) by (apply le_INR; lia).
  assert (Hq : 1 <= a / b).
  { replace (a / b) with (1 + (a - b) / b) by (field; lra).
    assert (0 <= (a - b) / b).
    { unfold Rdiv. apply Rmult_le_pos; [lra|]. left. apply Rinv_0_lt_compat, Hb. }
    lra. }
  destruct (Rle_lt_or_eq_dec 1 (a / b) Hq) as [Hlt|E].
  - pose proof (ln_increasing 1 (a / b) ltac:(lra) Hlt). rewrite ln_1 in *. lra.
  - rewrite <- E, ln_1. lra.
Qed.

Lemma raw_row_nonneg (analyzed : list (list pystr)) (toks vocab : list pystr) :
  Forall (Rle 0) (map (fun t => INR (term_count t toks) * idf analyzed t) vocab).
Proof.
  apply Forall_forall. intros x Hx. apply in_map_iff in Hx as (t & <- & _).
  apply Rmult_le_pos; [apply pos_INR|]. pose proof (idf_ge_1 analyzed t). lra.
Qed.

Lemma first_occurrence_nonempty (l seen : list pystr) :
  seen <> [] -> first_occurrence_acc l seen <> [].
Proof.
  revert seen; induction l as [|w l IH]; intros seen Hs; cbn.
  - intros E. apply Hs. rewrite <- (rev_involutive seen), E. reflexivity.
  - destruct (mem w seen); apply IH; [exact Hs|discriminate].
Qed.

Lemma first_occurrence_nil (l : list pystr) :
  first_occurrence_acc l [] = [] -> l = [].
Proof.
  destruct l as [|w l]; [reflexivity|]. cbn.
  intros E. exfalso. exact (first_occurrence_nonempty l [w] ltac:(discriminate) E).
Qed.

Lemma fit_transform_err (env : text_env) (docs : list pystr) :
  List.concat (map (analyze env) docs) = [] ->
  fit_transform env docs = Err empty_vocabulary.
Proof. intros H. unfold fit_transform. cbv zeta. rewrite H. reflexivity. Qed.

Lemma fit_transform_ok (env : text_env) (docs : list pystr) :
  List.concat (map (analyze env) docs) <> [] ->
  fit_transform env docs =
  Ok (map (fun toks =>
             l2_normalize
               (map (fun t => INR (term_count t toks) * idf (map (analyze env) docs) t)
                  (limit_features (map (analyze env) docs)
                     (sort_terms (first_occurrence_acc (List.concat (map (analyze env) docs)) [])))))
          (map (analyze env) docs)).
Proof.
  intros H. unfold fit_transform. cbv zeta.
  destruct (first_occurrence_acc _ []) eqn:E.
  - apply first_occurrence_nil in E. contradiction.
  - reflexivity.
Qed.

(** [_calculate_relevance] fails exactly when neither text has a
    vocabulary term, and otherwise lies in [0, 1]. *)
Lemma relevance_cases (env : text_env) (self : RewardEngine) (prompt response : pystr) :
  match analyze env prompt ++ analyze env response with
  | [] => _calculate_relevance env self prompt response = Err empty_vocabulary
  | _ :: _ => exists rel, _calculate_relevance env self prompt response = Ok rel /\ 0 <= rel <= 1
  end.
Proof.
  unfold _calculate_relevance.
  assert (C : List.concat (map (analyze env) [prompt; response]) =
              analyze env prompt ++ analyze env response)
    by (cbn; rewrite app_nil_r; reflexivity).
  destruct (analyze env prompt ++ analyze env response) as [|w l] eqn:E.
  - rewrite fit_transform_err by exact C. reflexivity.
  - rewrite fit_transform_ok by (rewrite C; discriminate).
    cbn [bind]. eexists; split; [reflexivity|].
    cbn [map nth]. apply cosine_bounds; apply l2_normalize_nonneg, raw_row_nonneg.
Qed.

(** *** Entropy *)

Lemma math_log2_pos (x : R) : 0 < x -> math_log2 x = Ok (ln x / ln 2).
Proof. intros H. unfold math_log2. destruct (Rle_dec x 0); [lra|reflexivity]. Qed.

Lemma math_log2_nonpos (x : R) : x <= 0 -> math_log2 x = Err math_domain_error.
Proof. intros H. unfold math_log2. destruct (Rle_dec x 0); [reflexivity|lra]. Qed.

Lemma distinct_chars_acc_in (s seen : pystr) (c : Z) :
  In c (distinct_chars_acc s seen) -> In c s \/ In c seen.
Proof.
  revert seen; induction s as [|d s IH]; intros seen; cbn.
  - rewrite <- in_rev. auto.
  - destruct (existsb (Z.eqb d) seen); intros H; destruct (IH _ H) as [H'|H'];
      cbn in H'; intuition.
Qed.

Lemma distinct_chars_acc_nonempty (s seen : pystr) :
  (s <> [] \/ seen <> []) -> distinct_chars_acc s seen <> [].
Proof.
  revert seen; induction s as [|d s IH]; intros seen H; cbn.
  - destruct H as [H|H]; [congruence|].
    intros E. apply H. rewrite <- (rev_involutive seen), E. reflexivity.
  - destruct (existsb (Z.eqb d) seen) eqn:Ex; apply IH; right.
    + destruct seen; [discriminate|discriminate].
    + discriminate.
Qed.

Lemma char_count_pos (s : pystr) (c : Z) : In c s -> (1 <= char_count c s)%nat.
Proof.
  unfold char_count. induction s as [|d s IH]; cbn; [tauto|].
  intros [<-|H].
  - rewrite Z.eqb_refl. cbn. lia.
  - destruct (Z.eqb c d); cbn; specialize (IH H); lia.
Qed.

Lemma mapM_ok {A B} (f : A -> result B) (l : list A) :
  (forall x, In x l -> exists y, f x = Ok y) -> exists ys, mapM f l = Ok ys.
Proof.
  induction l as [|x l IH]; intros H; cbn; [eauto|].
  destruct (H x (or_introl eq_refl)) as [y Hy]. rewrite Hy. cbn [bind].
  destruct IH as [ys Hys]; [intros; apply H; now right|].
  rewrite Hys. cbn [bind]. eauto.
Qed.

Lemma entropy_ok (self : RewardEngine) (s : pystr) :
  s <> [] -> exists v, _calculate_entropy self s = Ok v.
Proof.
  intros Hs. unfold _calculate_entropy. cbv zeta.
  assert (Hlen : (0 < List.length s)%nat) by (destruct s; [congruence|cbn; lia]).
  destruct (mapM_ok (fun p => l <- math_log2 p ;; Ok (p * l))
              (map (fun '(_, count) => INR count / INR (List.length s)) (counter s)))
    as [terms Ht].
  { intros p Hp. unfold counter in Hp. rewrite map_map in Hp.
    apply in_map_iff in Hp as (c & <- & Hc).
    apply distinct_chars_acc_in in Hc as [Hc|[]].
    rewrite math_log2_pos; [cbn [bind]; eauto|].
    apply Rdiv_pos_pos; apply lt_0_INR; [pose proof (char_count_pos s c Hc)|]; lia. }
  rewrite Ht. cbn [bind].
  rewrite math_log2_pos.
  - cbn [bind]. eauto.
  - apply lt_0_INR.
    pose proof (distinct_chars_acc_nonempty s [] (or_introl Hs)) as N.
    unfold distinct_chars. destruct (distinct_chars_acc s []); [congruence|cbn; lia].
Qed.

Lemma entropy_empty (self : RewardEngine) :
  _calculate_entropy self [] = Err math_domain_error.
Proof.
  unfold _calculate_entropy. cbn [counter distinct_chars distinct_chars_acc rev map mapM bind].
  rewrite math_log2_nonpos; [reflexivity|]. cbn. lra.
Qed.

(** *** A repeated response *)

(** The tf-idf row of the one-word document "chat" in the corpus
    ["chat"; "chat"]. *)
Lemma chat_pair_rows (docs : list pystr) :
  docs = [of_ascii "chat"; of_ascii "chat"] ->
  exists X, fit_transform latin1_env docs = Ok [X; X] /\
            rsum (map (fun x => x * x) X) = 1.
Proof.
  intros ->. rewrite fit_transform_ok by (vm_compute; discriminate).
  change (map (analyze latin1_env) [of_ascii "chat"; of_ascii "chat"])
    with [[of_ascii "chat"]; [of_ascii "chat"]].
  change (limit_features [[of_ascii "chat"]; [of_ascii "chat"]]
            (sort_terms (first_occurrence_acc
               (List.concat [[of_ascii "chat"]; [of_ascii "chat"]]) [])))
    with [of_ascii "chat"].
  cbn [map]. eexists; split; [reflexivity|].
  apply l2_normalize_sq.
  change (term_count (of_ascii "chat") [of_ascii "chat"]) with 1%nat.
  pose proof (idf_ge_1 [[of_ascii "chat"]; [of_ascii "chat"]] (of_ascii "chat")) as H.
  set (i := idf _ _) in *. cbn [rsum map INR].
  assert (0 < i * i) by (apply Rmult_lt_0_compat; lra).
  assert (0 < 1 * i * (1 * i) + 0) by (rewrite !Rmult_1_l, Rplus_0_r; exact H0).
  lra.
Qed.

Lemma novelty_of_repeated_chat :
  _calculate_novelty_strict latin1_env (mkRewardEngine [of_ascii "chat"]) (of_ascii "chat") = Ok 0.
Proof.
  unfold _calculate_novelty_strict. cbn [memory_responses].
  destruct (chat_pair_rows _ eq_refl) as (X & HX & Hs). rewrite HX. cbn [bind hd tl map fold_left].
  rewrite cosine_self by lra. f_equal. lra.
Qed.

Lemma relevance_of_chat_chat (self : RewardEngine) :
  _calculate_relevance latin1_env self (of_ascii "chat") (of_ascii "chat") = Ok 1.
Proof.
  unfold _calculate_relevance.
  destruct (chat_pair_rows _ eq_refl) as (X & HX & Hs). rewrite HX. cbn [bind nth].
  rewrite cosine_self by lra. reflexivity.
Qed.

(** A whole [calculate_reward] call on a response already in memory. *)
Lemma repeated_chat_run :
  exists out self',
    calculate_reward latin1_env (mkRewardEngine [of_ascii "chat"]) (of_ascii "chat")
      (of_ascii "chat") "comprehension_profonde"%string None = Ok (out, self') /\
    novelty_score (metrics out) < 0.35.
Proof.
  destruct (entropy_ok (mkRewardEngine [of_ascii "chat"]) (of_ascii "chat")) as (ent & He);
    [discriminate|].
  unfold calculate_reward. rewrite novelty_of_repeated_chat. cbn [bind].
  rewrite relevance_of_chat_chat, He. cbn [bind].
  destruct (_detect_emotional_intensity _ _ _) as [intensity tag].
  destruct (Rlt_dec 0 0.35) as [h|h]; [|lra].
  eexists _, _. split; [reflexivity|]. cbn. lra.
Qed.

(** *** Emotion counts *)

Lemma counts_zero (s : pystr) (words : list pystr) (n : nat) :
  (forall w, In w words -> py_count s w = 0%nat) ->
  fold_left (fun acc w => (acc + py_count s w)%nat) words n = n.
Proof.
  revert n; induction words as [|w words IH]; intros n H; cbn; [reflexivity|].
  rewrite H by (left; reflexivity). rewrite Nat.add_0_r.
  apply IH. intros; apply H; now right.
Qed.

End RewardEngineFacts.

(** * The reward engine against its specification *)

Module RewardEngineClaims.

Import PyStr RewardEngine RewardEngineFacts.
Import Stdlib.Reals.Reals Stdlib.micromega.Lra.
Open Scope R_scope.
Open Scope list_scope.

(** C1. When [calculate_reward] returns and the novelty it computed is
    below 0.35, the reward is exactly -1.0 and the tag is
    "douleur accablante"; the artifact (and the goal state) then play no
    part: every other artifact gives the same result. *)
Theorem repetition_gate (env : text_env) (self : RewardEngine) (prompt response : pystr)
    (goal_state : string) (a : option artifact) (out : reward_result) (self' : RewardEngine)
    (H : calculate_reward env self prompt response goal_state a = Ok (out, self'))
    (Hn : novelty_score (metrics out) < 0.35) :
  final_reward out = -1 /\ emotion_tag out = "douleur accablante"%string /\
  forall goal_state' a',
    calculate_reward env self prompt response goal_state' a' = Ok (out, self').
Proof.
  unfold calculate_reward in *.
  destruct (_calculate_novelty_strict env self response) as [nov|e]; cbn [bind] in *;
    [|discriminate].
  destruct (_calculate_relevance env self prompt response) as [rel|e]; cbn [bind] in *;
    [|discriminate].
  destruct (_calculate_entropy self response) as [ent|e]; cbn [bind] in *; [|discriminate].
  destruct (_detect_emotional_intensity env self response) as [intensity tag].
  destruct (Rlt_dec nov 0.35) as [Hlt|Hge].
  - injection H as <- <-. split; [reflexivity|]. split; [reflexivity|].
    intros g a'. reflexivity.
  - injection H as <- <-. cbn in Hn. contradiction.
Qed.

Lemma repetition_gate_witness :
  exists out self',
    calculate_reward latin1_env (mkRewardEngine [of_ascii "chat"]) (of_ascii "chat")
      (of_ascii "chat") "comprehension_profonde"%string None = Ok (out, self') /\
    novelty_score (metrics out) < 0.35 /\
    (final_reward out = -1 /\ emotion_tag out = "douleur accablante"%string /\
     forall goal_state' a',
       calculate_reward latin1_env (mkRewardEngine [of_ascii "chat"]) (of_ascii "chat")
         (of_ascii "chat") goal_state' a' = Ok (out, self')).
Proof.
  destruct repeated_chat_run as (out & self' & H & Hn).
  exists out, self'. split; [exact H|]. split; [exact Hn|].
  exact (repetition_gate _ _ _ _ _ _ out self' H Hn).
Defined.

(** C2. The pain level returned by [calculate_reward] is
    [1 - (final_reward + 1) / 2] of the reward returned by the same call. *)
Theorem pain_is_inverse_of_reward (env : text_env) (self : RewardEngine)
    (prompt response : pystr) (goal_state : string) (a : option artifact)
    (out : reward_result) (self' : RewardEngine)
    (H : calculate_reward env self prompt response goal_state a = Ok (out, self')) :
  pain_level out = 1 - (final_reward out + 1) / 2.
Proof.
  unfold calculate_reward in H.
  destruct (_calculate_novelty_strict env self response) as [nov|e]; cbn [bind] in H;
    [|discriminate].
  destruct (_calculate_relevance env self prompt response) as [rel|e]; cbn [bind] in H;
    [|discriminate].
  destruct (_calculate_entropy self response) as [ent|e]; cbn [bind] in H; [|discriminate].
  destruct (_detect_emotional_intensity env self response) as [intensity tag].
  destruct (Rlt_dec nov 0.35); injection H as <- <-; reflexivity.
Qed.

Lemma pain_is_inverse_of_reward_witness :
  exists out self',
    calculate_reward latin1_env (mkRewardEngine [of_ascii "chat"]) (of_ascii "chat")
      (of_ascii "chat") "comprehension_profonde"%string None = Ok (out, self') /\
    pain_level out = 1 - (final_reward out + 1) / 2.
Proof.
  destruct repeated_chat_run as (out & self' & H & _).
  exists out, self'. split; [exact H|].
  exact (pain_is_inverse_of_reward _ _ _ _ _ _ out self' H).
Defined.

(** C5. [_calculate_entropy("")] raises [ValueError] ([math.log2(0)]) before
    its [if max_entropy > 0 else 0] guard is reached; [_calculate_relevance]
    raises [ValueError] (empty vocabulary) on two empty texts; and a fresh
    engine's [calculate_reward("Bonjour le monde", "")] raises the first. *)
Theorem empty_text_raises (self : RewardEngine) (goal_state : string) (a : option artifact) :
  _calculate_entropy self [] = Err math_domain_error /\
  _calculate_relevance latin1_env self [] [] = Err empty_vocabulary /\
  calculate_reward latin1_env new_engine (of_ascii "Bonjour le monde") [] goal_state a
    = Err math_domain_error.
Proof.
  split; [apply entropy_empty|]. split.
  - pose proof (relevance_cases latin1_env self [] []) as H. exact H.
  - pose proof (relevance_cases latin1_env new_engine (of_ascii "Bonjour le monde") []) as H.
    change (analyze latin1_env (of_ascii "Bonjour le monde") ++ analyze latin1_env [])
      with [of_ascii "bonjour"; of_ascii "le"; of_ascii "monde"] in H.
    destruct H as (rel & Hr & _).
    unfold calculate_reward. cbn [bind _calculate_novelty_strict memory_responses new_engine].
    rewrite Hr. cbn [bind]. rewrite entropy_empty. reflexivity.
Qed.

(** C6 (as stated, refuted).  A fresh engine has no history, yet the
    relevance of "chat" to "chat" is 1, not 0.7, and two empty texts make
    the relevance raise instead of falling back to 0.5. *)
Lemma relevance_neutral_default_fails :
  memory_responses new_engine = [] /\
  _calculate_relevance latin1_env new_engine (of_ascii "chat") (of_ascii "chat") = Ok 1 /\
  _calculate_relevance latin1_env new_engine [] [] = Err empty_vocabulary.
Proof.
  split; [reflexivity|]. split; [apply relevance_of_chat_chat|].
  exact (relevance_cases latin1_env new_engine [] []).
Qed.

(** C6 (amended).  [_calculate_relevance] does not read the engine's
    history; it raises [ValueError] exactly when neither text has a
    vocabulary term, and otherwise fits the tf-idf matrix of the two
    texts alone and returns the cosine of its two rows, a non-negative
    value. *)
Theorem relevance_is_pair_cosine (env : text_env) (self self' : RewardEngine)
    (prompt response : pystr) :
  _calculate_relevance env self prompt response = _calculate_relevance env self' prompt response /\
  match analyze env prompt ++ analyze env response with
  | [] => _calculate_relevance env self prompt response = Err empty_vocabulary
  | _ :: _ => exists rows,
      fit_transform env [prompt; response] = Ok rows /\
      _calculate_relevance env self prompt response = Ok (cosine (nth 0 rows []) (nth 1 rows [])) /\
      0 <= cosine (nth 0 rows []) (nth 1 rows [])
  end.
Proof.
  split; [reflexivity|].
  pose proof (relevance_cases env self prompt response) as C.
  unfold _calculate_relevance in *.
  destruct (analyze env prompt ++ analyze env response) as [|w l]; [exact C|].
  destruct (fit_transform env [prompt; response]) as [rows|e]; cbn [bind] in C |- *.
  - destruct C as (rel & E & [B _]). injection E as <-. exists rows. auto.
  - destruct C as (rel & E & _). discriminate.
Qed.

(** C7. When the lowered response contains none of the emotion words,
    [_detect_emotional_intensity] returns intensity 0 with the tag "joy"
    (the first key of [emotional_words]): its [if not emotion_counts]
    branch returning "neutre" is never taken, the dict always having five
    keys. *)
Theorem no_emotion_word_gives_joy (env : text_env) (self : RewardEngine) (response : pystr)
    (H : forall emotion words w, In (emotion, words) emotional_words -> In w words ->
         py_count (py_lower env response) w = 0%nat) :
  _detect_emotional_intensity env self response = (0, "joy"%string).
Proof.
  unfold _detect_emotional_intensity. cbv zeta.
  rewrite (map_ext_in _ (fun '(emotion, words) => (emotion, 0%nat)) emotional_words).
  2:{ intros [emotion words] Hin. f_equal. apply counts_zero.
      intros w Hw. exact (H _ _ _ Hin Hw). }
  cbn. unfold py_min. destruct (Rlt_dec (0 / 20) 1) as [h|h].
  - rewrite Rdiv_0_l. reflexivity.
  - rewrite Rdiv_0_l in h. lra.
Qed.

Lemma no_emotion_word_gives_joy_witness :
  (forall emotion words w, In (emotion, words) emotional_words -> In w words ->
     py_count (py_lower latin1_env (of_ascii "Bonjour")) w = 0%nat) /\
  _detect_emotional_intensity latin1_env new_engine (of_ascii "Bonjour") = (0, "joy"%string).
Proof.
  assert (H : forall emotion words w, In (emotion, words) emotional_words -> In w words ->
                py_count (py_lower latin1_env (of_ascii "Bonjour")) w = 0%nat).
  { intros emotion words w Hin Hw.
    assert (B : forallb (fun '(_, ws) =>
                  forallb (fun w => Nat.eqb (py_count (py_lower latin1_env (of_ascii "Bonjour")) w) 0)
                    ws) emotional_words = true) by (vm_compute; reflexivity).
    rewrite forallb_forall in B. specialize (B _ Hin). cbv beta iota in B.
    rewrite forallb_forall in B. apply Nat.eqb_eq, B, Hw. }
  split; [exact H|]. exact (no_emotion_word_gives_joy latin1_env new_engine _ H).
Defined.

End RewardEngineClaims.

(* ================================================================== *)
(** * Further properties of the regulator: [_adjust_llm_parameters],
      [get_diagnostic], [force_reset], and the state file *)

Module HomeostasisMoreFacts.

Import Homeostasis HomeostasisMore HomeostasisFacts.
Open Scope Q_scope.
Open Scope string_scope.
Open Scope list_scope.

Ltac state_simpl :=
  cbn [pain_level satisfaction_level creativity_drive exploration_tendency stability_need
       temperature top_p frequency_penalty presence_penalty set_temperature set_top_p
       set_frequency_penalty set_presence_penalty fst snd].

Lemma adjust_field_cases band key old new why adj :
  (band < Qabs (new - old) /\
   adjust_field band key old new why adj = (adj ++ [(key, mkParamAdj old new why)], new)) \/
  (Qabs (new - old) <= band /\ adjust_field band key old new why adj = (adj, old)).
Proof.
  unfold adjust_field. destruct (Qlt_bool band _) eqn:E;
    [apply Qlt_bool_true in E | apply Qlt_bool_false in E]; auto.
Qed.

Lemma adjust_field_noop band key old new why adj :
  Qabs (new - old) <= band -> adjust_field band key old new why adj = (adj, old).
Proof.
  intros H. unfold adjust_field, Qlt_bool.
  replace (Qle_bool (Qabs (new - old)) band) with true by (symmetry; apply Qle_bool_iff, H).
  reflexivity.
Qed.

(** After the update the field is within [band] of its target. *)
Lemma adjust_field_close band key old new why adj :
  0 <= band -> Qabs (new - snd (adjust_field band key old new why adj)) <= band.
Proof.
  intros Hb. destruct (adjust_field_cases band key old new why adj) as [[_ ->]|[H ->]]; cbn [snd].
  - apply Qabs_Qle_condition. lra.
  - exact H.
Qed.

(** [_adjust_llm_parameters] touches the four sampling fields only. *)
Lemma adjust_drives (s : HomeostaticState) :
  let s' := fst (_adjust_llm_parameters s) in
  s'.(pain_level) = s.(pain_level) /\ s'.(satisfaction_level) = s.(satisfaction_level) /\
  s'.(creativity_drive) = s.(creativity_drive) /\
  s'.(exploration_tendency) = s.(exploration_tendency) /\
  s'.(stability_need) = s.(stability_need).
Proof.
  destruct s as [p sa c e st t tp fp pp]. unfold _adjust_llm_parameters. cbn.
  destruct (adjust_field _ "temperature" _ _ _ _) as [a1 t1]. cbn.
  destruct (adjust_field _ "top_p" _ _ _ _) as [a2 tp1]. cbn.
  destruct (adjust_field _ "frequency_penalty" _ _ _ _) as [a3 fp1]. cbn.
  destruct (adjust_field _ "presence_penalty" _ _ _ _) as [a4 pp1]. cbn.
  auto.
Qed.

Lemma qsum_acc (l : list Q) (acc : Q) : fold_left Qplus l acc == acc + fold_left Qplus l 0.
Proof.
  revert acc; induction l as [|x l IH]; intros acc; cbn; [lra|].
  rewrite (IH (acc + x)), (IH (0 + x)). lra.
Qed.

Lemma Q_of_len_succ {A} (x : A) (l : list A) :
  inject_Z (Z.of_nat (List.length (x :: l))) == inject_Z (Z.of_nat (List.length l)) + 1.
Proof. cbn [List.length]. rewrite Nat2Z.inj_succ, <- Z.add_1_r, inject_Z_plus. reflexivity. Qed.

Lemma qsum_bounds (lo hi : Q) (l : list Q) :
  Forall (fun x => lo <= x <= hi) l ->
  inject_Z (Z.of_nat (List.length l)) * lo <= qsum l <= inject_Z (Z.of_nat (List.length l)) * hi.
Proof.
  unfold qsum. induction l as [|x l IH]; intros H; cbn [fold_left].
  - change (inject_Z (Z.of_nat (List.length (@nil Q)))) with 0. lra.
  - inversion H as [|? ? Hx Hl]; subst. specialize (IH Hl).
    rewrite qsum_acc, Q_of_len_succ. nra.
Qed.

(** An average of values in [[lo, hi]] lies in [[lo, hi]]. *)
Lemma average_bounds (lo hi default : Q) (l : list Q) :
  lo <= default <= hi -> Forall (fun x => lo <= x <= hi) l ->
  lo <= average_or default l <= hi.
Proof.
  intros Hd Hl. destruct l as [|x l']; [exact Hd|]. unfold average_or.
  assert (Hn : 0 < inject_Z (Z.of_nat (List.length (x :: l')))).
  { rewrite Q_of_len_succ.
    assert (0 <= inject_Z (Z.of_nat (List.length l'))) by
      (change 0 with (inject_Z 0); rewrite <- Zle_Qle; lia).
    lra. }
  destruct (qsum_bounds lo hi (x :: l') Hl) as [H1 H2]. split.
  - apply Qle_shift_div_l; [exact Hn|]. rewrite Qmult_comm. exact H1.
  - apply Qle_shift_div_r; [exact Hn|]. rewrite Qmult_comm. exact H2.
Qed.

Lemma Forall_skipn {A} (P : A -> Prop) (n : nat) (l : list A) :
  Forall P l -> Forall P (skipn n l).
Proof.
  revert l; induction n as [|n IH]; intros l H; [exact H|].
  destruct l as [|x l]; [constructor|]. inversion H; subst. apply IH. assumption.
Qed.

Lemma from_dict_to_dict (s : HomeostaticState) : from_dict (LLMWrapper.to_dict s) = Done s.
Proof. destruct s. reflexivity. Qed.

(** [_adjust_llm_parameters] keeps the four drives it reads.  When the
    drives are in [[0, 1]] the temperature target [0.5 + 0.4 creativity]
    (raised or lowered by 0.2 / 0.1 within [[0.3, 1.0]]) lies in
    [[0.3, 1]], so the temperature ends within 0.05 of it, in
    [[0.25, 1.05]], whatever it was before; and sampling fields that start
    in range (temperature in [[0.1, 1.3]], top_p in [[0, 1]], penalties
    non-negative) stay in range, the other targets being
    [0.7 + 0.3 exploration], [0.5 pain] and [0.3 exploration]. *)
Theorem adjust_llm_parameters_ranges (s : HomeostaticState) :
  drives_in_range s ->
  let s' := fst (_adjust_llm_parameters s) in
  s'.(pain_level) = s.(pain_level) /\ s'.(satisfaction_level) = s.(satisfaction_level) /\
  s'.(creativity_drive) = s.(creativity_drive) /\
  s'.(exploration_tendency) = s.(exploration_tendency) /\
  s'.(stability_need) = s.(stability_need) /\
  1#4 <= s'.(temperature) <= 21#20 /\
  (sampling_in_range s -> sampling_in_range s').
Proof.
  destruct s as [p sa c e st t tp fp pp].
  unfold drives_in_range, sampling_in_range; cbn. intros Hd.
  unfold _adjust_llm_parameters. cbn.
  set (T := if Qlt_bool (7#10) p then _ else _).
  assert (HT : 3#10 <= T <= 1) by (subst T; qcases; minmax; lra).
  destruct (adjust_field_cases (1#20) "temperature" t T
              "adaptation créativité/douleur" []) as [[_ ->]|[H1 ->]]; cbn;
  match goal with
  | |- context [adjust_field _ "top_p" ?o ?n ?w ?a] =>
      destruct (adjust_field_cases (1#20) "top_p" o n w a) as [[_ ->]|[_ ->]]; cbn
  end;
  match goal with
  | |- context [adjust_field _ "frequency_penalty" ?o ?n ?w ?a] =>
      destruct (adjust_field_cases (1#10) "frequency_penalty" o n w a) as [[_ ->]|[_ ->]]; cbn
  end;
  match goal with
  | |- context [adjust_field _ "presence_penalty" ?o ?n ?w ?a] =>
      destruct (adjust_field_cases (1#10) "presence_penalty" o n w a) as [[_ ->]|[_ ->]]; cbn
  end;
  try (apply Qabs_Qle_condition in H1);
  (split; [reflexivity|]); (split; [reflexivity|]); (split; [reflexivity|]);
  (split; [reflexivity|]); (split; [reflexivity|]); (split; [lra|]);
  intros Hs; repeat split; lra.
Qed.

Lemma adjust_llm_parameters_ranges_witness :
  let s := set_temperature default_state 2 in
  drives_in_range s /\
  let s' := fst (_adjust_llm_parameters s) in
  s'.(pain_level) = s.(pain_level) /\
  s'.(satisfaction_level) = s.(satisfaction_level) /\
  s'.(creativity_drive) = s.(creativity_drive) /\
  s'.(exploration_tendency) = s.(exploration_tendency) /\
  s'.(stability_need) = s.(stability_need) /\
  1#4 <= s'.(temperature) <= 21#20 /\
  (sampling_in_range s -> sampling_in_range s').
Proof.
  intros s.
  assert (Hd : drives_in_range s)
    by (unfold drives_in_range, s, default_state, set_temperature; state_simpl; lra).
  split; [exact Hd|].
  exact (adjust_llm_parameters_ranges s Hd).
Defined.

(** [_adjust_llm_parameters] is idempotent: right after a call, a
    second call changes nothing and returns an empty dict, whatever the
    state (each field ends within its dead band of a target that the
    call does not move). *)
Theorem adjust_llm_parameters_idempotent (s : HomeostaticState) :
  let s' := fst (_adjust_llm_parameters s) in
  _adjust_llm_parameters s' = (s', []).
Proof.
  destruct s as [p sa c e st t tp fp pp]. cbv zeta.
  unfold _adjust_llm_parameters at 2 3. state_simpl.
  set (T := if Qlt_bool (7#10) p then _ else _).
  set (w1 := "adaptation créativité/douleur"). set (w2 := "ajustement exploration").
  set (w3 := "réduction répétition"). set (w4 := "encouragement nouveauté").
  pose proof (adjust_field_close (1#20) "temperature" t T w1 [] ltac:(lra)) as C1.
  destruct (adjust_field (1#20) "temperature" t T w1 []) as [a1 t1]. cbn [fst snd] in C1 |- *.
  pose proof (adjust_field_close (1#20) "top_p" tp ((7#10) + e * (3#10)) w2 a1 ltac:(lra)) as C2.
  destruct (adjust_field (1#20) "top_p" tp _ w2 a1) as [a2 tp1]. cbn [fst snd] in C2 |- *.
  pose proof (adjust_field_close (1#10) "frequency_penalty" fp (p * (5#10)) w3 a2 ltac:(lra)) as C3.
  destruct (adjust_field (1#10) "frequency_penalty" fp _ w3 a2) as [a3 fp1]. cbn [fst snd] in C3 |- *.
  pose proof (adjust_field_close (1#10) "presence_penalty" pp (e * (3#10)) w4 a3 ltac:(lra)) as C4.
  destruct (adjust_field (1#10) "presence_penalty" pp _ w4 a3) as [a4 pp1]. cbn [fst snd] in C4 |- *.
  unfold _adjust_llm_parameters. state_simpl. fold T w1 w2 w3 w4.
  rewrite (adjust_field_noop _ _ _ _ _ _ C1). state_simpl.
  rewrite (adjust_field_noop _ _ _ _ _ _ C2). state_simpl.
  rewrite (adjust_field_noop _ _ _ _ _ _ C3). state_simpl.
  rewrite (adjust_field_noop _ _ _ _ _ _ C4). state_simpl.
  reflexivity.
Qed.

(** [get_diagnostic]: with the pain level in [[0, 1]] the stability
    index lies in [[0, 1]]; with the logged pains in [[0, 1]] their
    recent average does, and it is 0.5 when no pain is logged; with the
    logged rewards in [[-1, 1]] their recent average does, and it is 0
    when no reward is logged. *)
Theorem diagnostic_ranges (r : Regulator) :
  0 <= r.(state).(pain_level) <= 1 ->
  Forall (fun e => 0 <= e.(pn_pain) <= 1) r.(pain_history) ->
  Forall (fun e => -1 <= e.(rw_reward) <= 1) r.(reward_history) ->
  let d := get_diagnostic r in
  (0 <= d.(stability_index) <= 1) /\ (0 <= d.(recent_avg_pain) <= 1) /\
  (-1 <= d.(recent_avg_reward) <= 1) /\
  (r.(pain_history) = [] -> d.(recent_avg_pain) = 1#2) /\
  (r.(reward_history) = [] -> d.(recent_avg_reward) = 0).
Proof.
  intros Hp Hph Hrh. cbv zeta. unfold get_diagnostic. cbn [stability_index recent_avg_pain recent_avg_reward].
  split; [|split; [|split; [|split]]].
  - set (x := pain_level (state r)) in *.
    destruct (Qlt_le_dec x (1#2)).
    + rewrite Qabs_neg by lra. lra.
    + rewrite Qabs_pos by lra. lra.
  - apply average_bounds; [lra|].
    apply Forall_map. unfold last_n. apply Forall_skipn. exact Hph.
  - apply average_bounds; [lra|].
    apply Forall_map. unfold last_n. apply Forall_skipn. exact Hrh.
  - intros E. rewrite E. reflexivity.
  - intros E. rewrite E. reflexivity.
Qed.

Lemma diagnostic_ranges_witness :
  let r := mkReg (mkState (9#10) (5#10) (7#10) (6#10) (4#10) (9#10) (8#10) 0 0)
             [mkReward "t0" (-1) "pain" (1#2); mkReward "t1" 1 "joy" 1]
             [mkPain "t0" 1; mkPain "t1" 0] [] None in
  ((0 <= r.(state).(pain_level) <= 1) /\
   Forall (fun e => 0 <= e.(pn_pain) <= 1) r.(pain_history) /\
   Forall (fun e => -1 <= e.(rw_reward) <= 1) r.(reward_history)) /\
  let d := get_diagnostic r in
  (0 <= d.(stability_index) <= 1) /\ (0 <= d.(recent_avg_pain) <= 1) /\
  (-1 <= d.(recent_avg_reward) <= 1) /\
  (r.(pain_history) = [] -> d.(recent_avg_pain) = 1#2) /\
  (r.(reward_history) = [] -> d.(recent_avg_reward) = 0).
Proof.
  cbv zeta. split.
  - cbn. repeat constructor; cbn; lra.
  - apply diagnostic_ranges; cbn; repeat constructor; cbn; lra.
Defined.

(** [force_reset] leaves the regulator a fresh start would build from a
    missing file: default state, empty logs, the default state written
    to the file; its diagnostic then reports no interaction, an average
    reward of 0, an average pain of 0.5, no adjustment, a stability of
    1 and the default sampling parameters. *)
Theorem force_reset_diagnostic (now : string) (r : Regulator) :
  force_reset now r = fresh_regulator now /\
  (force_reset now r).(state_file) = Some (mkSaved default_state [] [] [] now) /\
  let d := get_diagnostic (force_reset now r) in
  d.(total_interactions) = 0%nat /\ d.(recent_avg_reward) = 0 /\
  d.(recent_avg_pain) = 1#2 /\ d.(last_adjustments) = [] /\ d.(stability_index) == 1 /\
  d.(llm_config) = [("temperature", 9#10); ("top_p", 8#10);
                    ("frequency_penalty", 0); ("presence_penalty", 0)].
Proof.
  repeat split; reflexivity.
Qed.

(** Serialising a state with [to_dict] and reading it back with
    [from_dict] gives the same state; [from_dict({})] is the default
    state. *)
Theorem from_dict_round_trip (s : HomeostaticState) :
  from_dict (LLMWrapper.to_dict s) = Done s /\ from_dict [] = Done default_state.
Proof. split; [apply from_dict_to_dict | reflexivity]. Qed.

(** What [_save_state] writes, [_load_state] reads back: a regulator
    built from the file written by any save gets the saved state and the
    last 100 rewards, the last 100 pains and the last 50 adjustment
    records. *)
Theorem load_after_save (now now' : string) (r : Regulator) :
  exists sv, (save_state now r).(state_file) = Some sv /\
    init_regulator now' (FileJson (dump sv)) =
    Done (mkReg r.(state) (last_n 100 r.(reward_history)) (last_n 100 r.(pain_history))
            (last_n 50 r.(adjustment_log)) None).
Proof.
  eexists. split; [reflexivity|].
  unfold init_regulator, dump. cbn [jd_state sv_state jd_reward_history jd_pain_history
    jd_adjustment_log sv_reward_history sv_pain_history sv_adjustment_log get_list].
  rewrite from_dict_to_dict. reflexivity.
Qed.

(** For the state files [state_file_content] describes (a missing
    file, UTF-8 text that is not JSON, or a JSON object whose ['state']
    value, when present, is an object of numbers and whose logs, when
    present, are lists of log records), building a regulator raises
    exactly when the ['state'] object holds a key that is no field of
    [HomeostaticState] ([TypeError], not caught by [_load_state]); a
    missing file, text that is not JSON or a missing ['state'] key give
    a fresh regulator instead.  Other JSON shapes (a top-level list, a
    null ['state'], a non-numeric pain level) are outside this model. *)
Theorem init_raises_iff (now : string) (f : state_file_content) :
  (exists e, init_regulator now f = Raised e) <->
  (exists d sd k, f = FileJson d /\ d.(jd_state) = Some sd /\
                  In k (map fst sd) /\ ~ In k field_names).
Proof.
  split.
  - intros [e He]. destruct f as [| |d]; cbn in He; try discriminate.
    destruct (jd_state d) as [sd|] eqn:Es; [|discriminate].
    unfold from_dict in He.
    destruct (find _ sd) as [[k v]|] eqn:Ef; [|discriminate].
    apply find_some in Ef as [Hin Hk]. cbn [fst] in Hk.
    exists d, sd, k. split; [reflexivity|]. split; [exact Es|]. split.
    + apply in_map_iff. exists (k, v). auto.
    + intros Hk'. apply negb_true_iff in Hk.
      assert (existsb (String.eqb k) field_names = true)
        by (apply existsb_exists; exists k; split; [exact Hk'|apply String.eqb_refl]).
      congruence.
  - intros (d & sd & k & -> & Es & Hin & Hk). cbn. rewrite Es. unfold from_dict.
    destruct (find _ sd) as [[k' v']|] eqn:Ef; [eauto|].
    exfalso. apply in_map_iff in Hin as ([k0 v0] & Ek & Hin). cbn in Ek; subst k0.
    pose proof (find_none _ _ Ef (k, v0) Hin) as H. cbn [fst] in H.
    apply negb_false_iff, existsb_exists in H as (k1 & Hk1 & Ek1).
    apply String.eqb_eq in Ek1; subst k1. contradiction.
Qed.

End HomeostasisMoreFacts.

(* ================================================================== *)
(** * The sampling arguments of [LLMWrapper.generate] *)

Module LLMGenerateFacts.

Import LLMWrapper LLMGenerate.
Open Scope Q_scope.
Open Scope string_scope.
Open Scope list_scope.

Lemma dict_get_absent (d : dict) (key : string) (default : Q) :
  ~ In key (map fst d) -> dict_get d key default = default.
Proof.
  induction d as [|[k v] d IH]; intros H; cbn; [reflexivity|].
  destruct (String.eqb k key) eqn:E.
  - apply String.eqb_eq in E. subst. exfalso. apply H. now left.
  - apply IH. intros H'. apply H. now right.
Qed.

(** Called as the main loop calls it, with [inner_state] the state's
    [to_dict()], [generate] samples with the state's temperature and
    top_p (the configuration's are not used), the configuration's
    max_tokens, and the full model exactly when the state's pain level
    exceeds 0.6; the [pain_score] argument plays no part. *)
Theorem generate_args_from_state (config : LLMConfig) (pain_score : Q)
    (s : Homeostasis.HomeostaticState) :
  generate_args config pain_score (Some (to_dict s)) =
  mkArgs (if Homeostasis.Qlt_bool (6#10) s.(Homeostasis.pain_level) then ALT_MODEL else DEFAULT_MODEL)
    s.(Homeostasis.temperature) config.(max_tokens) s.(Homeostasis.top_p).
Proof. destruct s. reflexivity. Qed.

(** Without [inner_state] (or with an empty one) the model follows
    [pain_score] and the configuration's temperature and top_p are
    used; with a non-empty [inner_state] that has no ['pain_level'] key
    the small model is chosen whatever [pain_score] is. *)
Theorem generate_args_model_choice (config : LLMConfig) (pain_score : Q) (d : dict) :
  (forall inner, inner = None \/ inner = Some [] ->
     generate_args config pain_score inner =
     mkArgs (if Homeostasis.Qlt_bool (6#10) pain_score then ALT_MODEL else DEFAULT_MODEL)
       config.(temperature) config.(max_tokens) config.(top_p)) /\
  (d <> [] -> ~ In "pain_level" (map fst d) ->
     (generate_args config pain_score (Some d)).(arg_model) = DEFAULT_MODEL).
Proof.
  split.
  - intros inner [-> | ->]; reflexivity.
  - intros Hne Hk. destruct d as [|kv d']; [contradiction|].
    unfold generate_args. cbn [arg_model]. unfold pick_model.
    rewrite dict_get_absent by exact Hk. reflexivity.
Qed.

Lemma generate_args_model_choice_witness :
  let d := [("temperature", 12#10); ("top_p", 1)] in
  (d <> [] /\ ~ In "pain_level" (map fst d)) /\
  ((forall inner, inner = None \/ inner = Some [] ->
     generate_args default_config 1 inner =
     mkArgs (if Homeostasis.Qlt_bool (6#10) 1 then ALT_MODEL else DEFAULT_MODEL)
       default_config.(temperature) default_config.(max_tokens) default_config.(top_p)) /\
   (d <> [] -> ~ In "pain_level" (map fst d) ->
     (generate_args default_config 1 (Some d)).(arg_model) = DEFAULT_MODEL)).
Proof.
  cbv zeta. split.
  - split; [discriminate|]. cbn. intros [H|[H|[]]]; discriminate.
  - exact (generate_args_model_choice default_config 1 _).
Defined.

End LLMGenerateFacts.

(* ================================================================== *)
(** * More of the reward engine: ranges, memory, bonus *)

Module RewardEngineMoreFacts.

Import PyStr RewardEngine RewardEngineFacts.
Import Stdlib.Reals.Reals Stdlib.micromega.Lra.
Open Scope R_scope.
Open Scope string_scope.
Open Scope list_scope.

Lemma existsb_Zeqb_In (c : Z) (l : list Z) : existsb (Z.eqb c) l = true <-> In c l.
Proof.
  rewrite existsb_exists. split.
  - intros (x & Hx & E). apply Z.eqb_eq in E. subst. exact Hx.
  - intros H. exists c. split; [exact H|apply Z.eqb_refl].
Qed.

Lemma distinct_chars_acc_NoDup (s seen : pystr) :
  NoDup seen -> NoDup (distinct_chars_acc s seen).
Proof.
  revert seen; induction s as [|c s IH]; intros seen H; cbn.
  - apply NoDup_rev, H.
  - destruct (existsb (Z.eqb c) seen) eqn:E; apply IH; [exact H|].
    constructor; [|exact H].
    intros Hin. apply existsb_Zeqb_In in Hin. congruence.
Qed.

Lemma distinct_chars_acc_complete (s seen : pystr) (c : Z) :
  In c s \/ In c seen -> In c (distinct_chars_acc s seen).
Proof.
  revert seen; induction s as [|d s IH]; intros seen H; cbn.
  - rewrite <- in_rev. destruct H as [[]|H]; exact H.
  - destruct (existsb (Z.eqb d) seen) eqn:E; apply IH.
    + destruct H as [[<-|H]|H]; [right; apply existsb_Zeqb_In, E|left; exact H|right; exact H].
    + destruct H as [[<-|H]|H]; [right; left; reflexivity|left; exact H|right; right; exact H].
Qed.

Lemma indicator_sum_absent (D : list Z) (x : Z) :
  ~ In x D -> list_sum (map (fun c => if Z.eqb c x then 1%nat else 0%nat) D) = 0%nat.
Proof.
  induction D as [|d D IH]; intros H; cbn; [reflexivity|].
  destruct (Z.eqb_spec d x) as [->|_]; [exfalso; apply H; now left|].
  apply IH. intros H'. apply H. now right.
Qed.

Lemma indicator_sum_present (D : list Z) (x : Z) :
  NoDup D -> In x D -> list_sum (map (fun c => if Z.eqb c x then 1%nat else 0%nat) D) = 1%nat.
Proof.
  induction D as [|d D IH]; intros Hd H; cbn; [destruct H|].
  inversion Hd as [|? ? Hn Hd']; subst.
  destruct (Z.eqb_spec d x) as [->|Hne].
  - rewrite indicator_sum_absent by exact Hn. reflexivity.
  - destruct H as [->|H]; [congruence|]. apply IH; assumption.
Qed.

Lemma char_count_cons (c x : Z) (s : list Z) :
  char_count c (x :: s) = ((if Z.eqb c x then 1 else 0) + char_count c s)%nat.
Proof. unfold char_count. cbn [filter]. destruct (Z.eqb c x); reflexivity. Qed.

Lemma char_counts_sum (D s : list Z) :
  NoDup D -> (forall x, In x s -> In x D) ->
  list_sum (map (fun c => char_count c s) D) = List.length s.
Proof.
  intros Hd. induction s as [|x s IH]; intros Hs.
  - unfold char_count. cbn. clear. induction D; cbn; [reflexivity|exact IHD].
  - transitivity (list_sum (map (fun c => if Z.eqb c x then 1%nat else 0%nat) D)
                  + list_sum (map (fun c => char_count c s) D))%nat.
    + clear. induction D as [|d D IH]; cbn [map list_sum fold_right]; [reflexivity|].
      fold (list_sum (map (fun c => char_count c (x :: s)) D)).
      fold (list_sum (map (fun c => if Z.eqb c x then 1%nat else 0%nat) D)).
      fold (list_sum (map (fun c => char_count c s) D)).
      rewrite IH, char_count_cons. lia.
    + rewrite indicator_sum_present by (auto; apply Hs; now left).
      rewrite IH by (intros; apply Hs; now right). reflexivity.
Qed.

Lemma div_le_1 (a b : R) : 0 < b -> a <= b -> a / b <= 1.
Proof.
  intros Hb H. apply (Rmult_le_reg_r b _ _ Hb). unfold Rdiv.
  rewrite Rmult_assoc, Rinv_l by lra. lra.
Qed.

Lemma div_nonneg (a b : R) : 0 <= a -> 0 < b -> 0 <= a / b.
Proof.
  intros Ha Hb. unfold Rdiv. apply Rmult_le_pos; [exact Ha|left; apply Rinv_0_lt_compat, Hb].
Qed.

(** Gibbs' inequality in the form used below. *)
Lemma ln_le_pred (y : R) : 0 < y -> ln y <= y - 1.
Proof.
  intros H. pose proof (exp_ineq1_le (ln y)) as E. rewrite exp_ln in E by exact H. lra.
Qed.

Lemma gibbs (P : list R) (K : R) :
  0 < K -> Forall (Rlt 0) P ->
  - ln K * rsum P - rsum (map (fun p => p * ln p) P) <= INR (List.length P) / K - rsum P.
Proof.
  intros HK. induction P as [|p P IH]; intros HP; cbn [rsum map List.length].
  - rewrite Rdiv_0_l. lra.
  - inversion HP as [|? ? Hp HP']; subst. specialize (IH HP').
    assert (Hl : ln (/ (K * p)) <= / (K * p) - 1) by (apply ln_le_pred, Rinv_0_lt_compat, Rmult_lt_0_compat; lra).
    rewrite ln_Rinv, ln_mult in Hl by (try apply Rmult_lt_0_compat; lra).
    assert (Hm : p * (- ln K - ln p) <= p * (/ (K * p) - 1)) by (apply Rmult_le_compat_l; lra).
    assert (Hq : p * (/ (K * p) - 1) = / K - p) by (field; lra).
    rewrite S_INR. 
    assert (Hd : (INR (List.length P) + 1) / K = INR (List.length P) / K + / K) by (field; lra).
    rewrite Hd. nra.
Qed.

Lemma rsum_map_div {A : Type} (l : list A) (f : A -> R) (c : R) :
  rsum (map (fun x => f x / c) l) = rsum (map f l) / c.
Proof. induction l as [|x l IH]; cbn; [unfold Rdiv; ring|rewrite IH; unfold Rdiv; ring]. Qed.

Lemma rsum_INR (l : list nat) : rsum (map INR l) = INR (list_sum l).
Proof. induction l as [|x l IH]; cbn [rsum map list_sum fold_right]; [reflexivity|]. rewrite plus_INR, IH. reflexivity. Qed.

Lemma mapM_map_ok {A B} (f : A -> result B) (g : A -> B) (l : list A) :
  (forall x, In x l -> f x = Ok (g x)) -> mapM f l = Ok (map g l).
Proof.
  induction l as [|x l IH]; intros H; cbn; [reflexivity|].
  rewrite H by (now left). cbn [bind]. rewrite IH by (intros; apply H; now right). reflexivity.
Qed.

Lemma rsum_nonpos (l : list R) : Forall (fun x => x <= 0) l -> rsum l <= 0.
Proof. induction l as [|x l IH]; intros H; cbn; [lra|]. inversion H; subst. specialize (IH H3). lra. Qed.

Lemma fold_Rmax_bounds (l : list R) (a : R) :
  0 <= a <= 1 -> Forall (fun x => 0 <= x <= 1) l -> 0 <= fold_left Rmax l a <= 1.
Proof.
  revert a; induction l as [|x l IH]; intros a Ha Hl; cbn; [exact Ha|].
  inversion Hl; subst. apply IH; [|assumption].
  unfold Rmax. destruct (Rle_dec a x); lra.
Qed.

Lemma novelty_strict_spec (env : text_env) (self : RewardEngine) (response : pystr) :
  match memory_responses self with
  | [] => _calculate_novelty_strict env self response = Ok 1
  | _ :: _ =>
      match List.concat (map (analyze env) (response :: memory_responses self)) with
      | [] => _calculate_novelty_strict env self response = Err empty_vocabulary
      | _ :: _ => exists v, _calculate_novelty_strict env self response = Ok v /\ 0 <= v <= 1
      end
  end.
Proof.
  destruct self as [[|m ms]]; cbn [memory_responses]; [reflexivity|].
  unfold _calculate_novelty_strict. cbn [memory_responses].
  destruct (List.concat (map (analyze env) (response :: m :: ms))) as [|w l] eqn:E.
  - rewrite fit_transform_err by exact E. reflexivity.
  - rewrite fit_transform_ok by (rewrite E; discriminate).
    cbn [bind map hd tl]. eexists; split; [reflexivity|].
    match goal with |- 0 <= 1 - fold_left Rmax ?ss ?s0 <= 1 => 
      assert (B : 0 <= fold_left Rmax ss s0 <= 1) end; [|lra].
    apply fold_Rmax_bounds.
    + apply cosine_bounds; apply l2_normalize_nonneg, raw_row_nonneg.
    + apply Forall_forall. intros x Hx. apply in_map_iff in Hx as (y & <- & Hy).
      apply in_map_iff in Hy as (z & <- & _).
      apply cosine_bounds; apply l2_normalize_nonneg, raw_row_nonneg.
Qed.
Lemma entropy_spec (self : RewardEngine) (response : pystr) :
  match response with
  | [] => _calculate_entropy self response = Err math_domain_error
  | _ :: _ => exists v, _calculate_entropy self response = Ok v /\ 0 <= v <= 1
  end.
Proof.
  destruct response as [|c0 s0] eqn:Es; [apply entropy_empty|].
  rewrite <- Es. assert (Hs : response <> []) by (rewrite Es; discriminate).
  clear c0 s0 Es. rename response into s.
  set (n := INR (List.length s)).
  set (D := distinct_chars s).
  set (P := map (fun c => INR (char_count c s) / n) D).
  assert (Hn : 0 < n) by (apply lt_0_INR; destruct s; [congruence|cbn; lia]).
  assert (HD : NoDup D) by (apply distinct_chars_acc_NoDup; constructor).
  assert (Hc : forall x, In x s -> In x D) by (intros; apply distinct_chars_acc_complete; now left).
  assert (Hprob : map (fun '(_, count) => INR count / INR (List.length s)) (counter s) = P)
    by (unfold counter, P; rewrite map_map; reflexivity).
  assert (HP : forall p, In p P -> 0 < p <= 1).
  { intros p Hp. unfold P in Hp. apply in_map_iff in Hp as (c & <- & Hc').
    apply distinct_chars_acc_in in Hc' as [Hc'|[]].
    split.
    - apply Rdiv_pos_pos; [apply lt_0_INR; pose proof (char_count_pos s c Hc'); lia|exact Hn].
    - apply div_le_1; [exact Hn|]. apply le_INR. apply filter_length_le. }
  assert (HsumP : rsum P = 1).
  { unfold P. rewrite (rsum_map_div D (fun c => INR (char_count c s)) n).
    rewrite <- (map_map (fun c => char_count c s) INR), rsum_INR, char_counts_sum by assumption.
    apply Rdiv_diag. lra. }
  assert (HlenP : List.length P = List.length D) by apply length_map.
  assert (HkD : (1 <= List.length D)%nat).
  { pose proof (distinct_chars_acc_nonempty s [] (or_introl Hs)) as N.
    fold (distinct_chars s) in N. fold D in N. destruct D; [congruence|cbn; lia]. }
  set (k := INR (List.length D)).
  assert (Hk : 1 <= k) by (apply (le_INR 1); exact HkD).
  assert (Hl2 : 0 < ln 2) by (rewrite <- ln_1; apply ln_increasing; lra).
  unfold _calculate_entropy. cbv zeta. rewrite Hprob.
  rewrite (mapM_map_ok _ (fun p => p * (ln p / ln 2))).
  2:{ intros p Hp. rewrite math_log2_pos by (apply HP, Hp). reflexivity. }
  cbn [bind]. fold D. fold k. rewrite math_log2_pos by lra. cbn [bind].
  eexists; split; [reflexivity|].
  assert (Hterms : rsum (map (fun p => p * (ln p / ln 2)) P) = rsum (map (fun p => p * ln p) P) / ln 2).
  { rewrite <- rsum_map_div. f_equal. apply map_ext. intros p. unfold Rdiv. ring. }
  assert (Hneg : rsum (map (fun p => p * ln p) P) <= 0).
  { apply rsum_nonpos, Forall_forall. intros x Hx. apply in_map_iff in Hx as (p & <- & Hp).
    destruct (HP p Hp) as [Hp0 Hp1].
    assert (ln p <= 0).
    { destruct (Rle_lt_or_eq_dec p 1 Hp1) as [h|E].
      - rewrite <- ln_1. left. apply ln_increasing; lra.
      - rewrite E, ln_1. lra. }
    nra. }
  assert (Hgibbs : - rsum (map (fun p => p * ln p) P) <= ln k).
  { pose proof (gibbs P k ltac:(lra)) as G.
    assert (Forall (Rlt 0) P) by (apply Forall_forall; intros p Hp; apply HP, Hp).
    specialize (G H). rewrite HsumP, HlenP in G. fold k in G.
    rewrite Rdiv_diag in G by lra. lra. }
  rewrite Hterms.
  destruct (Rlt_dec 0 (ln k / ln 2)) as [Hpos|Hnp]; [|lra].
  assert (Hlk : 0 < ln k) by (apply (Rmult_lt_reg_r (/ ln 2)); [apply Rinv_0_lt_compat; lra|]; lra).
  split.
  - apply div_nonneg; [|exact Hpos].
    replace (- (rsum (map (fun p => p * ln p) P) / ln 2))
      with ((- rsum (map (fun p => p * ln p) P)) / ln 2) by (field; lra).
    apply div_nonneg; lra.
  - apply div_le_1; [exact Hpos|].
    replace (- (rsum (map (fun p => p * ln p) P) / ln 2))
      with ((- rsum (map (fun p => p * ln p) P)) / ln 2) by (field; lra).
    unfold Rdiv. apply Rmult_le_compat_r; [left; apply Rinv_0_lt_compat; lra|exact Hgibbs].
Qed.

(** [_calculate_novelty_strict] returns 1.0 on an empty history; with a
    history it raises [ValueError] (empty vocabulary) exactly when neither
    the response nor any remembered response has a vocabulary term, and
    otherwise returns a novelty of at most 1 (one minus a non-negative
    cosine). *)
Theorem novelty_range (env : text_env) (self : RewardEngine) (response : pystr) :
  match memory_responses self with
  | [] => _calculate_novelty_strict env self response = Ok 1
  | _ :: _ =>
      match List.concat (map (analyze env) (response :: memory_responses self)) with
      | [] => _calculate_novelty_strict env self response = Err empty_vocabulary
      | _ :: _ => exists v, _calculate_novelty_strict env self response = Ok v /\ v <= 1
      end
  end.
Proof.
  pose proof (novelty_strict_spec env self response) as C.
  destruct (memory_responses self) as [|m ms]; [exact C|].
  destruct (List.concat _) as [|w l]; [exact C|].
  destruct C as (v & E & B). exists v. split; [exact E|lra].
Qed.

(** [_calculate_entropy] raises [ValueError] on the empty string and on
    any other string returns a non-negative normalised entropy. *)
Theorem entropy_range (self : RewardEngine) (response : pystr) :
  match response with
  | [] => _calculate_entropy self response = Err math_domain_error
  | _ :: _ => exists v, _calculate_entropy self response = Ok v /\ 0 <= v
  end.
Proof.
  pose proof (entropy_spec self response) as C.
  destruct response as [|c s]; [exact C|].
  destruct C as (v & E & B). exists v. split; [exact E|lra].
Qed.

Lemma argmax_in {A : Type} (f : A -> nat) (rest : list A) (init : A) :
  In (fold_left (fun best kc => if Nat.ltb (f best) (f kc) then kc else best) rest init)
     (init :: rest).
Proof.
  revert init; induction rest as [|x rest IH]; intros init; cbn [fold_left]; [now left|].
  destruct (Nat.ltb (f init) (f x)).
  - right. apply IH.
  - destruct (IH init) as [E|E]; [now left|right; right; exact E].
Qed.

Lemma py_min_1_bounds (x : R) : 0 <= x -> 0 <= py_min 1 x <= 1.
Proof. intros H. unfold py_min. destruct (Rlt_dec x 1); lra. Qed.

Lemma emotional_intensity_spec (env : text_env) (self : RewardEngine) (response : pystr) :
  0 <= fst (_detect_emotional_intensity env self response) <= 1 /\
  In (snd (_detect_emotional_intensity env self response)) (map fst emotional_words).
Proof.
  unfold _detect_emotional_intensity.
  remember (map (fun '(emotion, words) =>
           (emotion, fold_left (fun acc word => (acc + py_count (py_lower env response) word)%nat)
                       words O)) emotional_words) as ec eqn:Eec.
  assert (Hfst : map fst ec = map fst emotional_words).
  { subst ec. rewrite map_map. apply map_ext. intros [e w]. reflexivity. }
  clear Eec. destruct ec as [|[k0 c0] rest]; [discriminate Hfst|].
  cbn [fst snd]. split.
  - apply py_min_1_bounds. apply div_nonneg; [apply pos_INR|lra].
  - rewrite <- Hfst. apply in_map.
    exact (argmax_in snd rest (k0, c0)).
Qed.

(** [_detect_emotional_intensity] returns an intensity in [0, 1] and a tag that is always one of the five keys of [emotional_words]; "neutre" is never returned. *)
Theorem emotional_intensity_range (env : text_env) (self : RewardEngine) (response : pystr) :
  let '(intensity, tag) := _detect_emotional_intensity env self response in
  0 <= intensity <= 1 /\
  In tag ["joy"; "pain"; "curiosity"; "frustration"; "wonder"]%string.
Proof.
  pose proof (emotional_intensity_spec env self response) as H.
  destruct (_detect_emotional_intensity env self response) as [i t]. exact H.
Qed.

Lemma bonus_creation_levels (self : RewardEngine) (a : option artifact) :
  bonus_creation self a = 0 \/ bonus_creation self a = 0.1 \/ bonus_creation self a = 0.2 \/
  bonus_creation self a = 0.3 \/ bonus_creation self a = 0.4.
Proof.
  unfold bonus_creation. destruct a as [d|]; [|now left].
  destruct (_ && _ && _); [|now left].
  destruct (Nat.ltb 100 _); [tauto|]. destruct (Nat.ltb 50 _); [tauto|].
  destruct (Nat.ltb 20 _); tauto.
Qed.

(** [bonus_creation] lies in [0, 0.4]; it is positive exactly when the artifact is a dict whose "type" and "content" are non-empty strings. *)
Theorem bonus_creation_cases (self : RewardEngine) (a : option artifact) :
  0 <= bonus_creation self a <= 0.4 /\
  (0 < bonus_creation self a <->
   exists d, a = Some d /\ str_truthy (dict_get d "type") = true /\
             str_truthy (dict_get d "content") = true).
Proof.
  split; [destruct (bonus_creation_levels self a) as [E|[E|[E|[E|E]]]]; rewrite E; lra|].
  unfold bonus_creation. split.
  - destruct a as [d|]; [|lra].
    destruct (artifact_truthy (Some d) && str_truthy (dict_get d "type")
              && str_truthy (dict_get d "content")) eqn:E; [|lra].
    intros _. exists d. apply andb_prop in E as [E Hc]. apply andb_prop in E as [_ Ht].
    auto.
  - intros (d & -> & Ht & Hc). rewrite Ht, Hc.
    assert (Ha : artifact_truthy (Some d) = true).
    { destruct d; [cbn in Ht; discriminate|reflexivity]. }
    rewrite Ha. cbn [andb].
    destruct (Nat.ltb 100 _); [lra|]. destruct (Nat.ltb 50 _); [lra|].
    destruct (Nat.ltb 20 _); lra.
Qed.

(** For two artifacts with a non-empty "type" and a non-empty "content", the one with the longer content never gets a smaller [bonus_creation]. *)
Theorem bonus_creation_monotone (self : RewardEngine) (d1 d2 : artifact) (c1 c2 : pystr)
    (Ht1 : str_truthy (dict_get d1 "type") = true)
    (Ht2 : str_truthy (dict_get d2 "type") = true)
    (Hc1 : dict_get d1 "content" = Some c1) (Hc2 : dict_get d2 "content" = Some c2)
    (Hne : c1 <> []) (Hle : (List.length c1 <= List.length c2)%nat) :
  bonus_creation self (Some d1) <= bonus_creation self (Some d2).
Proof.
  assert (Hne2 : c2 <> []) by (destruct c2; [destruct c1; [congruence|cbn in Hle; lia]|discriminate]).
  assert (T : forall d c, str_truthy (dict_get d "type") = true -> dict_get d "content" = Some c ->
            c <> [] ->
            bonus_creation self (Some d) =
            if Nat.ltb 100 (List.length c) then 0.4
            else if Nat.ltb 50 (List.length c) then 0.3
            else if Nat.ltb 20 (List.length c) then 0.2 else 0.1).
  { intros d c Ht Hc Hn. unfold bonus_creation. rewrite Ht, Hc.
    assert (Ha : artifact_truthy (Some d) = true).
    { destruct d; [cbn in Ht; discriminate|reflexivity]. }
    rewrite Ha. destruct c; [congruence|reflexivity]. }
  rewrite (T d1 c1), (T d2 c2) by assumption.
  destruct (Nat.ltb_spec 100 (List.length c1)), (Nat.ltb_spec 100 (List.length c2)); try lia; try lra;
  destruct (Nat.ltb_spec 50 (List.length c1)), (Nat.ltb_spec 50 (List.length c2)); try lia; try lra;
  destruct (Nat.ltb_spec 20 (List.length c1)), (Nat.ltb_spec 20 (List.length c2)); try lia; lra.
Qed.

Lemma bonus_creation_monotone_witness :
  let d1 := [("type"%string, of_ascii "poeme"); ("content"%string, of_ascii "court")] in
  let d2 := [("type"%string, of_ascii "poeme");
             ("content"%string, of_ascii "un poeme de plus de vingt caracteres")] in
  (str_truthy (dict_get d1 "type") = true /\ str_truthy (dict_get d2 "type") = true /\
   dict_get d1 "content" = Some (of_ascii "court") /\
   dict_get d2 "content" = Some (of_ascii "un poeme de plus de vingt caracteres") /\
   of_ascii "court" <> [] /\
   (List.length (of_ascii "court") <= List.length (of_ascii "un poeme de plus de vingt caracteres"))%nat) /\
  bonus_creation new_engine (Some d1) <= bonus_creation new_engine (Some d2).
Proof.
  cbv zeta. split.
  - repeat split; try reflexivity; [discriminate|cbn; lia].
  - apply (bonus_creation_monotone new_engine _ _ (of_ascii "court")
             (of_ascii "un poeme de plus de vingt caracteres"));
      try reflexivity; [discriminate|cbn; lia].
Defined.

Lemma novelty_ok_bounds (env : text_env) (self : RewardEngine) (response : pystr) (v : R) :
  _calculate_novelty_strict env self response = Ok v -> 0 <= v <= 1.
Proof.
  pose proof (novelty_strict_spec env self response) as C. intros H.
  destruct (memory_responses self) as [|m ms].
  - rewrite H in C. injection C as ->. lra.
  - destruct (List.concat _) as [|w l].
    + rewrite H in C. discriminate.
    + destruct C as (v' & E & B). rewrite H in E. injection E as <-. exact B.
Qed.

Lemma entropy_ok_bounds (self : RewardEngine) (response : pystr) (v : R) :
  _calculate_entropy self response = Ok v -> 0 <= v <= 1.
Proof.
  pose proof (entropy_spec self response) as C. intros H.
  destruct response as [|c s].
  - rewrite H in C. discriminate.
  - destruct C as (v' & E & B). rewrite H in E. injection E as <-. exact B.
Qed.

Lemma relevance_ok_bounds (env : text_env) (self : RewardEngine) (prompt response : pystr) (v : R) :
  _calculate_relevance env self prompt response = Ok v -> 0 <= v <= 1.
Proof.
  pose proof (relevance_cases env self prompt response) as C. intros H.
  destruct (analyze env prompt ++ analyze env response) as [|w l].
  - rewrite H in C. discriminate.
  - destruct C as (v' & E & B). rewrite H in E. injection E as <-. exact B.
Qed.

Lemma calculate_reward_ok (env : text_env) (self : RewardEngine) (prompt response : pystr)
    (goal_state : string) (a : option artifact) (out : reward_result) (self' : RewardEngine) :
  calculate_reward env self prompt response goal_state a = Ok (out, self') ->
  exists nov rel ent,
    _calculate_novelty_strict env self response = Ok nov /\
    _calculate_relevance env self prompt response = Ok rel /\
    _calculate_entropy self response = Ok ent /\
    let '(intensity, tag) := _detect_emotional_intensity env self response in
    let words := List.length (py_split response) in
    let coherence := if Nat.ltb 10 words then py_min 1 (INR words / 100) else 0.3 in
    metrics out = mkRewardMetrics nov rel ent coherence intensity /\
    -1 <= final_reward out <= 1 /\
    pain_level out = 1 - ((final_reward out + 1) / 2) /\
    let memory := memory_responses self ++ [response] in
    memory_responses self' =
      if Nat.ltb 50 (List.length memory) then skipn (List.length memory - 25) memory
      else memory.
Proof.
  unfold calculate_reward.
  destruct (_calculate_novelty_strict env self response) as [nov|e]; cbn [bind]; [|discriminate].
  destruct (_calculate_relevance env self prompt response) as [rel|e]; cbn [bind]; [|discriminate].
  destruct (_calculate_entropy self response) as [ent|e]; cbn [bind]; [|discriminate].
  destruct (_detect_emotional_intensity env self response) as [intensity tag].
  intros H. exists nov, rel, ent. split; [reflexivity|]. split; [reflexivity|].
  split; [reflexivity|].
  destruct (Rlt_dec nov 0.35); injection H as <- <-; cbn [metrics final_reward pain_level memory_responses];
    (split; [reflexivity|]); (split; [|split; reflexivity]); [lra|].
  unfold py_max, py_min. destruct (Rlt_dec _ 1); destruct (Rlt_dec (-1) _); lra.
Qed.

(** When [calculate_reward] returns, the reward lies in [-1, 1], the pain level in [0, 1], the novelty is at most 1, the relevance and entropy are non-negative, the emotional intensity lies in [0, 1] and the coherence in [0.11, 1]. *)
Theorem calculate_reward_ranges (env : text_env) (self : RewardEngine) (prompt response : pystr)
    (goal_state : string) (a : option artifact) (out : reward_result) (self' : RewardEngine)
    (H : calculate_reward env self prompt response goal_state a = Ok (out, self')) :
  -1 <= final_reward out <= 1 /\ 0 <= pain_level out <= 1 /\
  novelty_score (metrics out) <= 1 /\ 0 <= relevance_score (metrics out) /\
  0 <= entropy_score (metrics out) /\ 0.11 <= coherence_score (metrics out) <= 1 /\
  0 <= emotional_intensity (metrics out) <= 1.
Proof.
  pose proof (emotional_intensity_spec env self response) as [Hi _].
  destruct (calculate_reward_ok env self prompt response goal_state a out self' H)
    as (nov & rel & ent & Hn & Hr & He & R).
  apply novelty_ok_bounds in Hn. apply relevance_ok_bounds in Hr. apply entropy_ok_bounds in He.
  destruct (_detect_emotional_intensity env self response) as [intensity tag].
  cbn [fst] in Hi. cbv zeta in R. destruct R as (Hm & Hfr & Hp & _).
  rewrite Hm. cbn [novelty_score relevance_score entropy_score coherence_score emotional_intensity].
  split; [exact Hfr|]. split; [rewrite Hp; lra|].
  split; [lra|]. split; [lra|]. split; [lra|]. split; [|assumption].
  destruct (Nat.ltb_spec 10 (List.length (py_split response))) as [Hw|Hw]; [|lra].
  unfold py_min. destruct (Rlt_dec _ 1); [|lra].
  assert (H11 : INR 11 <= INR (List.length (py_split response))) by (apply le_INR; lia).
  assert (E11 : INR 11 = 11) by (cbn; lra). lra.
Qed.

(** After a [calculate_reward] that returns, the memory holds at most 50 responses, ends with the new response and is a suffix of the old memory followed by it; below 50 remembered responses nothing is dropped, and from 50 on only the last 25 are kept. *)
Theorem calculate_reward_memory (env : text_env) (self : RewardEngine) (prompt response : pystr)
    (goal_state : string) (a : option artifact) (out : reward_result) (self' : RewardEngine)
    (H : calculate_reward env self prompt response goal_state a = Ok (out, self')) :
  let memory := memory_responses self ++ [response] in
  (List.length (memory_responses self') <= 50)%nat /\
  (exists dropped, memory = dropped ++ memory_responses self') /\
  last (memory_responses self') [] = response /\
  ((List.length (memory_responses self) < 50)%nat -> memory_responses self' = memory) /\
  ((50 <= List.length (memory_responses self))%nat -> List.length (memory_responses self') = 25%nat).
Proof.
  destruct (calculate_reward_ok env self prompt response goal_state a out self' H)
    as (nov & rel & ent & _ & _ & _ & R).
  destruct (_detect_emotional_intensity env self response) as [intensity tag].
  cbv zeta in *. destruct R as (_ & _ & _ & Hm). rewrite Hm. clear Hm H.
  set (m := memory_responses self).
  assert (HL : List.length (m ++ [response]) = S (List.length m))
    by (rewrite length_app; cbn; lia).
  rewrite HL.
  destruct (Nat.ltb_spec 50 (S (List.length m))) as [Hlt|Hge].
  - assert (Hk : (S (List.length m) - 25 <= List.length m)%nat) by lia.
    assert (Hs : skipn (S (List.length m) - 25) (m ++ [response]) =
                 skipn (S (List.length m) - 25) m ++ [response]).
    { rewrite skipn_app. replace (S (List.length m) - 25 - List.length m)%nat with 0%nat by lia.
      reflexivity. }
    rewrite Hs. repeat split.
    + rewrite length_app, length_skipn. cbn. lia.
    + exists (firstn (S (List.length m) - 25) m).
      rewrite app_assoc, firstn_skipn. reflexivity.
    + apply last_last.
    + intros. lia.
    + intros _. rewrite length_app, length_skipn. cbn. lia.
  - repeat split.
    + rewrite HL. lia.
    + exists []. reflexivity.
    + apply last_last.
    + intros H50. lia.
Qed.

(** [calculate_reward] does not raise when the response is non-empty and has at least one vocabulary term (a word of two or more word characters that is not a stop word), whatever the prompt, the memory and the artifact. *)
Theorem calculate_reward_returns (env : text_env) (self : RewardEngine) (prompt response : pystr)
    (goal_state : string) (a : option artifact)
    (Hr : response <> []) (Hv : analyze env response <> []) :
  exists out self', calculate_reward env self prompt response goal_state a = Ok (out, self').
Proof.
  assert (Hn : exists nov, _calculate_novelty_strict env self response = Ok nov).
  { pose proof (novelty_strict_spec env self response) as C.
    destruct (memory_responses self) as [|m ms]; [eauto|].
    destruct (List.concat (map (analyze env) (response :: m :: ms))) as [|w l] eqn:E.
    - cbn [map List.concat] in E. apply app_eq_nil in E as [E _]. contradiction.
    - destruct C as (v & C & _). eauto. }
  assert (Hrel : exists rel, _calculate_relevance env self prompt response = Ok rel).
  { pose proof (relevance_cases env self prompt response) as C.
    destruct (analyze env prompt ++ analyze env response) as [|w l] eqn:E.
    - apply app_eq_nil in E as [_ E]. contradiction.
    - destruct C as (v & C & _). eauto. }
  destruct Hn as (nov & Hn). destruct Hrel as (rel & Hrel).
  destruct (entropy_ok self response Hr) as (ent & He).
  unfold calculate_reward. rewrite Hn, Hrel, He. cbn [bind].
  destruct (_detect_emotional_intensity env self response) as [intensity tag].
  destruct (Rlt_dec nov 0.35); eauto.
Qed.

Lemma calculate_reward_ranges_witness :
  exists out self',
    calculate_reward latin1_env (mkRewardEngine [of_ascii "chat"]) (of_ascii "chat")
      (of_ascii "chat") "comprehension_profonde"%string None = Ok (out, self') /\
    (-1 <= final_reward out <= 1 /\ 0 <= pain_level out <= 1 /\
     novelty_score (metrics out) <= 1 /\ 0 <= relevance_score (metrics out) /\
     0 <= entropy_score (metrics out) /\ 0.11 <= coherence_score (metrics out) <= 1 /\
     0 <= emotional_intensity (metrics out) <= 1).
Proof.
  destruct repeated_chat_run as (out & self' & H & _).
  exists out, self'. split; [exact H|].
  exact (calculate_reward_ranges _ _ _ _ _ _ out self' H).
Defined.

Lemma calculate_reward_memory_witness :
  exists out self',
    calculate_reward latin1_env (mkRewardEngine [of_ascii "chat"]) (of_ascii "chat")
      (of_ascii "chat") "comprehension_profonde"%string None = Ok (out, self') /\
    let memory := [of_ascii "chat"] ++ [of_ascii "chat"] in
    (List.length (memory_responses self') <= 50)%nat /\
    (exists dropped, memory = dropped ++ memory_responses self') /\
    last (memory_responses self') [] = of_ascii "chat" /\
    ((List.length [of_ascii "chat"] < 50)%nat -> memory_responses self' = memory) /\
    ((50 <= List.length [of_ascii "chat"])%nat -> List.length (memory_responses self') = 25%nat).
Proof.
  destruct repeated_chat_run as (out & self' & H & _).
  exists out, self'. split; [exact H|].
  exact (calculate_reward_memory _ _ _ _ _ _ out self' H).
Defined.

Lemma calculate_reward_returns_witness :
  (of_ascii "chat" <> [] /\ analyze latin1_env (of_ascii "chat") <> []) /\
  exists out self',
    calculate_reward latin1_env new_engine (of_ascii "Bonjour") (of_ascii "chat")
      "comprehension_profonde"%string None = Ok (out, self').
Proof.
  assert (Hr : of_ascii "chat" <> []) by discriminate.
  assert (Hv : analyze latin1_env (of_ascii "chat") <> []) by (vm_compute; discriminate).
  split; [split; assumption|].
  exact (calculate_reward_returns latin1_env new_engine (of_ascii "Bonjour") (of_ascii "chat")
           "comprehension_profonde"%string None Hr Hv).
Defined.

End RewardEngineMoreFacts.

(* ------------------------------------------------------------------ *)
(** * More of the critical analyzer: score ranges, feedback, history, trends *)

Module CriticalAnalyzerFacts.

Import PyStr Homeostasis HomeostasisFacts HomeostasisMore HomeostasisMoreFacts CriticalAnalyzer.
Open Scope Q_scope.
Open Scope list_scope.


Lemma Qlt_bool_spec (a b : Q) : (Qlt_bool a b = true /\ a < b) \/ (Qlt_bool a b = false /\ b <= a).
Proof.
  destruct (Qlt_bool a b) eqn:E; [left|right]; split; try reflexivity;
    [apply Qlt_bool_true|apply Qlt_bool_false]; exact E.
Qed.

Lemma suggest_temperature_bounds (r : AnalysisResult) :
  6#10 <= _suggest_temperature r <= 1.
Proof.
  unfold _suggest_temperature.
  destruct (Qlt_bool (6#10) (redundancy_score r)), (Qlt_bool (surprise_factor r) (4#10)),
    (Qlt_bool (coherence_score r) (4#10)), (Qlt_bool (complexity_score r) (3#10));
  match goal with |- _ <= py_max ?a (py_min ?b ?x) <= _ =>
    destruct (py_min_cases b x) as [[-> H1]|[-> H1]];
    [destruct (py_max_cases a b) as [[-> H2]|[-> H2]]|destruct (py_max_cases a x) as [[-> H2]|[-> H2]]] end;
  lra.
Qed.

Lemma segment_nil (c1 c2 : bool) (m1 m2 : pystr) :
  (if c1 then [m1] else if c2 then [m2] else []) = [] <-> c1 = false /\ c2 = false.
Proof. destruct c1, c2; cbn; split; intros H; try discriminate; try (destruct H; discriminate); auto. Qed.

Lemma segment_forall (P : pystr -> Prop) (c1 c2 : bool) (m1 m2 : pystr) :
  P m1 -> P m2 -> Forall P (if c1 then [m1] else if c2 then [m2] else []).
Proof. intros. destruct c1, c2; repeat constructor; assumption. Qed.

Lemma join_hd (sep m : pystr) (l : list pystr) :
  m <> [] -> hd_error (join sep (m :: l)) = hd_error m.
Proof. intros H. destruct m; [congruence|reflexivity]. Qed.

Lemma Qlt_bool_false_iff (a b : Q) : Qlt_bool a b = false <-> b <= a.
Proof.
  split; [apply Qlt_bool_false|]. intros H.
  destruct (Qlt_bool a b) eqn:E; [apply Qlt_bool_true in E; lra|reflexivity].
Qed.

(** [_generate_feedback] never returns an empty string, and it returns the
    single "balanced" message exactly when no score crosses one of its
    thresholds: redundancy at most 0.5, coherence in [[0.4, 0.8]], surprise
    and emotional depth in [[0.3, 0.7]], complexity in [[0.3, 0.8]]. *)
Theorem generate_feedback_balanced (r : AnalysisResult) :
  _generate_feedback r <> [] /\
  (_generate_feedback r = u8 "🎯 Réponse équilibrée dans l'ensemble" <->
   redundancy_score r <= 5#10 /\ 4#10 <= coherence_score r <= 8#10 /\
   3#10 <= surprise_factor r <= 7#10 /\ 3#10 <= emotional_depth r <= 7#10 /\
   3#10 <= complexity_score r <= 8#10).
Proof.
  unfold _generate_feedback. cbv zeta.
  match goal with |- context [match ?p with [] => _ | _ :: _ => _ end] =>
    remember p as parts eqn:Ep end.
  set (bal := u8 "🎯 Réponse équilibrée dans l'ensemble").
  assert (Hnil : parts = [] <->
     redundancy_score r <= 5#10 /\ 4#10 <= coherence_score r <= 8#10 /\
     3#10 <= surprise_factor r <= 7#10 /\ 3#10 <= emotional_depth r <= 7#10 /\
     3#10 <= complexity_score r <= 8#10).
  { subst parts. split.
    - intros H.
      repeat match goal with H : _ ++ _ = [] |- _ => apply app_eq_nil in H as [? ?] end.
      repeat match goal with H : (if _ then [_] else if _ then [_] else []) = [] |- _ =>
        apply segment_nil in H as [? ?] end.
      repeat match goal with H : Qlt_bool _ _ = false |- _ => apply Qlt_bool_false in H end.
      repeat split; lra.
    - intros H. repeat match goal with H : _ /\ _ |- _ => destruct H end.
      repeat match goal with |- context [Qlt_bool ?a ?b] =>
        rewrite (proj2 (Qlt_bool_false_iff a b)) by lra end.
      reflexivity. }
  assert (Hall : Forall (fun m => m <> [] /\ hd_error m <> hd_error bal) parts).
  { subst parts.
    repeat (apply Forall_app; split); apply segment_forall; cbv beta; subst bal;
      (split; [vm_compute; discriminate|vm_compute; discriminate]). }
  destruct parts as [|m l].
  - assert (Hj : join (u8 " | ") [bal] = bal) by (cbn [join map List.concat]; apply app_nil_r).
    rewrite Hj. split; [subst bal; vm_compute; discriminate|].
    split; [intros _; apply Hnil; reflexivity|reflexivity].
  - inversion Hall as [|? ? [Hm Hh] _]; subst.
    split.
    + intros E. apply (f_equal (@hd_error Z)) in E. rewrite join_hd in E by exact Hm.
      destruct m; [congruence|discriminate].
    + split.
      * intros E. apply (f_equal (@hd_error Z)) in E. rewrite join_hd in E by exact Hm.
        contradiction.
      * intros H. apply Hnil in H. discriminate.
Qed.

Lemma pystr_eqb_refl (s : pystr) : RewardEngine.pystr_eqb s s = true.
Proof. induction s as [|c s IH]; cbn; [reflexivity|]. rewrite Z.eqb_refl, IH. reflexivity. Qed.

Lemma mem_In (w : pystr) (l : list pystr) : In w l -> RewardEngine.mem w l = true.
Proof.
  intros H. unfold RewardEngine.mem. apply existsb_exists. exists w. split; [exact H|].
  apply pystr_eqb_refl.
Qed.

Lemma inter_size_le (a b : list pystr) : (inter_size a b <= List.length a)%nat.
Proof. apply filter_length_le. Qed.

Lemma union_size_ge (a b : list pystr) : (List.length a <= union_size a b)%nat.
Proof. unfold union_size. lia. Qed.

Lemma filter_all {A} (f : A -> bool) (l : list A) :
  (forall x, In x l -> f x = true) -> filter f l = l.
Proof.
  induction l as [|x l IH]; intros H; cbn; [reflexivity|].
  rewrite H by (now left). rewrite IH by (intros; apply H; now right). reflexivity.
Qed.

Lemma filter_none {A} (f : A -> bool) (l : list A) :
  (forall x, In x l -> f x = false) -> filter f l = [].
Proof.
  induction l as [|x l IH]; intros H; cbn; [reflexivity|].
  rewrite H by (now left). apply IH. intros; apply H; now right.
Qed.

Lemma inter_size_self (a : list pystr) : inter_size a a = List.length a.
Proof. unfold inter_size. rewrite filter_all; [reflexivity|]. intros w Hw. apply mem_In, Hw. Qed.

Lemma union_size_self (a : list pystr) : union_size a a = List.length a.
Proof.
  unfold union_size. rewrite filter_none; [cbn; lia|].
  intros w Hw. rewrite mem_In by exact Hw. reflexivity.
Qed.

Lemma Q_of_nat_le (a b : nat) : (a <= b)%nat -> Q_of_nat a <= Q_of_nat b.
Proof. intros H. unfold Q_of_nat. rewrite <- Zle_Qle. lia. Qed.

Lemma Q_of_nat_pos (n : nat) : (0 < n)%nat -> 0 < Q_of_nat n.
Proof. intros H. unfold Q_of_nat. change 0 with (inject_Z 0). rewrite <- Zlt_Qlt. lia. Qed.

Lemma Q_of_nat_nonneg (n : nat) : 0 <= Q_of_nat n.
Proof. apply (Q_of_nat_le 0). lia. Qed.

Lemma ratio_unit (a b : Q) : 0 <= a -> a <= b -> 0 < b -> 0 <= a / b <= 1.
Proof.
  intros Ha Hab Hb. split.
  - apply Qle_shift_div_l; [exact Hb|]. lra.
  - apply Qle_shift_div_r; [exact Hb|]. lra.
Qed.

Lemma jaccard_unit (a b : list pystr) :
  (0 < union_size a b)%nat -> 0 <= Q_of_nat (inter_size a b) / Q_of_nat (union_size a b) <= 1.
Proof.
  intros H. apply ratio_unit.
  - apply Q_of_nat_nonneg.
  - apply Q_of_nat_le. pose proof (inter_size_le a b). pose proof (union_size_ge a b). lia.
  - apply Q_of_nat_pos, H.
Qed.

Lemma fold_append_forall {A} (P : Q -> Prop) (step : list Q -> A -> list Q) (l : list A) (init : list Q) :
  (forall scores x, exists ext, step scores x = scores ++ ext /\ Forall P ext) ->
  Forall P init -> Forall P (fold_left step l init).
Proof.
  intros Hs. revert init; induction l as [|x l IH]; intros init Hi; cbn; [exact Hi|].
  apply IH. destruct (Hs init x) as (ext & -> & He). apply Forall_app; split; assumption.
Qed.


Lemma surprise_factor_spec (env : RewardEngine.text_env) (self : Critic) (response : pystr) :
  0 <= _calculate_surprise_factor env self response <= 1 /\
  (response_history self = [] \/ distinct (lower_words env response) = [] ->
   _calculate_surprise_factor env self response = 1).
Proof.
  unfold _calculate_surprise_factor.
  set (cw := distinct (lower_words env response)).
  set (step := fun (scores : list Q) (past_response : pystr) =>
         let past_words := distinct (lower_words env past_response) in
         match cw, past_words with
         | _ :: _, _ :: _ =>
             let union := union_size cw past_words in
             let similarity :=
               if Nat.ltb 0 union
               then Q_of_nat (inter_size cw past_words) / Q_of_nat union
               else 0 in
             scores ++ [similarity]
         | _, _ => scores
         end).
  change (fold_left _ ?l []) with (fold_left step l []).
  destruct (response_history self) as [|h hs]; [split; [lra|intros _; reflexivity]|].
  assert (Hf : Forall (fun x => 0 <= x <= 1) (fold_left step (last_n 5 (h :: hs)) [])).
  { apply fold_append_forall; [|constructor].
    intros scores x. unfold step. cbv zeta.
    destruct cw as [|c cw'], (distinct (lower_words env x)) as [|p pw];
      try (exists []; split; [rewrite app_nil_r; reflexivity|constructor]).
    eexists; split; [reflexivity|]. constructor; [|constructor].
    destruct (Nat.ltb_spec 0 (union_size (c :: cw') (p :: pw))) as [Hu|Hu];
      [apply jaccard_unit, Hu|lra]. }
  assert (Hcw : cw = [] -> fold_left step (last_n 5 (h :: hs)) [] = []).
  { intros E. generalize (last_n 5 (h :: hs)). intros l. induction l as [|x l IH]; [reflexivity|].
    cbn [fold_left]. unfold step at 2. rewrite E. exact IH. }
  destruct (fold_left step (last_n 5 (h :: hs)) []) as [|s ss] eqn:E.
  - split; [lra|intros _; reflexivity].
  - split.
    + pose proof (average_bounds 0 1 0 (s :: ss) ltac:(lra) Hf) as B.
      unfold average_or, qsum in B. unfold Q_of_nat. lra.
    + intros [H|H]; [discriminate|]. specialize (Hcw H). discriminate Hcw.
Qed.


Lemma qsum_repeat (s : Q) (k : nat) : qsum (repeat s k) == Q_of_nat k * s.
Proof.
  unfold qsum, Q_of_nat. induction k as [|k IH].
  { cbn [repeat fold_left]. change (inject_Z (Z.of_nat 0)) with 0. lra. }
  cbn [repeat fold_left]. rewrite qsum_acc, IH, Nat2Z.inj_succ, <- Z.add_1_r, inject_Z_plus.
  change (inject_Z 1) with 1. ring.
Qed.

Lemma last_n_nonempty {A} (n : nat) (x : A) (l : list A) :
  (0 < n)%nat -> last_n n (x :: l) <> [].
Proof.
  intros Hn E. apply (f_equal (@List.length A)) in E. unfold last_n in E.
  rewrite length_skipn in E. cbn [List.length] in E. lia.
Qed.

(** When the last five responses of the history are all the current
    response and that response has at least one word, every Jaccard
    similarity is 1 and [_calculate_surprise_factor] returns 0. *)
Theorem surprise_factor_repeat (env : RewardEngine.text_env) (self : Critic) (response : pystr)
    (Hh : response_history self <> [])
    (Hw : distinct (lower_words env response) <> [])
    (Hr : Forall (fun p => p = response) (last_n 5 (response_history self))) :
  _calculate_surprise_factor env self response == 0.
Proof.
  unfold _calculate_surprise_factor.
  set (cw := distinct (lower_words env response)) in *.
  set (step := fun (scores : list Q) (past_response : pystr) =>
         let past_words := distinct (lower_words env past_response) in
         match cw, past_words with
         | _ :: _, _ :: _ =>
             let union := union_size cw past_words in
             let similarity :=
               if Nat.ltb 0 union
               then Q_of_nat (inter_size cw past_words) / Q_of_nat union
               else 0 in
             scores ++ [similarity]
         | _, _ => scores
         end).
  change (fold_left _ ?l []) with (fold_left step l []).
  set (sim := Q_of_nat (List.length cw) / Q_of_nat (List.length cw)).
  assert (Hlen : (0 < List.length cw)%nat) by (destruct cw; [congruence|cbn; lia]).
  assert (Hsim : sim == 1) by (unfold sim; field; pose proof (Q_of_nat_pos _ Hlen); lra).
  assert (Hstep : forall init, step init response = init ++ [sim]).
  { intros init. unfold step. cbv zeta. fold cw.
    rewrite inter_size_self, union_size_self.
    destruct cw as [|c cw']; [cbn in Hlen; lia|].
    destruct (Nat.ltb_spec 0 (List.length (c :: cw'))) as [_|h]; [reflexivity|lia]. }
  assert (Hfold : forall L init, Forall (fun p => p = response) L ->
            fold_left step L init = init ++ repeat sim (List.length L)).
  { induction L as [|x L IH]; intros init HL; cbn [fold_left]; [rewrite app_nil_r; reflexivity|].
    inversion HL as [|? ? Hx HL']; subst x. rewrite Hstep, IH by exact HL'.
    cbn [List.length repeat]. rewrite <- app_assoc. reflexivity. }
  destruct (response_history self) as [|h hs]; [congruence|].
  rewrite (Hfold _ [] Hr). cbn [app].
  assert (HL : (0 < List.length (last_n 5 (h :: hs)))%nat).
  { destruct (last_n 5 (h :: hs)) eqn:E; [exfalso; exact (last_n_nonempty 5 h hs ltac:(lia) E)|cbn; lia]. }
  destruct (List.length (last_n 5 (h :: hs))) as [|k] eqn:Ek; [lia|].
  cbn [repeat]. change (fold_left Qplus (sim :: repeat sim k) 0) with (qsum (repeat sim (S k))).
  change (List.length (sim :: repeat sim k)) with (S (List.length (repeat sim k))).
  rewrite qsum_repeat, repeat_length, Hsim.
  pose proof (Q_of_nat_pos (S k) ltac:(lia)). field_simplify; [reflexivity|lra].
Qed.

Lemma surprise_factor_repeat_witness :
  let c := mkCritic [of_ascii "le chat dort"; of_ascii "le chat dort"] [] in
  let r := of_ascii "le chat dort" in
  (response_history c <> [] /\
   distinct (lower_words RewardEngine.latin1_env r) <> [] /\
   Forall (fun p => p = r) (last_n 5 (response_history c))) /\
  _calculate_surprise_factor RewardEngine.latin1_env c r == 0.
Proof.
  cbv zeta.
  assert (H1 : response_history (mkCritic [of_ascii "le chat dort"; of_ascii "le chat dort"] [])
               <> []) by discriminate.
  assert (H2 : distinct (lower_words RewardEngine.latin1_env (of_ascii "le chat dort")) <> [])
    by (vm_compute; discriminate).
  assert (H3 : Forall (fun p => p = of_ascii "le chat dort")
                 (last_n 5 (response_history
                    (mkCritic [of_ascii "le chat dort"; of_ascii "le chat dort"] []))))
    by (repeat constructor).
  split; [auto|]. exact (surprise_factor_repeat _ _ _ H1 H2 H3).
Defined.


Lemma first_occurrence_length (l seen : list pystr) :
  (List.length (RewardEngine.first_occurrence_acc l seen) <= List.length l + List.length seen)%nat.
Proof.
  revert seen; induction l as [|w l IH]; intros seen; cbn [RewardEngine.first_occurrence_acc].
  - rewrite length_rev. cbn. lia.
  - destruct (RewardEngine.mem w seen).
    + specialize (IH seen). cbn [List.length]. lia.
    + specialize (IH (w :: seen)). cbn [List.length] in *. lia.
Qed.

Lemma fold_step_bounds {A} (f : Q -> A -> Q) :
  (forall acc x, acc <= f acc x <= acc + 1) ->
  forall l acc, acc <= fold_left f l acc <= acc + Q_of_nat (List.length l).
Proof.
  intros Hf l. induction l as [|x l IH]; intros acc; cbn [fold_left].
  - change (Q_of_nat (List.length (@nil A))) with 0. lra.
  - specialize (IH (f acc x)). specialize (Hf acc x). unfold Q_of_nat in *.
    rewrite Q_of_len_succ. lra.
Qed.

Lemma pair_similarity_bounds (env : RewardEngine.text_env) (l : list pystr) (acc : Q) :
  acc <= pair_similarity env l acc <=
  acc + Q_of_nat (List.length l) * (Q_of_nat (List.length l) - 1) / 2.
Proof.
  revert acc; induction l as [|s1 rest IH]; intros acc; cbn [pair_similarity].
  - change (Q_of_nat (List.length (@nil pystr))) with 0.
    assert (E : 0 * (0 - 1) / 2 == 0) by reflexivity. rewrite E. lra.
  - set (f := fun acc0 s2 =>
           let s1_words := distinct (lower_words env s1) in
           let s2_words := distinct (lower_words env s2) in
           match s1_words, s2_words with
           | _ :: _, _ :: _ => acc0 + jaccard s1_words s2_words
           | _, _ => acc0
           end).
    assert (Hf : forall acc0 x, acc0 <= f acc0 x <= acc0 + 1).
    { intros acc0 x. unfold f. cbv zeta.
      destruct (distinct (lower_words env s1)) as [|a al], (distinct (lower_words env x)) as [|b bl];
        try lra.
      pose proof (jaccard_unit (a :: al) (b :: bl)) as J.
      assert (Hu : (0 < union_size (a :: al) (b :: bl))%nat)
        by (pose proof (union_size_ge (a :: al) (b :: bl)); cbn [List.length] in *; lia).
      specialize (J Hu). unfold jaccard. lra. }
    pose proof (fold_step_bounds f Hf rest acc) as F.
    pose proof (IH (fold_left f rest acc)) as I.
    unfold Q_of_nat in *. rewrite Q_of_len_succ.
    set (m := inject_Z (Z.of_nat (List.length rest))) in *.
    assert (Hm : 0 <= m) by apply Q_of_nat_nonneg.
    assert (E : (m + 1) * (m + 1 - 1) / 2 == m + m * (m - 1) / 2) by field.
    rewrite E. lra.
Qed.

Lemma redundancy_spec (env : RewardEngine.text_env) (response : pystr) :
  0 <= _analyze_redundancy env response <= 1 /\
  ((List.length (lower_words env response) < 10)%nat -> _analyze_redundancy env response = 0).
Proof.
  unfold _analyze_redundancy.
  destruct (Nat.ltb_spec (List.length (lower_words env response)) 10) as [H10|H10];
    [split; [lra|intros _; reflexivity]|].
  split; [|intros; lia].
  cbv zeta.
  set (words := lower_words env response) in *.
  assert (Hrep : 0 <= 1 - Q_of_nat (List.length (distinct words)) / Q_of_nat (List.length words) <= 1).
  { pose proof (first_occurrence_length words []) as L. cbn [List.length] in L.
    assert (L' : (List.length (distinct words) <= List.length words)%nat) by (unfold distinct; lia).
    assert (P : (0 < List.length words)%nat) by lia.
    pose proof (ratio_unit (Q_of_nat (List.length (distinct words))) (Q_of_nat (List.length words))
                  (Q_of_nat_nonneg _) (Q_of_nat_le _ _ L') (Q_of_nat_pos _ P)). lra. }
  assert (Hpat : forall x, 0 <= x -> 0 <= py_min 1 x <= 1).
  { intros x Hx. destruct (py_min_cases 1 x) as [[-> ?]|[-> ?]]; lra. }
  assert (Hp : 0 <= py_min 1 (Q_of_nat (fold_left (fun n p =>
              (n + findall_count env p (RewardEngine.py_lower env response))%nat)
              redundancy_patterns O) / 10) <= 1).
  { apply Hpat. apply Qle_shift_div_l; [lra|].
    pose proof (Q_of_nat_nonneg (fold_left (fun n p =>
              (n + findall_count env p (RewardEngine.py_lower env response))%nat)
              redundancy_patterns O)). lra. }
  set (n := List.length (split_sentences response)).
  assert (Hs : 0 <= (if Nat.ltb 1 n
                     then pair_similarity env (split_sentences response) 0 /
                          ((Q_of_nat n * (Q_of_nat n - 1)) / 2)
                     else 0) <= 1).
  { destruct (Nat.ltb_spec 1 n) as [Hn|Hn]; [|lra].
    pose proof (pair_similarity_bounds env (split_sentences response) 0) as B. fold n in B.
    assert (H2 : 2 <= Q_of_nat n) by (change 2 with (Q_of_nat 2); apply Q_of_nat_le; lia).
    apply ratio_unit; [lra|lra|].
    apply Qlt_shift_div_l; [lra|]. nra. }
  lra.
Qed.


Lemma inner_count_bounds (b : pystr -> bool) (words : list pystr) (n : nat) :
  (n <= fold_left (fun n w => if b w then S n else n) words n <= n + List.length words)%nat.
Proof.
  revert n; induction words as [|w words IH]; intros n; cbn [fold_left List.length]; [lia|].
  destruct (b w); [specialize (IH (S n))|specialize (IH n)]; lia.
Qed.

Lemma occurrences_le (env : RewardEngine.text_env) (words sentences : list pystr) :
  (occurrences env words sentences <= List.length words * List.length sentences)%nat.
Proof.
  unfold occurrences.
  assert (G : forall n, (fold_left (fun n s =>
               fold_left (fun n w => if is_substring w (RewardEngine.py_lower env s) then S n else n)
                 words n) sentences n <= n + List.length words * List.length sentences)%nat).
  { induction sentences as [|s ss IH]; intros n; cbn [fold_left List.length]; [lia|].
    pose proof (inner_count_bounds (fun w => is_substring w (RewardEngine.py_lower env s)) words n).
    specialize (IH (fold_left (fun n w => if is_substring w (RewardEngine.py_lower env s) then S n else n)
                  words n)).
    lia. }
  apply (G O).
Qed.

Lemma Q_of_nat_mul (a b : nat) : Q_of_nat (a * b) == Q_of_nat a * Q_of_nat b.
Proof. unfold Q_of_nat. rewrite Nat2Z.inj_mul, inject_Z_mult. reflexivity. Qed.

Lemma coherence_spec (env : RewardEngine.text_env) (response : pystr) :
  0 <= _analyze_coherence env response <= 5#2 /\
  ((List.length (stripped_sentences response) < 2)%nat -> _analyze_coherence env response = 7#10) /\
  _analyze_coherence RewardEngine.latin1_env
    (u8 "D'abord ensuite puis enfin. D'abord ensuite puis enfin.") == 129#100.
Proof.
  split; [|split; [|vm_compute; reflexivity]].
  - unfold _analyze_coherence.
    destruct (Nat.ltb_spec (List.length (stripped_sentences response)) 2) as [H2|H2]; [lra|].
    cbv zeta.
    set (sentences := stripped_sentences response) in *.
    set (n := Q_of_nat (List.length sentences)).
    assert (Hn : 0 < n) by (apply Q_of_nat_pos; lia).
    assert (Hmin : forall x, 0 <= x -> 0 <= py_min 1 x <= 1).
    { intros x Hx. destruct (py_min_cases 1 x) as [[-> ?]|[-> ?]]; lra. }
    assert (Hc : 0 <= py_min 1 (Q_of_nat (occurrences env connectors sentences) / n) <= 1).
    { apply Hmin. apply Qle_shift_div_l; [exact Hn|].
      pose proof (Q_of_nat_nonneg (occurrences env connectors sentences)). lra. }
    assert (Ht : 0 <= Q_of_nat (occurrences env transition_words sentences) / n <= 6).
    { pose proof (occurrences_le env transition_words sentences) as L.
      change (List.length transition_words) with 6%nat in L.
      apply Q_of_nat_le in L. rewrite Q_of_nat_mul in L. change (Q_of_nat 6) with 6 in L.
      fold n in L.
      split.
      - apply Qle_shift_div_l; [exact Hn|].
        pose proof (Q_of_nat_nonneg (occurrences env transition_words sentences)). lra.
      - apply Qle_shift_div_r; [exact Hn|]. lra. }
    match goal with |- context [py_min 1 (Q_of_nat (List.length ?iw) / 10)] =>
      assert (Hw : 0 <= py_min 1 (Q_of_nat (List.length iw) / 10) <= 1) end.
    { apply Hmin. apply Qle_shift_div_l; [lra|].
      match goal with |- _ <= Q_of_nat ?k => pose proof (Q_of_nat_nonneg k) end. lra. }
    lra.
  - intros H. unfold _analyze_coherence.
    destruct (Nat.ltb_spec (List.length (stripped_sentences response)) 2); [reflexivity|lia].
Qed.


Lemma generate_feedback_nonempty (r : AnalysisResult) : _generate_feedback r <> [].
Proof.
  unfold _generate_feedback. cbv zeta.
  match goal with |- context [match ?p with [] => _ | _ :: _ => _ end] =>
    remember p as parts eqn:Ep end.
  assert (Hall : Forall (fun m => m <> []) parts).
  { subst parts.
    repeat (apply Forall_app; split); apply segment_forall; vm_compute; discriminate. }
  destruct parts as [|m l]; [vm_compute; discriminate|].
  inversion Hall as [|? ? Hm _]; subst.
  intros E. apply (f_equal (@hd_error Z)) in E. rewrite join_hd in E by exact Hm.
  destruct m; [congruence|discriminate].
Qed.

Lemma emotional_depth_bounds (env : RewardEngine.text_env) (response : pystr) :
  0 <= _analyze_emotional_depth env response <= 1.
Proof.
  unfold _analyze_emotional_depth. cbv zeta.
  match goal with |- _ <= py_min 1 (py_max 0 ?x) <= _ =>
    destruct (py_max_cases 0 x) as [[-> ?]|[-> ?]];
    [destruct (py_min_cases 1 0) as [[-> ?]|[-> ?]]|destruct (py_min_cases 1 x) as [[-> ?]|[-> ?]]] end;
  lra.
Qed.

Lemma skipn_app_last {A} (n : nat) (l : list A) (x : A) :
  (n <= List.length l)%nat -> skipn n (l ++ [x]) = skipn n l ++ [x].
Proof.
  intros Hn. rewrite skipn_app. replace (n - List.length l)%nat with O by lia. reflexivity.
Qed.

(** [analyze_response] appends the response and its result at the end of
    the two histories. The response history never holds more than 100
    entries: below 100 entries both lists are just extended, from 100 on
    both are cut to their last 50 entries (the response history to exactly
    50). Histories of equal length stay of equal length. *)
Theorem analyze_response_history (env : RewardEngine.text_env) (self : Critic)
    (prompt response : pystr) (context : option analysis_context) :
  let '(result, self') := analyze_response env self prompt response context in
  (exists rh0, response_history self' = rh0 ++ [response]) /\
  (exists ah0, analysis_history self' = ah0 ++ [result]) /\
  (List.length (response_history self') <= 100)%nat /\
  ((List.length (response_history self) < 100)%nat ->
   response_history self' = response_history self ++ [response] /\
   analysis_history self' = analysis_history self ++ [result]) /\
  ((100 <= List.length (response_history self))%nat ->
   response_history self' = last_n 50 (response_history self ++ [response]) /\
   analysis_history self' = last_n 50 (analysis_history self ++ [result]) /\
   List.length (response_history self') = 50%nat) /\
  (List.length (response_history self) = List.length (analysis_history self) ->
   List.length (response_history self') = List.length (analysis_history self')).
Proof.
  unfold analyze_response.
  match goal with |- context [analysis_history self ++ [?res]] => set (result := res) end.
  rewrite length_app. cbn [List.length].
  destruct (Nat.ltb_spec 100 (List.length (response_history self) + 1)) as [H|H];
    cbv beta iota; cbn [response_history analysis_history].
  - unfold last_n. rewrite !length_app. cbn [List.length].
    assert (Hl : (List.length (response_history self) + 1 - 50 <= List.length (response_history self))%nat) by lia.
    rewrite (skipn_app_last _ _ _ Hl).
    split; [eexists; reflexivity|].
    split.
    { destruct (Nat.le_gt_cases (List.length (analysis_history self) + 1 - 50)
                  (List.length (analysis_history self))) as [Ha|Ha].
      - rewrite (skipn_app_last _ _ _ Ha). eexists; reflexivity.
      - exists []. rewrite skipn_all2; [|rewrite length_app; cbn [List.length]; lia].
        lia. }
    rewrite length_app, length_skipn. cbn [List.length].
    split; [lia|]. split; [lia|]. split.
    + intros _. split; [reflexivity|]. split; [reflexivity|lia].
    + intros E. rewrite !length_skipn, !length_app, E. cbn [List.length]. lia.
  - split; [eexists; reflexivity|]. split; [eexists; reflexivity|].
    rewrite length_app. cbn [List.length].
    split; [lia|]. split; [intros _; split; reflexivity|]. split; [intros; lia|].
    intros E. rewrite !length_app, E. reflexivity.
Qed.


Lemma last_n_length {A} (n : nat) (l : list A) : List.length (last_n n l) = Nat.min n (List.length l).
Proof. unfold last_n. rewrite length_skipn. lia. Qed.

(** The result of [analyze_response] has redundancy, surprise and
    emotional depth in [[0, 1]], coherence in [[0, 2.5]], a non-empty
    feedback string and a suggested temperature in [[0.6, 1]]. *)
Theorem analyze_response_result (env : RewardEngine.text_env) (self : Critic)
    (prompt response : pystr) (context : option analysis_context) :
  let result := fst (analyze_response env self prompt response context) in
  0 <= redundancy_score result <= 1 /\
  0 <= coherence_score result <= 5#2 /\
  0 <= surprise_factor result <= 1 /\
  0 <= emotional_depth result <= 1 /\
  feedback result <> [] /\
  6#10 <= suggested_temperature result <= 1.
Proof.
  unfold analyze_response.
  match goal with |- context [analysis_history self ++ [?res]] => set (result := res) end.
  destruct (Nat.ltb 100 _); cbv beta iota zeta; cbn [fst]; subst result;
    cbn [redundancy_score coherence_score surprise_factor emotional_depth feedback suggested_temperature];
    (split; [apply (proj1 (redundancy_spec env response))|]);
    (split; [apply (proj1 (coherence_spec env response))|]);
    (split; [apply (proj1 (surprise_factor_spec env self response))|]);
    (split; [apply emotional_depth_bounds|]);
    (split; [apply generate_feedback_nonempty|apply suggest_temperature_bounds]).
Qed.

(** [get_analysis_trends] returns nothing exactly when the analysis
    history is empty. Otherwise it averages the last [min 10 n] analyses:
    [trend_count] is that number and, when these analyses have their
    redundancy, surprise, complexity and emotional depth in [[0, 1]] and
    their coherence in [[0, 2.5]], the averages lie in the same ranges. *)
Theorem analysis_trends_spec (self : Critic) :
  (get_analysis_trends self = None <-> analysis_history self = []) /\
  (forall t, get_analysis_trends self = Some t ->
   trend_count t = Nat.min 10 (List.length (analysis_history self)) /\
   (Forall (fun a => 0 <= redundancy_score a <= 1 /\ 0 <= coherence_score a <= 5#2 /\
                     0 <= surprise_factor a <= 1 /\ 0 <= complexity_score a <= 1 /\
                     0 <= emotional_depth a <= 1) (last_n 10 (analysis_history self)) ->
    0 <= avg_redundancy t <= 1 /\ 0 <= avg_coherence t <= 5#2 /\
    0 <= avg_surprise t <= 1 /\ 0 <= avg_complexity t <= 1 /\
    0 <= avg_emotional_depth t <= 1)).
Proof.
  unfold get_analysis_trends.
  destruct (analysis_history self) as [|a ah] eqn:E.
  { split; [split; reflexivity|intros t D; discriminate]. }
  split; [split; discriminate|].
  intros t D. injection D as <-. cbn [trend_count avg_redundancy avg_coherence avg_surprise
    avg_complexity avg_emotional_depth].
  split; [apply last_n_length|].
  intros Hall.
  set (recent := last_n 10 (a :: ah)) in *.
  assert (Hne : recent <> []) by (apply last_n_nonempty; lia).
  assert (Havg : forall (lo hi : Q) (f : AnalysisResult -> Q), lo <= hi ->
            Forall (fun a => lo <= f a <= hi) recent ->
            lo <= fold_left Qplus (map f recent) 0 / Q_of_nat (List.length recent) <= hi).
  { intros lo hi f Hlh Hf.
    assert (Hm : Forall (fun x => lo <= x <= hi) (map f recent)) by (apply Forall_map; exact Hf).
    pose proof (average_bounds lo hi lo (map f recent) ltac:(lra) Hm) as B.
    destruct recent as [|r rs]; [congruence|].
    unfold average_or, qsum in B. rewrite length_map in B. exact B. }
  refine (conj _ (conj _ (conj _ (conj _ _)))); apply Havg;
    (unfold Qle; cbn; lia) || (eapply Forall_impl; [|exact Hall]; cbv beta; intros x Hx; tauto).
Qed.

(** [_calculate_surprise_factor] lies in [[0, 1]]; it is 1 when the
    history is empty or the response has no word. *)
Theorem surprise_factor_range (env : RewardEngine.text_env) (self : Critic) (response : pystr) :
  0 <= _calculate_surprise_factor env self response <= 1 /\
  (response_history self = [] \/ distinct (lower_words env response) = [] ->
   _calculate_surprise_factor env self response = 1).
Proof. exact (surprise_factor_spec env self response). Qed.

(** [_analyze_redundancy] lies in [[0, 1]]; it is 0 for a response of
    fewer than ten words. *)
Theorem redundancy_range (env : RewardEngine.text_env) (response : pystr) :
  0 <= _analyze_redundancy env response <= 1 /\
  ((List.length (lower_words env response) < 10)%nat -> _analyze_redundancy env response = 0).
Proof. exact (redundancy_spec env response). Qed.

(** [_analyze_coherence] lies in [[0, 2.5]], not in [[0, 1]]: the
    transition score counts every transition word of every sentence and is
    not capped, so "D'abord ensuite puis enfin. D'abord ensuite puis
    enfin." scores 1.29. It is 0.7 for fewer than two sentences. *)
Theorem coherence_range (env : RewardEngine.text_env) (response : pystr) :
  0 <= _analyze_coherence env response <= 5#2 /\
  ((List.length (stripped_sentences response) < 2)%nat -> _analyze_coherence env response = 7#10) /\
  _analyze_coherence RewardEngine.latin1_env
    (u8 "D'abord ensuite puis enfin. D'abord ensuite puis enfin.") == 129#100.
Proof. exact (coherence_spec env response). Qed.

End CriticalAnalyzerFacts.
